(** * FCL stuffing: the greedy container-loading engine of [streamlit_app.py]

    A shallow embedding of the packing-relevant part of the program
    (classes [Item], [Container] and [BinPacker]) and the properties of
    the placement engine.

    Numbers are Python integers (the input widgets of the application are
    created with integer defaults), modelled as [Z].  Python faults are
    modelled by an error monad: [KeyError] is the failed lookup of an
    orientation code in the dictionary of [Item.get_dimensions], [TypeError]
    the unpacking of a [None] position. *)

From stdpp Require Import gmap strings list sorting pretty.
From Stdlib Require Import ZArith Lia.

Local Open Scope Z_scope.

(** ** Faults *)

Inductive exn : Type :=
  | KeyError (key : string)
  | TypeError.

Inductive result (A : Type) : Type :=
  | Ok (a : A)
  | Raise (e : exn).

Arguments Ok {A} a.
Arguments Raise {A} e.

#[global] Instance result_ret : MRet result := @Ok.
#[global] Instance result_bind : MBind result :=
  λ A B f m, match m with Ok a => f a | Raise e => Raise e end.

(** ** Python's [sorted] / [list.sort] with a key function

    Both are stable: elements with equal keys keep their relative order.
    The model is the stable insertion sort; [le] is the order of the keys
    (tuples compare lexicographically). *)

Section sorted_by_key.
Context {A K : Type} (key : A → K) (le : K → K → bool).

Fixpoint insert_by (x : A) (l : list A) : list A :=
  match l with
  | [] => [x]
  | y :: l' => if le (key x) (key y) then x :: l else y :: insert_by x l'
  end.

Fixpoint sorted (l : list A) : list A :=
  match l with
  | [] => []
  | x :: l' => insert_by x (sorted l')
  end.
End sorted_by_key.

(** Order of Python pairs and triples of integers. *)
Definition tuple2_le (a b : Z * Z) : bool :=
  (a.1 <? b.1) || ((a.1 =? b.1) && (a.2 <=? b.2)).

Definition tuple3_le (a b : Z * Z * Z) : bool :=
  let '(a1, a2, a3) := a in
  let '(b1, b2, b3) := b in
  (a1 <? b1) || ((a1 =? b1) && ((a2 <? b2) || ((a2 =? b2) && (a3 <=? b3)))).

(** A point [(x, y, z)] of the container. *)
Definition Pos : Type := Z * Z * Z.

(** ** class Item *)

Module Item.

Record t : Type := mk {
  name : string;
  item_type : string;
  original_dims : Z * Z * Z;
  length : Z;
  width : Z;
  height : Z;
  weight : Z;
  quantity : Z;
  orientation_preference : list string;
  fragile : bool;
  can_stack : bool;
  can_stack_same_type : bool;
  position : option Pos;
  rotation : option string;
  color : string
}.

(** [Item.__init__]; [orientation_preference or ["lwh"]] replaces [None]
    and the empty list by the default. *)
Definition init (name : string) (length width height weight quantity : Z)
    (orientation_preference : option (list string))
    (fragile can_stack can_stack_same_type : bool)
    (item_type color : string) : t :=
  {| name := name;
     item_type := item_type;
     original_dims := (length, width, height);
     length := length;
     width := width;
     height := height;
     weight := weight;
     quantity := quantity;
     orientation_preference :=
       match orientation_preference with
       | None | Some [] => ["lwh"%string]
       | Some l => l
       end;
     fragile := fragile;
     can_stack := can_stack;
     can_stack_same_type := can_stack_same_type;
     position := None;
     rotation := None;
     color := color |}.

(** The dictionary built by [get_dimensions]. *)
Definition orientation_table (l w h : Z) : gmap string (Z * Z * Z) :=
  list_to_map
    [ ("lwh"%string, (l, w, h));
      ("lhw"%string, (l, h, w));
      ("wlh"%string, (w, l, h));
      ("whl"%string, (w, h, l));
      ("hlw"%string, (h, l, w));
      ("hwl"%string, (h, w, l)) ].

Definition get_dimensions (self : t) (orientation : string)
    : result (Z * Z * Z) :=
  let '(l, w, h) := original_dims self in
  match orientation_table l w h !! orientation with
  | Some d => Ok d
  | None => Raise (KeyError orientation)
  end.

Definition set_orientation (self : t) (orientation : string) : result t :=
  '(d1, d2, d3) ← get_dimensions self orientation;
  Ok {| name := name self;
        item_type := item_type self;
        original_dims := original_dims self;
        length := d1;
        width := d2;
        height := d3;
        weight := weight self;
        quantity := quantity self;
        orientation_preference := orientation_preference self;
        fragile := fragile self;
        can_stack := can_stack self;
        can_stack_same_type := can_stack_same_type self;
        position := position self;
        rotation := Some orientation;
        color := color self |}.

Definition get_volume (self : t) : Z :=
  let '(l, w, h) := original_dims self in
  l * w * h.

(** [item.position = (x, y, z)] *)
Definition set_position (self : t) (p : Pos) : t :=
  {| name := name self;
     item_type := item_type self;
     original_dims := original_dims self;
     length := length self;
     width := width self;
     height := height self;
     weight := weight self;
     quantity := quantity self;
     orientation_preference := orientation_preference self;
     fragile := fragile self;
     can_stack := can_stack self;
     can_stack_same_type := can_stack_same_type self;
     position := Some p;
     rotation := rotation self;
     color := color self |}.

(** [new = copy.deepcopy(it); new.quantity = 1; new.name = f"{it.name}_{i+1}"] *)
Definition unit_copy (it : t) (i : Z) : t :=
  {| name := name it +:+ "_" +:+ pretty (i + 1);
     item_type := item_type it;
     original_dims := original_dims it;
     length := length it;
     width := width it;
     height := height it;
     weight := weight it;
     quantity := 1;
     orientation_preference := orientation_preference it;
     fragile := fragile it;
     can_stack := can_stack it;
     can_stack_same_type := can_stack_same_type it;
     position := position it;
     rotation := rotation it;
     color := color it |}.

End Item.

(** ** class Container *)

Module Container.

Record t : Type := mk {
  length : Z;
  width : Z;
  height : Z;
  max_weight : Z;
  items : list Item.t;
  current_weight : Z
}.

Definition init (length width height max_weight : Z) : t :=
  {| length := length; width := width; height := height;
     max_weight := max_weight; items := []; current_weight := 0 |}.

Definition check_overlap (self : t) (item : Item.t) (x y z : Z)
    (other : Item.t) : result bool :=
  match Item.position other with
  | None => Raise TypeError
  | Some (px, py, pz) =>
      Ok (negb (
        (x + Item.length item <=? px) || (x >=? px + Item.length other) ||
        (y + Item.width item <=? py) || (y >=? py + Item.width other) ||
        (z + Item.height item <=? pz) || (z >=? pz + Item.height other)))
  end.

(** The loop [for other in self.items] of [is_valid]. *)
Fixpoint no_overlap (self : t) (item : Item.t) (x y z : Z)
    (others : list Item.t) : result bool :=
  match others with
  | [] => Ok true
  | other :: rest =>
      b ← check_overlap self item x y z other;
      if b : bool then Ok false else no_overlap self item x y z rest
  end.

Definition is_valid (self : t) (item : Item.t) (x y z : Z) : result bool :=
  if x + Item.length item >? length self then Ok false
  else if y + Item.width item >? width self then Ok false
  else if z + Item.height item >? height self then Ok false
  else if current_weight self + Item.weight item >? max_weight self
  then Ok false
  else no_overlap self item x y z (items self).

(** [add_item] mutates the container and the item; the item appended to
    [self.items] is the very object whose position was just set, so both
    new states are returned. *)
Definition add_item (self : t) (item : Item.t) (x y z : Z) : t * Item.t :=
  let item' := Item.set_position item (x, y, z) in
  ({| length := length self; width := width self; height := height self;
      max_weight := max_weight self;
      items := items self ++ [item'];
      current_weight := current_weight self + Item.weight item |},
   item').

End Container.

(** ** class BinPacker *)

Module BinPacker.

Record t : Type := mk { container : Container.t }.

Definition init (L W H max_weight : Z) : t :=
  {| container := Container.init L W H max_weight |}.

(** The loop of [generate_positions] that fills the set [pos]. *)
Fixpoint add_corners (its : list Item.t) (pos : gset Pos)
    : result (gset Pos) :=
  match its with
  | [] => Ok pos
  | it :: rest =>
      match Item.position it with
      | None => Raise TypeError
      | Some (x, y, z) =>
          add_corners rest
            (pos ∪ {[ (x + Item.length it, y, z) ]}
                 ∪ {[ (x, y + Item.width it, z) ]}
                 ∪ {[ (x, y, z + Item.height it) ]})
      end
  end.

(** [key=lambda p:(p[0], p[2], p[1])] *)
Definition position_key (p : Pos) : Z * Z * Z :=
  let '(x, y, z) := p in (x, z, y).

(** [generate_positions].  Python does not fix the order in which a set
    is iterated; [enum] is that order. *)
Definition generate_positions_by (enum : gset Pos → list Pos) (self : t)
    : result (list Pos) :=
  pos ← add_corners (Container.items (container self)) {[ (0, 0, 0) ]};
  Ok (sorted position_key tuple3_le (enum pos)).

(** [key=lambda x:(-x.weight, -x.get_volume())] *)
Definition unit_key (x : Item.t) : Z * Z :=
  (- Item.weight x, - Item.get_volume x).

(** The expansion loop of [pack]: [range(it.quantity)] copies per item. *)
Definition expand (items : list Item.t) : list Item.t :=
  it ← items; Item.unit_copy it <$> seqZ 0 (Item.quantity it).

(** [expanded] after [expanded.sort(...)]. *)
Definition expanded_sorted (items : list Item.t) : list Item.t :=
  sorted unit_key tuple2_le (expand items).

(** The loop [for o in item.orientation_preference] at one position; the
    boolean is the flag [placed]. *)
Fixpoint try_orientations (c : Container.t) (item : Item.t) (x y z : Z)
    (os : list string) : result (Container.t * Item.t * bool) :=
  match os with
  | [] => Ok (c, item, false)
  | o :: os' =>
      item1 ← Item.set_orientation item o;
      v ← Container.is_valid c item1 x y z;
      if v : bool then
        let '(c', item2) := Container.add_item c item1 x y z in
        Ok (c', item2, true)
      else try_orientations c item1 x y z os'
  end.

(** The loop [for x,y,z in self.generate_positions()]. *)
Fixpoint try_positions (c : Container.t) (item : Item.t) (ps : list Pos)
    : result (Container.t * Item.t * bool) :=
  match ps with
  | [] => Ok (c, item, false)
  | (x, y, z) :: ps' =>
      '(c1, item1, placed) ←
        try_orientations c item x y z (Item.orientation_preference item);
      if placed : bool then Ok (c1, item1, true)
      else try_positions c1 item1 ps'
  end.

(** The body of [for item in expanded]. *)
Definition pack_item_by (enum : gset Pos → list Pos) (self : t)
    (item : Item.t) : result (t * Item.t * bool) :=
  ps ← generate_positions_by enum self;
  '(c, item', placed) ← try_positions (container self) item ps;
  Ok ({| container := c |}, item', placed).

(** The loop [for item in expanded]; returns the packer together with
    the final state of the unit objects, in processing order. *)
Fixpoint pack_units_by (enum : gset Pos → list Pos) (self : t)
    (expanded : list Item.t) : result (t * list Item.t) :=
  match expanded with
  | [] => Ok (self, [])
  | item :: rest =>
      '(self1, item', _) ← pack_item_by enum self item;
      '(self2, rest') ← pack_units_by enum self1 rest;
      Ok (self2, item' :: rest')
  end.

Definition pack_by (enum : gset Pos → list Pos) (self : t)
    (items : list Item.t) : result Container.t :=
  '(self', _) ← pack_units_by enum self (expanded_sorted items);
  Ok (container self').

(** The engine with the set iterated in the order of [elements]. *)
Definition generate_positions : t → result (list Pos) :=
  generate_positions_by elements.
Definition pack_item : t → Item.t → result (t * Item.t * bool) :=
  pack_item_by elements.
Definition pack_units : t → list Item.t → result (t * list Item.t) :=
  pack_units_by elements.
Definition pack : t → list Item.t → result Container.t :=
  pack_by elements.

End BinPacker.

(** ** Visualization: [draw_box] and [draw_container]

    A plotly trace is modelled by the arguments it is built from.  The
    float constant [opacity=0.8] is kept as its literal; the layout of the
    figure, a constant dictionary, is left out: a figure is the sequence of
    its traces. *)

Module Plot.

(** [go.Mesh3d(x=, y=, z=, i=, j=, k=, color=, opacity=, name=,
    showlegend=, flatshading=)]: vertex [n] is [(x[n], y[n], z[n])] and
    triangle [n] joins the vertices [i[n]], [j[n]] and [k[n]]. *)
Record Mesh3d : Type := mkMesh3d {
  x : list Z;
  y : list Z;
  z : list Z;
  i : list nat;
  j : list nat;
  k : list nat;
  color : string;
  opacity : string;
  name : string;
  showlegend : bool;
  flatshading : bool
}.

(** [go.Scatter3d(x=, y=, z=, mode=, line=dict(color=, width=),
    showlegend=, hoverinfo=)] *)
Record Scatter3d : Type := mkScatter3d {
  line_x : list Z;
  line_y : list Z;
  line_z : list Z;
  mode : string;
  line_color : string;
  line_width : Z;
  line_showlegend : bool;
  hoverinfo : string
}.

Inductive Trace : Type :=
  | Mesh (m : Mesh3d)
  | Line (s : Scatter3d).

Definition draw_box (x y z length width height : Z) (color name : string)
    (show_legend : bool) : Mesh3d :=
  let vertices :=
    ([x; x+length; x+length; x; x; x+length; x+length; x],
     [y; y; y+width; y+width; y; y; y+width; y+width],
     [z; z; z; z; z+height; z+height; z+height; z+height]) in
  let i := [0; 0; 0; 1; 2; 4; 4; 6; 0; 1; 2; 4]%nat in
  let j := [1; 2; 4; 2; 3; 5; 6; 7; 4; 5; 6; 5]%nat in
  let k := [2; 3; 5; 3; 7; 6; 7; 3; 5; 6; 7; 7]%nat in
  {| x := vertices.1.1; y := vertices.1.2; z := vertices.2;
     i := i; j := j; k := k;
     color := color;
     opacity := "0.8";
     name := name;
     showlegend := show_legend;
     flatshading := false |}.

(** The list [edges_lines] of [draw_container]. *)
Definition edges_lines (container : Container.t)
    : list (list Z * list Z * list Z) :=
  let L := Container.length container in
  let W := Container.width container in
  let H := Container.height container in
  [ ([0; L], [0; 0], [0; 0]);
    ([0; 0], [0; W], [0; 0]);
    ([L; L], [0; W], [0; 0]);
    ([0; L], [W; W], [0; 0]);
    ([0; L], [0; 0], [H; H]);
    ([0; 0], [0; W], [H; H]);
    ([L; L], [0; W], [H; H]);
    ([0; L], [W; W], [H; H]);
    ([0; 0], [0; 0], [0; H]);
    ([L; L], [0; 0], [0; H]);
    ([0; 0], [W; W], [0; H]);
    ([L; L], [W; W], [0; H]) ].

(** The trace added for one edge. *)
Definition edge_trace (e : list Z * list Z * list Z) : Trace :=
  let '(ex, ey, ez) := e in
  Line {| line_x := ex; line_y := ey; line_z := ez;
          mode := "lines";
          line_color := "black"; line_width := 3;
          line_showlegend := false;
          hoverinfo := "skip" |}.

(** The loop [for item in container.items] of [draw_container]. *)
Fixpoint item_traces (items : list Item.t) : result (list Trace) :=
  match items with
  | [] => Ok []
  | item :: rest =>
      match Item.position item with
      | None => Raise TypeError
      | Some (x, y, z) =>
          rest' ← item_traces rest;
          Ok (Mesh (draw_box x y z (Item.length item) (Item.width item)
                      (Item.height item) (Item.color item) (Item.name item)
                      true) :: rest')
      end
  end.

(** [draw_container]: the traces of the figure, in the order they are
    added. *)
Definition draw_container (container : Container.t) : result (list Trace) :=
  let box :=
    Mesh (draw_box 0 0 0 (Container.length container)
            (Container.width container) (Container.height container)
            "rgba(200, 200, 200, 0.2)" "Container" false) in
  let edges := edge_trace <$> edges_lines container in
  items ← item_traces (Container.items container);
  Ok (box :: edges ++ items).

End Plot.

(** ** The application script

    The Streamlit widgets are outside the model; what is kept is how the
    script builds items and what it computes when the run button is
    pressed. *)

(** [Item(name,length,width,height,weight,qty,color=color)], the call of
    the form "Add Item" and, with literal arguments, of the dummy data. *)
Definition form_item (name : string) (length width height weight qty : Z)
    (color : string) : Item.t :=
  Item.init name length width height weight qty None false true true
    "box" color.

(** The list loaded by the dummy-data button. *)
Definition dummy_data : list Item.t :=
  [ form_item "Box Small" 50 40 30 10 5 "#FF6B6B";
    form_item "Box Medium" 80 60 50 25 3 "#4ECDC4";
    form_item "Sack" 100 45 30 45 2 "#95E1D3";
    form_item "Big Crate" 120 100 90 80 1 "#FFA07A" ].

(** The run button: a fresh packer packs the item list, the number of
    placed units and the running weight are reported and the container is
    drawn. *)
Definition run_packing (L W H MW : Z) (item_list : list Item.t)
    : result (nat * Z * list Plot.Trace) :=
  let packer := BinPacker.init L W H MW in
  container ← BinPacker.pack packer item_list;
  traces ← Plot.draw_container container;
  Ok (length (Container.items container),
      Container.current_weight container, traces).

(** ** Vocabulary of the specification *)

(** The closed set of orientation codes. *)
Definition orientation_codes : list string :=
  ["lwh"; "lhw"; "wlh"; "whl"; "hlw"; "hwl"]%string.

(** The disjointness test of two boxes, at [(x,y,z)] with dimensions
    [(a1,a2,a3)] and at [(px,py,pz)] with dimensions [(b1,b2,b3)]. *)
Definition boxes_disjoint (x y z a1 a2 a3 px py pz b1 b2 b3 : Z) : Prop :=
  x + a1 ≤ px ∨ x >= px + b1 ∨
  y + a2 ≤ py ∨ y >= py + b2 ∨
  z + a3 ≤ pz ∨ z >= pz + b3.

(** The intervals [lo1, lo1+len1) and [lo2, lo2+len2) of one axis overlap. *)
Definition axis_overlap (lo1 len1 lo2 len2 : Z) : Prop :=
  lo1 < lo2 + len2 ∧ lo2 < lo1 + len1.

(** [item], tried at [(x,y,z)] with its active dimensions, is disjoint from
    the placed unit [other]. *)
Definition disjoint_from (item : Item.t) (x y z : Z) (other : Item.t) : Prop :=
  ∃ px py pz,
    Item.position other = Some (px, py, pz) ∧
    boxes_disjoint x y z (Item.length item) (Item.width item) (Item.height item)
      px py pz (Item.length other) (Item.width other) (Item.height other).

(** Two placed units have disjoint bounding boxes. *)
Definition units_disjoint (a b : Item.t) : Prop :=
  ∃ x y z, Item.position a = Some (x, y, z) ∧ disjoint_from a x y z b.

(** Two placed units overlap on all three axes. *)
Definition units_overlap (a b : Item.t) : Prop :=
  ∃ x y z px py pz,
    Item.position a = Some (x, y, z) ∧ Item.position b = Some (px, py, pz) ∧
    axis_overlap x (Item.length a) px (Item.length b) ∧
    axis_overlap y (Item.width a) py (Item.width b) ∧
    axis_overlap z (Item.height a) pz (Item.height b).

(** The point [p] lies in the box of the placed unit: on each axis, in the
    interval from the position (included) to the position plus the active
    dimension (excluded). *)
Definition in_box (it : Item.t) (p : Pos) : Prop :=
  ∃ x y z,
    Item.position it = Some (x, y, z) ∧
    x ≤ p.1.1 < x + Item.length it ∧
    y ≤ p.1.2 < y + Item.width it ∧
    z ≤ p.2 < z + Item.height it.

(** Every pair of distinct entries of the placed sequence is disjoint. *)
Definition pairwise_disjoint (l : list Item.t) : Prop :=
  ∀ (i j : nat) a b, i ≠ j → l !! i = Some a → l !! j = Some b →
    units_disjoint a b.

(** The placed unit lies inside the container. *)
Definition within_container (c : Container.t) (it : Item.t) : Prop :=
  ∃ x y z,
    Item.position it = Some (x, y, z) ∧
    x + Item.length it ≤ Container.length c ∧
    y + Item.width it ≤ Container.width c ∧
    z + Item.height it ≤ Container.height c.

Definition position_nonneg (it : Item.t) : Prop :=
  ∃ x y z, Item.position it = Some (x, y, z) ∧ 0 ≤ x ∧ 0 ≤ y ∧ 0 ≤ z.

(** Sum of the weights of a sequence of units. *)
Definition total_weight (l : list Item.t) : Z :=
  foldr (λ it s, Item.weight it + s) 0 l.

(** Every entry of the placed sequence has a position. *)
Definition positioned (c : Container.t) : Prop :=
  Forall (λ it, is_Some (Item.position it)) (Container.items c).

(** The invariant of the container state. *)
Definition container_inv (c : Container.t) : Prop :=
  positioned c ∧
  Forall (within_container c) (Container.items c) ∧
  pairwise_disjoint (Container.items c) ∧
  Container.current_weight c = total_weight (Container.items c).

(** The placed units have non-negative positions and active dimensions. *)
Definition placed_nonneg (c : Container.t) : Prop :=
  Forall (λ it, position_nonneg it ∧ 0 ≤ Item.length it ∧
                0 ≤ Item.width it ∧ 0 ≤ Item.height it)
    (Container.items c).

(** The three extreme corners of a placed unit. *)
Definition corner_of (it : Item.t) (p : Pos) : Prop :=
  ∃ x y z,
    Item.position it = Some (x, y, z) ∧
    (p = (x + Item.length it, y, z) ∨
     p = (x, y + Item.width it, z) ∨
     p = (x, y, z + Item.height it)).

(** Strict order of the sort key of the candidate positions:
    [x] ascending, then [z], then [y]. *)
Definition position_lt (p q : Pos) : Prop :=
  let '(x1, y1, z1) := p in
  let '(x2, y2, z2) := q in
  x1 < x2 ∨ (x1 = x2 ∧ (z1 < z2 ∨ (z1 = z2 ∧ y1 < y2))).

(** The order a sort with key [key] establishes between elements. *)
Definition le_key {A K : Type} (key : A → K) (le : K → K → bool)
    (a b : A) : Prop :=
  le (key a) (key b) = true.

(** [w] and [y] have equivalent keys: a stable sort keeps their order. *)
Definition same_key {A K : Type} (key : A → K) (le : K → K → bool)
    (w y : A) : Prop :=
  le (key w) (key y) = true ∧ le (key y) (key w) = true.

#[global] Instance same_key_dec {A K : Type} (key : A → K)
    (le : K → K → bool) (w y : A) : Decision (same_key key le w y).
Proof. unfold same_key. apply _. Defined.

(** Order of the units: heavier first, then larger volume first. *)
Definition unit_before (a b : Item.t) : Prop :=
  Item.weight a > Item.weight b ∨
  (Item.weight a = Item.weight b ∧ Item.get_volume a >= Item.get_volume b).

(** All nominal dimensions of an item are non-negative. *)
Definition dims_nonneg (it : Item.t) : Prop :=
  let '(l, w, h) := Item.original_dims it in 0 ≤ l ∧ 0 ≤ w ∧ 0 ≤ h.

(** *** First fit, as the specification words it

    The candidate pairs are scanned position by position and, at each
    position, orientation by orientation; the first pair on which the
    validity check answers [True] is chosen. *)

Definition candidate_pairs (ps : list Pos) (os : list string)
    : list (Pos * string) :=
  p ← ps; o ← os; [(p, o)].

(** Apply the orientation, then ask [is_valid]. *)
Definition validates (c : Container.t) (item : Item.t) (q : Pos * string)
    : result bool :=
  let '((x, y, z), o) := q in
  item1 ← Item.set_orientation item o;
  Container.is_valid c item1 x y z.

Fixpoint first_fit (c : Container.t) (item : Item.t)
    (pairs : list (Pos * string)) : result (option (Pos * string)) :=
  match pairs with
  | [] => Ok None
  | q :: rest =>
      v ← validates c item q;
      if v : bool then Ok (Some q) else first_fit c item rest
  end.

(** The state of the unit object when the scan of [pairs] ends without a
    success: the orientation of the last scanned pair is the active one;
    [current] is the state the scan started from. *)
Definition last_tried (item current : Item.t) (pairs : list (Pos * string))
    : result Item.t :=
  match last pairs with
  | None => Ok current
  | Some (_, o) => Item.set_orientation item o
  end.

(** The outcome of the scan of [pairs]: commit at the first pair that
    validates, or leave the container as it is. *)
Definition search_from (c : Container.t) (item current : Item.t)
    (pairs : list (Pos * string)) : result (Container.t * Item.t * bool) :=
  r ← first_fit c item pairs;
  match r with
  | Some ((x, y, z), o) =>
      item1 ← Item.set_orientation item o;
      let '(c', item2) := Container.add_item c item1 x y z in
      Ok (c', item2, true)
  | None =>
      item' ← last_tried item current pairs;
      Ok (c, item', false)
  end.

(** The search for one unit over the candidate positions [ps]. *)
Definition first_fit_place (c : Container.t) (item : Item.t) (ps : list Pos)
    : result (Container.t * Item.t * bool) :=
  search_from c item item
    (candidate_pairs ps (Item.orientation_preference item)).

(** [b] is a later state of the unit object [a]: orientations apply to it
    as they do to [a]. *)
Definition same_unit (a b : Item.t) : Prop :=
  (∀ o, Item.set_orientation b o = Item.set_orientation a o) ∧
  Item.orientation_preference b = Item.orientation_preference a.

(** ** Vocabulary of the further properties *)

(** [b] is the unit [a] up to orientation and position: everything the
    engine never writes is the same. *)
Definition same_nominal (a b : Item.t) : Prop :=
  Item.name b = Item.name a ∧
  Item.item_type b = Item.item_type a ∧
  Item.original_dims b = Item.original_dims a ∧
  Item.weight b = Item.weight a ∧
  Item.quantity b = Item.quantity a ∧
  Item.orientation_preference b = Item.orientation_preference a ∧
  Item.fragile b = Item.fragile a ∧
  Item.can_stack b = Item.can_stack a ∧
  Item.can_stack_same_type b = Item.can_stack_same_type a ∧
  Item.color b = Item.color a.

(** The placed unit [it] is the unit [u] with the code [o] of its
    preference list applied and the position [p] set. *)
Definition placed_from (u : Item.t) (o : string) (p : Pos) (it : Item.t)
    : Prop :=
  o ∈ Item.orientation_preference u ∧
  ∃ u1, Item.set_orientation u o = Ok u1 ∧ it = Item.set_position u1 p.

(** The unit has a position. *)
Definition is_placed (u : Item.t) : Prop := is_Some (Item.position u).

#[global] Instance is_placed_dec (u : Item.t) : Decision (is_placed u).
Proof. unfold is_placed. apply _. Defined.

(** The unit, with its active dimensions, fits the container at the
    origin and respects the weight limit. *)
Definition fits_empty (c : Container.t) (u : Item.t) : Prop :=
  Item.length u ≤ Container.length c ∧
  Item.width u ≤ Container.width c ∧
  Item.height u ≤ Container.height c ∧
  Container.current_weight c + Item.weight u ≤ Container.max_weight c.

(** The unit cells (integer points) of the box at [(x,y,z)] with
    dimensions [(l,w,h)]. *)
Definition cells (x y z l w h : Z) : list Pos :=
  a ← seqZ x l; b ← seqZ y w; c ← seqZ z h; [(a, b, c)].

(** The cells of a placed unit (none when it has no position). *)
Definition unit_cells (it : Item.t) : list Pos :=
  match Item.position it with
  | Some (x, y, z) =>
      cells x y z (Item.length it) (Item.width it) (Item.height it)
  | None => []
  end.

(** Sum of the volumes of a sequence of units. *)
Definition total_volume (l : list Item.t) : Z :=
  foldr (λ it s, Item.get_volume it + s) 0 l.

(** Vertex [n] of a mesh. *)
Definition vertex (m : Plot.Mesh3d) (n : nat) : option Pos :=
  match Plot.x m !! n, Plot.y m !! n, Plot.z m !! n with
  | Some a, Some b, Some c => Some (a, b, c)
  | _, _, _ => None
  end.

(** Triangle [n] of a mesh, as vertex indices. *)
Definition triangle (m : Plot.Mesh3d) (n : nat) : option (nat * nat * nat) :=
  match Plot.i m !! n, Plot.j m !! n, Plot.k m !! n with
  | Some a, Some b, Some c => Some (a, b, c)
  | _, _, _ => None
  end.

(** The eight corners of the box at [(x,y,z)] with dimensions [(l,w,h)]. *)
Definition box_corners (x y z l w h : Z) : list Pos :=
  a ← [x; x + l]; b ← [y; y + w]; c ← [z; z + h]; [(a, b, c)].

(** The two end points of an entry of [edges_lines]. *)
Definition segment_of (e : list Z * list Z * list Z) : option (Pos * Pos) :=
  match e with
  | ([x1; x2], [y1; y2], [z1; z2]) => Some ((x1, y1, z1), (x2, y2, z2))
  | _ => None
  end.

(** [p] and [q] differ on exactly one axis. *)
Definition differ_on_one_axis (p q : Pos) : Prop :=
  (p.1.1 ≠ q.1.1 ∧ p.1.2 = q.1.2 ∧ p.2 = q.2) ∨
  (p.1.1 = q.1.1 ∧ p.1.2 ≠ q.1.2 ∧ p.2 = q.2) ∨
  (p.1.1 = q.1.1 ∧ p.1.2 = q.1.2 ∧ p.2 ≠ q.2).

(** The point lies in the closed box [0,L] x [0,W] x [0,H] of the
    container. *)
Definition in_container_box (c : Container.t) (p : Pos) : Prop :=
  0 ≤ p.1.1 ≤ Container.length c ∧
  0 ≤ p.1.2 ≤ Container.width c ∧
  0 ≤ p.2 ≤ Container.height c.

(** The trace of the placement loop over [units]: [units'] are the final
    states of the unit objects and [new] the units appended to the placed
    sequence, in order.  An unplaced unit keeps its position; a placed one
    is the unit with one of its codes applied and a position set. *)
Inductive placement : list Item.t → list Item.t → list Item.t → Prop :=
  | placement_nil : placement [] [] []
  | placement_unplaced u u' us us' new :
      same_nominal u u' →
      Item.position u' = Item.position u →
      placement us us' new →
      placement (u :: us) (u' :: us') new
  | placement_placed u u' o p us us' new :
      placed_from u o p u' →
      placement us us' new →
      placement (u :: us) (u' :: us') (u' :: new).

(** Successive calls [u.set_orientation(o)] for the codes of [os]. *)
Fixpoint apply_orientations (u : Item.t) (os : list string) : result Item.t :=
  match os with
  | [] => Ok u
  | o :: os' => u1 ← Item.set_orientation u o; apply_orientations u1 os'
  end.

(** The character of the separator ["_"] of the unit names. *)
Definition underscore : Ascii.ascii :=
  Ascii.Ascii true true true true true false true false.

(** The character [c] occurs in the string [s]. *)
Fixpoint occurs (c : Ascii.ascii) (s : string) : bool :=
  match s with
  | EmptyString => false
  | String a s' => if decide (a = c) then true else occurs c s'
  end.

(** ** Test data: the scenarios of the specification and malformed inputs *)

Definition box (name : string) (l w h weight quantity : Z) : Item.t :=
  Item.init name l w h weight quantity None false true true "box" "#FF6B6B".

(** A box with an explicit orientation-preference list. *)
Definition box_with (name : string) (l w h weight quantity : Z)
    (orientations : list string) : Item.t :=
  Item.init name l w h weight quantity (Some orientations)
    false true true "box" "#FF6B6B".

(** Name, position and orientation code of the placed units, and the
    running weight. *)
Definition placements (r : result Container.t)
    : result (list (string * option Pos * option string) * Z) :=
  c ← r;
  Ok ((λ it, (Item.name it, Item.position it, Item.rotation it))
        <$> Container.items c,
      Container.current_weight c).

(** A 100 x 100 x 100 container holding one 60 x 60 x 60 box at the origin. *)
Definition one_box_container : Container.t :=
  (Container.add_item (Container.init 100 100 100 1000)
     (box "a" 60 60 60 10 1) 0 0 0).1.

(** * Properties *)

Example scenario_A :
  placements (BinPacker.pack (BinPacker.init 100 100 100 1000)
                [box "a" 50 50 50 10 1])
  = Ok ([("a_1"%string, Some (0, 0, 0), Some "lwh"%string)], 10).
Proof. vm_compute. reflexivity. Qed.

Example scenario_B :
  placements (BinPacker.pack (BinPacker.init 100 100 100 1000)
                [box "a" 60 60 60 10 1; box "b" 60 60 60 10 1])
  = Ok ([("a_1"%string, Some (0, 0, 0), Some "lwh"%string)], 10).
Proof. vm_compute. reflexivity. Qed.

Example scenario_C :
  placements (BinPacker.pack (BinPacker.init 50 50 50 5)
                [box "a" 10 10 10 10 1])
  = Ok ([], 0).
Proof. vm_compute. reflexivity. Qed.

Example scenario_D :
  placements (BinPacker.pack (BinPacker.init 100 50 50 1000)
                [box "a" 50 50 50 10 3])
  = Ok ([("a_1"%string, Some (0, 0, 0), Some "lwh"%string);
         ("a_2"%string, Some (50, 0, 0), Some "lwh"%string)], 20).
Proof. vm_compute. reflexivity. Qed.
(** ** The error monad *)

Lemma bind_Ok {A B} (f : A → result B) (a : A) : Ok a ≫= f = f a.
Proof. reflexivity. Qed.

(** ** Orientations *)

Lemma orientation_table_lookup (l w h : Z) (o : string) (d : Z * Z * Z) :
  Item.orientation_table l w h !! o = Some d ↔
    (o = "lwh"%string ∧ d = (l, w, h)) ∨
    (o = "lhw"%string ∧ d = (l, h, w)) ∨
    (o = "wlh"%string ∧ d = (w, l, h)) ∨
    (o = "whl"%string ∧ d = (w, h, l)) ∨
    (o = "hlw"%string ∧ d = (h, l, w)) ∨
    (o = "hwl"%string ∧ d = (h, w, l)).
Proof.
  unfold Item.orientation_table. cbn [list_to_map foldr uncurry fst snd].
  rewrite !lookup_insert_Some, lookup_empty.
  split.
  - intros H.
    repeat (destruct H as [[<- <-]|[_ H]]; [auto 10|]). discriminate.
  - intros H.
    repeat (destruct H as [[-> ->]|H];
            [repeat first [left; split; reflexivity | right; split; [discriminate|]]|]).
    destruct H as [-> ->].
    repeat first [left; split; reflexivity | right; split; [discriminate|]].
Qed.

Lemma elem_of_orientation_codes (o : string) :
  o ∈ orientation_codes ↔
    o = "lwh"%string ∨ o = "lhw"%string ∨ o = "wlh"%string ∨
    o = "whl"%string ∨ o = "hlw"%string ∨ o = "hwl"%string.
Proof.
  unfold orientation_codes. rewrite !elem_of_cons, elem_of_nil. tauto.
Qed.

Lemma get_dimensions_Ok (self : Item.t) (o : string) (d : Z * Z * Z) :
  Item.get_dimensions self o = Ok d ↔
    Item.orientation_table (Item.original_dims self).1.1
      (Item.original_dims self).1.2 (Item.original_dims self).2 !! o = Some d.
Proof.
  unfold Item.get_dimensions.
  destruct (Item.original_dims self) as [[l w] h]; simpl.
  destruct (Item.orientation_table l w h !! o); split; congruence.
Qed.

Lemma get_dimensions_valid (self : Item.t) (o : string) :
  o ∈ orientation_codes → ∃ d, Item.get_dimensions self o = Ok d.
Proof.
  rewrite elem_of_orientation_codes. intros Ho.
  destruct (Item.original_dims self) as [[l w] h] eqn:Hd.
  assert (∃ d, Item.orientation_table l w h !! o = Some d) as [d Hl].
  { setoid_rewrite orientation_table_lookup.
    destruct Ho as [->|[->|[->|[->|[->| ->]]]]]; eexists; eauto 10. }
  exists d. apply get_dimensions_Ok. rewrite Hd. exact Hl.
Qed.

Lemma get_dimensions_Raise (self : Item.t) (o : string) (e : exn) :
  Item.get_dimensions self o = Raise e ↔ e = KeyError o ∧ o ∉ orientation_codes.
Proof.
  split.
  - intros H. split.
    + unfold Item.get_dimensions in H.
      destruct (Item.original_dims self) as [[l w] h].
      destruct (_ !! o); congruence.
    + intros [d Hd]%(get_dimensions_valid self). congruence.
  - intros [-> Ho].
    unfold Item.get_dimensions.
    destruct (Item.original_dims self) as [[l w] h].
    destruct (Item.orientation_table l w h !! o) as [d|] eqn:Hl; [|reflexivity].
    exfalso. apply Ho, elem_of_orientation_codes.
    apply orientation_table_lookup in Hl. tauto.
Qed.

Lemma get_dimensions_codes (self : Item.t) (o : string) (d : Z * Z * Z) :
  Item.get_dimensions self o = Ok d → o ∈ orientation_codes.
Proof.
  intros H%get_dimensions_Ok%orientation_table_lookup.
  apply elem_of_orientation_codes. tauto.
Qed.

(** [set_orientation] only changes the active dimensions and the code. *)
Lemma set_orientation_Ok (self self' : Item.t) (o : string) :
  Item.set_orientation self o = Ok self' ↔
    ∃ d1 d2 d3,
      Item.get_dimensions self o = Ok (d1, d2, d3) ∧
      self' = Item.mk (Item.name self) (Item.item_type self)
                (Item.original_dims self) d1 d2 d3 (Item.weight self)
                (Item.quantity self) (Item.orientation_preference self)
                (Item.fragile self) (Item.can_stack self)
                (Item.can_stack_same_type self) (Item.position self)
                (Some o) (Item.color self).
Proof.
  unfold Item.set_orientation.
  destruct (Item.get_dimensions self o) as [[[d1 d2] d3]|e]; simpl.
  - split.
    + intros [= <-]. eauto.
    + intros (? & ? & ? & [= <- <- <-] & ->). reflexivity.
  - split; [discriminate|]. intros (? & ? & ? & ? & _). discriminate.
Qed.

Lemma set_orientation_Raise (self : Item.t) (o : string) (e : exn) :
  Item.set_orientation self o = Raise e ↔ e = KeyError o ∧ o ∉ orientation_codes.
Proof.
  rewrite <- (get_dimensions_Raise self). unfold Item.set_orientation.
  destruct (Item.get_dimensions self o) as [[[d1 d2] d3]|e'].
  - simpl. split; discriminate.
  - simpl. split; intros [= ->]; reflexivity.
Qed.

Lemma set_orientation_valid (self : Item.t) (o : string) :
  o ∈ orientation_codes → ∃ self', Item.set_orientation self o = Ok self'.
Proof.
  intros [[[d1 d2] d3] Hd]%(get_dimensions_valid self).
  eexists. apply set_orientation_Ok. eauto.
Qed.

(** A second orientation overrides the first one. *)
Lemma set_orientation_twice (self self1 : Item.t) (o o' : string) :
  Item.set_orientation self o = Ok self1 →
  Item.set_orientation self1 o' = Item.set_orientation self o'.
Proof.
  intros (d1 & d2 & d3 & _ & ->)%set_orientation_Ok. reflexivity.
Qed.

Lemma set_orientation_frame (self self' : Item.t) (o : string) :
  Item.set_orientation self o = Ok self' →
  Item.original_dims self' = Item.original_dims self ∧
  Item.orientation_preference self' = Item.orientation_preference self ∧
  Item.weight self' = Item.weight self ∧
  Item.position self' = Item.position self ∧
  Item.name self' = Item.name self ∧
  Item.rotation self' = Some o.
Proof.
  intros (d1 & d2 & d3 & _ & ->)%set_orientation_Ok. simpl. tauto.
Qed.

(** The active dimensions are the looked-up triple. *)
Lemma set_orientation_dims (self self' : Item.t) (o : string) :
  Item.set_orientation self o = Ok self' →
  Item.get_dimensions self o =
    Ok (Item.length self', Item.width self', Item.height self').
Proof.
  intros (d1 & d2 & d3 & Hd & ->)%set_orientation_Ok. exact Hd.
Qed.

Lemma get_dimensions_perm (self : Item.t) (o : string) (d1 d2 d3 : Z) :
  Item.get_dimensions self o = Ok (d1, d2, d3) →
  [d1; d2; d3] ≡ₚ [(Item.original_dims self).1.1;
                    (Item.original_dims self).1.2;
                    (Item.original_dims self).2].
Proof.
  intros H%get_dimensions_Ok%orientation_table_lookup.
  destruct (Item.original_dims self) as [[l w] h]; simpl in *.
  destruct H as [[_ [= -> -> ->]]|[[_ [= -> -> ->]]|[[_ [= -> -> ->]]|
                [[_ [= -> -> ->]]|[[_ [= -> -> ->]]|[_ [= -> -> ->]]]]]]].
  - reflexivity.
  - apply perm_skip, perm_swap.
  - apply perm_swap.
  - etrans; [apply perm_skip, perm_swap | apply perm_swap].
  - etrans; [apply perm_swap | apply perm_skip, perm_swap].
  - etrans; [apply perm_swap |].
    etrans; [apply perm_skip, perm_swap | apply perm_swap].
Qed.

Lemma perm3_cases (d1 d2 d3 l w h : Z) :
  [d1; d2; d3] ≡ₚ [l; w; h] →
  (d1, d2, d3) = (l, w, h) ∨ (d1, d2, d3) = (l, h, w) ∨
  (d1, d2, d3) = (w, l, h) ∨ (d1, d2, d3) = (w, h, l) ∨
  (d1, d2, d3) = (h, l, w) ∨ (d1, d2, d3) = (h, w, l).
Proof.
  intros Hp.
  assert (d1 ∈ [l; w; h]) as Hin by (rewrite <- Hp; left).
  rewrite !elem_of_cons, elem_of_nil in Hin.
  destruct Hin as [->|[->|[->|[]]]].
  - apply Permutation_cons_inv, Permutation_length_2_inv in Hp.
    destruct Hp as [[= -> ->]|[= -> ->]]; auto.
  - rewrite (perm_swap w l) in Hp.
    apply Permutation_cons_inv, Permutation_length_2_inv in Hp.
    destruct Hp as [[= -> ->]|[= -> ->]]; auto.
  - assert ([l; w; h] ≡ₚ [h; l; w]) as Hr.
    { etrans; [apply perm_skip, perm_swap | apply perm_swap]. }
    rewrite Hr in Hp.
    apply Permutation_cons_inv, Permutation_length_2_inv in Hp.
    destruct Hp as [[= -> ->]|[= -> ->]]; auto 10.
Qed.

Lemma get_volume_set_orientation (self self' : Item.t) (o : string) :
  Item.set_orientation self o = Ok self' →
  Item.get_volume self' = Item.get_volume self.
Proof.
  intros (Hd & _)%set_orientation_frame.
  unfold Item.get_volume. rewrite Hd. reflexivity.
Qed.

(** C8.  [get_dimensions] sends the six orientation codes, and no other
    string, to the six permutations of the nominal triple [(l, w, h)]:
    the table is the listed one, every result is a permutation of the
    nominal triple, every permutation is the image of a code, and the six
    images are pairwise different when [l], [w], [h] are (equal nominal
    values make images coincide).  [get_volume] is the product of the
    nominal dimensions, and applying an orientation does not change it. *)
Theorem orientation_codes_permute_nominal_dims (self : Item.t) :
  let '(l, w, h) := Item.original_dims self in
  (Item.get_dimensions self "lwh" = Ok (l, w, h) ∧
   Item.get_dimensions self "lhw" = Ok (l, h, w) ∧
   Item.get_dimensions self "wlh" = Ok (w, l, h) ∧
   Item.get_dimensions self "whl" = Ok (w, h, l) ∧
   Item.get_dimensions self "hlw" = Ok (h, l, w) ∧
   Item.get_dimensions self "hwl" = Ok (h, w, l)) ∧
  NoDup orientation_codes ∧
  (∀ o, o ∈ orientation_codes ↔ ∃ d, Item.get_dimensions self o = Ok d) ∧
  (∀ o d1 d2 d3, Item.get_dimensions self o = Ok (d1, d2, d3) →
     [d1; d2; d3] ≡ₚ [l; w; h]) ∧
  (∀ d1 d2 d3, [d1; d2; d3] ≡ₚ [l; w; h] →
     ∃ o, o ∈ orientation_codes ∧
          Item.get_dimensions self o = Ok (d1, d2, d3)) ∧
  (l ≠ w → l ≠ h → w ≠ h →
     ∀ o1 o2 d, Item.get_dimensions self o1 = Ok d →
                Item.get_dimensions self o2 = Ok d → o1 = o2) ∧
  Item.get_volume self = l * w * h ∧
  (∀ o self', Item.set_orientation self o = Ok self' →
     Item.get_volume self' = Item.get_volume self).
Proof.
  destruct (Item.original_dims self) as [[l w] h] eqn:Hd.
  assert (∀ o d, Item.get_dimensions self o = Ok d ↔
                 Item.orientation_table l w h !! o = Some d) as Hget.
  { intros o d. rewrite get_dimensions_Ok, Hd. reflexivity. }
  split; [|split; [|split; [|split; [|split; [|split; [|split]]]]]].
  - rewrite !Hget, !orientation_table_lookup. repeat split; auto 10.
  - unfold orientation_codes. compute_done.
  - intros o. split; [apply get_dimensions_valid|].
    intros [d H]. exact (get_dimensions_codes _ _ _ H).
  - intros o d1 d2 d3 H%get_dimensions_perm. rewrite Hd in H. exact H.
  - intros d1 d2 d3 Hp%perm3_cases. setoid_rewrite Hget.
    setoid_rewrite orientation_table_lookup.
    setoid_rewrite elem_of_orientation_codes.
    destruct Hp as [->|[->|[->|[->|[->| ->]]]]];
      [exists "lwh"%string | exists "lhw"%string | exists "wlh"%string
      | exists "whl"%string | exists "hlw"%string | exists "hwl"%string];
      split; auto 10.
  - intros Hlw Hlh Hwh o1 o2 d H1 H2.
    apply Hget, orientation_table_lookup in H1.
    apply Hget, orientation_table_lookup in H2.
    destruct H1 as [[-> ->]|[[-> ->]|[[-> ->]|[[-> ->]|[[-> ->]|[-> ->]]]]]];
    destruct H2 as [[-> ?]|[[-> ?]|[[-> ?]|[[-> ?]|[[-> ?]|[-> ?]]]]]];
      first [reflexivity | exfalso; congruence].
  - unfold Item.get_volume. rewrite Hd. reflexivity.
  - intros o self'. apply get_volume_set_orientation.
Qed.

(** ** The validity oracle *)

Lemma overlap_test_false (x y z a1 a2 a3 px py pz b1 b2 b3 : Z) :
  negb ((x + a1 <=? px) || (x >=? px + b1) ||
        (y + a2 <=? py) || (y >=? py + b2) ||
        (z + a3 <=? pz) || (z >=? pz + b3)) = false ↔
  boxes_disjoint x y z a1 a2 a3 px py pz b1 b2 b3.
Proof.
  unfold boxes_disjoint.
  rewrite negb_false_iff, !orb_true_iff, !Z.leb_le, !Z.geb_le. lia.
Qed.

(** Disjointness is the negation of an overlap on all three axes. *)
Lemma boxes_disjoint_axes (x y z a1 a2 a3 px py pz b1 b2 b3 : Z) :
  boxes_disjoint x y z a1 a2 a3 px py pz b1 b2 b3 ↔
  ¬ (axis_overlap x a1 px b1 ∧ axis_overlap y a2 py b2 ∧
     axis_overlap z a3 pz b3).
Proof. unfold boxes_disjoint, axis_overlap. lia. Qed.

Lemma boxes_disjoint_sym (x y z a1 a2 a3 px py pz b1 b2 b3 : Z) :
  boxes_disjoint x y z a1 a2 a3 px py pz b1 b2 b3 →
  boxes_disjoint px py pz b1 b2 b3 x y z a1 a2 a3.
Proof. unfold boxes_disjoint. lia. Qed.

Lemma check_overlap_false (c : Container.t) (item : Item.t) (x y z : Z)
    (other : Item.t) :
  Container.check_overlap c item x y z other = Ok false ↔
  disjoint_from item x y z other.
Proof.
  unfold Container.check_overlap, disjoint_from.
  destruct (Item.position other) as [[[px py] pz]|].
  - split.
    + intros [= H%overlap_test_false]. eauto 10.
    + intros (? & ? & ? & [= <- <- <-] & H%overlap_test_false).
      rewrite H. reflexivity.
  - split; [discriminate|]. intros (? & ? & ? & ? & _). discriminate.
Qed.

Lemma check_overlap_true (c : Container.t) (item : Item.t) (x y z : Z)
    (other : Item.t) :
  Container.check_overlap c item x y z other = Ok true ↔
  is_Some (Item.position other) ∧ ¬ disjoint_from item x y z other.
Proof.
  rewrite <- (check_overlap_false c). unfold Container.check_overlap.
  destruct (Item.position other) as [[[px py] pz]|].
  - split.
    + intros [= ->]. split; [eauto | discriminate].
    + intros [_ H]. destruct (negb _); [reflexivity | congruence].
  - split; [discriminate|]. intros [[? [=]] _].
Qed.

Lemma check_overlap_Raise (c : Container.t) (item : Item.t) (x y z : Z)
    (other : Item.t) (e : exn) :
  Container.check_overlap c item x y z other = Raise e ↔
  e = TypeError ∧ Item.position other = None.
Proof.
  unfold Container.check_overlap.
  destruct (Item.position other) as [[[px py] pz]|]; split;
    try discriminate.
  - intros [_ [=]].
  - intros [= <-]. auto.
  - intros [-> _]. reflexivity.
Qed.

Lemma no_overlap_true (c : Container.t) (item : Item.t) (x y z : Z)
    (others : list Item.t) :
  Container.no_overlap c item x y z others = Ok true ↔
  Forall (disjoint_from item x y z) others.
Proof.
  induction others as [|other rest IH]; simpl.
  - split; [constructor | reflexivity].
  - rewrite Forall_cons, <- IH, <- (check_overlap_false c).
    destruct (Container.check_overlap c item x y z other) as [[]|e]; simpl;
      split; try tauto; try discriminate.
    + intros [[=] _].
    + intros [[=] _].
Qed.

(** The loop stops at the first overlapping unit: what follows it in the
    sequence is not examined. *)
Lemma no_overlap_false (c : Container.t) (item : Item.t) (x y z : Z)
    (others : list Item.t) :
  Container.no_overlap c item x y z others = Ok false ↔
  ∃ pre other suf,
    others = pre ++ other :: suf ∧
    Forall (disjoint_from item x y z) pre ∧
    is_Some (Item.position other) ∧ ¬ disjoint_from item x y z other.
Proof.
  induction others as [|other rest IH]; simpl.
  - split; [discriminate|].
    intros (pre & ? & ? & H & _). destruct pre; discriminate.
  - destruct (Container.check_overlap c item x y z other) as [[]|e] eqn:Hc;
      simpl.
    + apply check_overlap_true in Hc. split; [intros _|reflexivity].
      exists [], other, rest. split; [reflexivity|]. split; [constructor|].
      exact Hc.
    + apply check_overlap_false in Hc. rewrite IH. split.
      * intros (pre & o & suf & -> & Hpre & Ho).
        exists (other :: pre), o, suf. split; [reflexivity|].
        split; [constructor; assumption | exact Ho].
      * intros (pre & o & suf & Heq & Hpre & Ho).
        destruct pre as [|p pre]; simpl in Heq.
        -- injection Heq as <- <-. tauto.
        -- injection Heq as <- ->. apply Forall_cons in Hpre.
           exists pre, o, suf. tauto.
    + apply check_overlap_Raise in Hc as [-> Hc].
      split; [discriminate|].
      intros (pre & o & suf & Heq & Hpre & Ho).
      destruct pre as [|p pre]; simpl in Heq.
      * injection Heq as <- <-. destruct Ho as [[? Ho] _]. congruence.
      * injection Heq as <- ->. apply Forall_cons in Hpre as [Hp _].
        destruct Hp as (? & ? & ? & Hp & _). congruence.
Qed.

Lemma no_overlap_Raise (c : Container.t) (item : Item.t) (x y z : Z)
    (others : list Item.t) (e : exn) :
  Container.no_overlap c item x y z others = Raise e ↔
  e = TypeError ∧
  ∃ pre other suf,
    others = pre ++ other :: suf ∧
    Forall (disjoint_from item x y z) pre ∧
    Item.position other = None.
Proof.
  induction others as [|other rest IH]; simpl.
  - split; [discriminate|].
    intros (_ & pre & ? & ? & H & _). destruct pre; discriminate.
  - destruct (Container.check_overlap c item x y z other) as [[]|e'] eqn:Hc;
      simpl.
    + apply check_overlap_true in Hc as [[p Hp] Hc]. split; [discriminate|].
      intros (_ & pre & o & suf & Heq & Hpre & Ho).
      destruct pre as [|q pre]; simpl in Heq.
      * injection Heq as <- <-. congruence.
      * injection Heq as <- ->. apply Forall_cons in Hpre. tauto.
    + apply check_overlap_false in Hc. rewrite IH. split.
      * intros (-> & pre & o & suf & -> & Hpre & Ho). split; [reflexivity|].
        exists (other :: pre), o, suf. split; [reflexivity|].
        split; [constructor; assumption | exact Ho].
      * intros (-> & pre & o & suf & Heq & Hpre & Ho). split; [reflexivity|].
        destruct pre as [|p pre]; simpl in Heq.
        -- injection Heq as <- <-.
           destruct Hc as (? & ? & ? & Hc & _). congruence.
        -- injection Heq as <- ->. apply Forall_cons in Hpre.
           exists pre, o, suf. tauto.
    + apply check_overlap_Raise in Hc as [-> Hc]. split.
      * intros [= <-]. split; [reflexivity|].
        exists [], other, rest. split; [reflexivity|].
        split; [constructor | exact Hc].
      * intros [-> _]. reflexivity.
Qed.

(** Unfolding of [is_valid] along its sequence of checks. *)
Lemma is_valid_unfold (c : Container.t) (item : Item.t) (x y z : Z) :
  Container.is_valid c item x y z =
    if decide (x + Item.length item ≤ Container.length c ∧
               y + Item.width item ≤ Container.width c ∧
               z + Item.height item ≤ Container.height c ∧
               Container.current_weight c + Item.weight item
                 ≤ Container.max_weight c)
    then Container.no_overlap c item x y z (Container.items c)
    else Ok false.
Proof.
  unfold Container.is_valid.
  repeat match goal with
  | |- context [?a >? ?b] =>
      let H := fresh in destruct (Z.gtb_spec a b) as [H|H]
  end; case_decide; first [reflexivity | lia].
Qed.

Lemma is_valid_true (c : Container.t) (item : Item.t) (x y z : Z) :
  Container.is_valid c item x y z = Ok true ↔
    (x + Item.length item ≤ Container.length c ∧
     y + Item.width item ≤ Container.width c ∧
     z + Item.height item ≤ Container.height c) ∧
    Container.current_weight c + Item.weight item ≤ Container.max_weight c ∧
    Forall (disjoint_from item x y z) (Container.items c).
Proof.
  rewrite is_valid_unfold. case_decide as Hb.
  - rewrite no_overlap_true. tauto.
  - split; [discriminate | tauto].
Qed.

Lemma is_valid_Raise (c : Container.t) (item : Item.t) (x y z : Z) (e : exn) :
  Container.is_valid c item x y z = Raise e →
  e = TypeError ∧ ¬ positioned c.
Proof.
  rewrite is_valid_unfold. case_decide as Hb; [|discriminate].
  intros (-> & pre & o & suf & Heq & _ & Ho)%no_overlap_Raise.
  split; [reflexivity|]. unfold positioned. rewrite Heq.
  intros H. apply Forall_app in H as [_ H]. apply Forall_cons in H as [H _].
  rewrite Ho in H. destruct H. discriminate.
Qed.

Lemma is_valid_total (c : Container.t) (item : Item.t) (x y z : Z) :
  positioned c → ∃ b, Container.is_valid c item x y z = Ok b.
Proof.
  intros Hc. destruct (Container.is_valid c item x y z) as [b|e] eqn:H.
  - eauto.
  - apply is_valid_Raise in H. tauto.
Qed.

(** C4.  [is_valid] answers [True] exactly when (1) the unit, with its
    active dimensions, stays inside the container on the three axes,
    (2) the weight limit is respected and (3) the unit is disjoint from
    every placed unit, disjointness being the six-way test (equivalently:
    no overlap on all three axes).  The checks run in this order and stop
    at the first failure: a failed bound or weight check answers [False]
    without looking at the placed units, and the scan of the placed units
    answers [False] at the first overlapping one without looking at the
    rest.  On a container whose placed units all have a position the
    answer is always a boolean. *)
Theorem is_valid_iff_bounds_weight_disjoint
    (c : Container.t) (item : Item.t) (x y z : Z) :
  let bounds :=
    x + Item.length item ≤ Container.length c ∧
    y + Item.width item ≤ Container.width c ∧
    z + Item.height item ≤ Container.height c in
  let weight_ok :=
    Container.current_weight c + Item.weight item ≤ Container.max_weight c in
  (Container.is_valid c item x y z = Ok true ↔
     bounds ∧ weight_ok ∧
     ∀ other, other ∈ Container.items c → disjoint_from item x y z other) ∧
  (∀ other px py pz, Item.position other = Some (px, py, pz) →
     (disjoint_from item x y z other ↔
        x + Item.length item ≤ px ∨ x >= px + Item.length other ∨
        y + Item.width item ≤ py ∨ y >= py + Item.width other ∨
        z + Item.height item ≤ pz ∨ z >= pz + Item.height other) ∧
     (disjoint_from item x y z other ↔
        ¬ (axis_overlap x (Item.length item) px (Item.length other) ∧
           axis_overlap y (Item.width item) py (Item.width other) ∧
           axis_overlap z (Item.height item) pz (Item.height other))) ∧
     (Container.check_overlap c item x y z other = Ok true ↔
        ¬ disjoint_from item x y z other)) ∧
  (¬ bounds → Container.is_valid c item x y z = Ok false) ∧
  (bounds → ¬ weight_ok → Container.is_valid c item x y z = Ok false) ∧
  (bounds → weight_ok →
     Container.is_valid c item x y z
     = Container.no_overlap c item x y z (Container.items c)) ∧
  (∀ pre other suf, Container.items c = pre ++ other :: suf →
     Forall (disjoint_from item x y z) pre →
     is_Some (Item.position other) → ¬ disjoint_from item x y z other →
     Container.is_valid c item x y z = Ok false) ∧
  (positioned c → ∃ b, Container.is_valid c item x y z = Ok b).
Proof.
  intros bounds weight_ok.
  split; [|split; [|split; [|split; [|split; [|split]]]]].
  - rewrite is_valid_true, Forall_forall. subst bounds weight_ok. tauto.
  - intros other px py pz Hp.
    assert (disjoint_from item x y z other ↔
            boxes_disjoint x y z (Item.length item) (Item.width item)
              (Item.height item) px py pz (Item.length other)
              (Item.width other) (Item.height other)) as Hd.
    { unfold disjoint_from. rewrite Hp. split.
      - intros (? & ? & ? & [= <- <- <-] & H). exact H.
      - eauto 10. }
    split; [exact Hd|]. split.
    + rewrite Hd. apply boxes_disjoint_axes.
    + rewrite check_overlap_true, Hp. split; [tauto | eauto].
  - intros Hb. rewrite is_valid_unfold. case_decide as Hd; [|reflexivity].
    subst bounds. tauto.
  - intros Hb Hw. rewrite is_valid_unfold.
    case_decide as Hd; [|reflexivity]. subst weight_ok. tauto.
  - intros Hb Hw. rewrite is_valid_unfold.
    case_decide as Hd; [reflexivity|]. subst bounds weight_ok. tauto.
  - intros pre other suf Heq Hpre Ho Hn. rewrite is_valid_unfold.
    case_decide as Hd; [|reflexivity].
    apply no_overlap_false. eauto 10.
  - apply is_valid_total.
Qed.

(** ** Sorting with a key *)

Section sorted_facts.
Context {A K : Type} (key : A → K) (le : K → K → bool).

Local Abbreviation le_key := (le_key key le).
Local Abbreviation same_key := (same_key key le).

Lemma insert_by_perm (x : A) (l : list A) : insert_by key le x l ≡ₚ x :: l.
Proof.
  induction l as [|y l IH]; simpl; [reflexivity|].
  destruct (le (key x) (key y)); [reflexivity|].
  rewrite IH. apply perm_swap.
Qed.

Lemma sorted_perm (l : list A) : sorted key le l ≡ₚ l.
Proof.
  induction l as [|x l IH]; simpl; [reflexivity|].
  rewrite insert_by_perm, IH. reflexivity.
Qed.

Lemma elem_of_sorted (x : A) (l : list A) : x ∈ sorted key le l ↔ x ∈ l.
Proof. rewrite sorted_perm. reflexivity. Qed.

Hypothesis le_total : ∀ a b, le a b = true ∨ le b a = true.
Hypothesis le_trans : ∀ a b c, le a b = true → le b c = true → le a c = true.

Lemma insert_by_sorted (x : A) (l : list A) :
  StronglySorted le_key l → StronglySorted le_key (insert_by key le x l).
Proof.
  induction 1 as [|y l Hl IH Hy]; simpl.
  - repeat constructor.
  - destruct (le (key x) (key y)) eqn:Hxy.
    + constructor; [constructor; assumption|].
      constructor; [exact Hxy|].
      eapply Forall_impl; [exact Hy|]. intros b Hb. unfold le_key in *.
      eauto.
    + constructor; [exact IH|].
      rewrite insert_by_perm. constructor; [|exact Hy].
      destruct (le_total (key x) (key y)); [congruence | assumption].
Qed.

Lemma sorted_sorted (l : list A) : StronglySorted le_key (sorted key le l).
Proof.
  induction l as [|x l IH]; simpl; [constructor|].
  apply insert_by_sorted, IH.
Qed.

Lemma insert_by_filter_same (w x : A) (l : list A) :
  same_key w x →
  filter (same_key w) (insert_by key le x l) = x :: filter (same_key w) l.
Proof.
  intros Hx. induction l as [|y l IH]; simpl.
  - rewrite filter_cons_True by exact Hx. reflexivity.
  - destruct (le (key x) (key y)) eqn:Hxy.
    + rewrite filter_cons_True by exact Hx. reflexivity.
    + assert (¬ same_key w y) as Hy.
      { intros [H1 H2]. destruct Hx as [H3 H4].
        rewrite (le_trans _ _ _ H4 H1) in Hxy. discriminate. }
      rewrite !(filter_cons_False _ y) by exact Hy. exact IH.
Qed.

Lemma insert_by_filter_other (w x : A) (l : list A) :
  ¬ same_key w x →
  filter (same_key w) (insert_by key le x l) = filter (same_key w) l.
Proof.
  intros Hx. induction l as [|y l IH]; simpl.
  - rewrite filter_cons_False by exact Hx. reflexivity.
  - destruct (le (key x) (key y)) eqn:Hxy.
    + rewrite filter_cons_False by exact Hx. reflexivity.
    + rewrite !(filter_cons _ y), IH. reflexivity.
Qed.

(** Stability: the elements of one key class keep their relative order. *)
Lemma sorted_stable (w : A) (l : list A) :
  filter (same_key w) (sorted key le l) = filter (same_key w) l.
Proof.
  induction l as [|x l IH]; simpl; [reflexivity|].
  destruct (decide (same_key w x)) as [Hx|Hx].
  - rewrite insert_by_filter_same, filter_cons_True, IH by exact Hx.
    reflexivity.
  - rewrite insert_by_filter_other, filter_cons_False, IH by exact Hx.
    reflexivity.
Qed.

(** A stable sort has one possible result: any sorted rearrangement of [l]
    that keeps the order inside each key class is [sorted l]. *)
Lemma stable_sort_unique (l1 l2 : list A) :
  StronglySorted le_key l1 → StronglySorted le_key l2 →
  (∀ w, filter (same_key w) l1 = filter (same_key w) l2) →
  l1 = l2.
Proof.
  intros H1. revert l2. induction H1 as [|x l1 Hl1 IH Hx]; intros l2 H2 Hf.
  - destruct l2 as [|y l2]; [reflexivity|].
    specialize (Hf y). rewrite filter_nil, filter_cons_True in Hf.
    + discriminate.
    + split; destruct (le_total (key y) (key y)); assumption.
  - assert (same_key x x) as Hxx.
    { split; destruct (le_total (key x) (key x)); assumption. }
    destruct H2 as [|y l2 Hl2 Hy].
    { specialize (Hf x). rewrite filter_nil, filter_cons_True in Hf
        by exact Hxx. discriminate. }
    assert (same_key x y) as Hxy.
    { assert (y ∈ filter (same_key y) (x :: l1)) as Hin.
      { rewrite Hf, filter_cons_True; [left|].
        split; destruct (le_total (key y) (key y)); assumption. }
      assert (x ∈ filter (same_key x) (y :: l2)) as Hin'.
      { rewrite <- Hf, filter_cons_True by exact Hxx. left. }
      apply list_elem_of_filter in Hin as [_ Hin].
      apply list_elem_of_filter in Hin' as [_ Hin'].
      rewrite Forall_forall in Hx, Hy.
      apply elem_of_cons in Hin as [->|Hin]; [exact Hxx|].
      apply elem_of_cons in Hin' as [->|Hin']; [exact Hxx|].
      split; [apply Hx, Hin | apply Hy, Hin']. }
    assert (x = y) as <-.
    { specialize (Hf x).
      rewrite !filter_cons_True in Hf by assumption. congruence. }
    f_equal. apply IH; [exact Hl2|]. intros w. specialize (Hf w).
    rewrite !(filter_cons _ x) in Hf.
    destruct (decide (same_key w x)); congruence.
Qed.

End sorted_facts.

Lemma StronglySorted_weaken {A : Type} (R1 R2 : A → A → Prop) (l : list A) :
  (∀ a b, R1 a b → R2 a b) → StronglySorted R1 l → StronglySorted R2 l.
Proof.
  intros HR. induction 1 as [|x l Hl IH Hx]; constructor; [exact IH|].
  eapply Forall_impl; [exact Hx|]. apply HR.
Qed.

Lemma tuple2_le_spec (a b : Z * Z) :
  tuple2_le a b = true ↔ a.1 < b.1 ∨ (a.1 = b.1 ∧ a.2 ≤ b.2).
Proof.
  unfold tuple2_le.
  rewrite orb_true_iff, andb_true_iff, Z.ltb_lt, Z.eqb_eq, Z.leb_le.
  reflexivity.
Qed.

Lemma tuple3_le_spec (a1 a2 a3 b1 b2 b3 : Z) :
  tuple3_le (a1, a2, a3) (b1, b2, b3) = true ↔
  a1 < b1 ∨ (a1 = b1 ∧ (a2 < b2 ∨ (a2 = b2 ∧ a3 ≤ b3))).
Proof.
  unfold tuple3_le.
  rewrite !orb_true_iff, !andb_true_iff, !orb_true_iff, !andb_true_iff,
    !Z.ltb_lt, !Z.eqb_eq, Z.leb_le.
  reflexivity.
Qed.

Lemma tuple2_le_total (a b : Z * Z) :
  tuple2_le a b = true ∨ tuple2_le b a = true.
Proof. rewrite !tuple2_le_spec. lia. Qed.

Lemma tuple2_le_trans (a b c : Z * Z) :
  tuple2_le a b = true → tuple2_le b c = true → tuple2_le a c = true.
Proof. rewrite !tuple2_le_spec. lia. Qed.

Lemma tuple3_le_total (a b : Z * Z * Z) :
  tuple3_le a b = true ∨ tuple3_le b a = true.
Proof.
  destruct a as [[a1 a2] a3], b as [[b1 b2] b3].
  rewrite !tuple3_le_spec. lia.
Qed.

Lemma tuple3_le_trans (a b c : Z * Z * Z) :
  tuple3_le a b = true → tuple3_le b c = true → tuple3_le a c = true.
Proof.
  destruct a as [[a1 a2] a3], b as [[b1 b2] b3], c as [[c1 c2] c3].
  rewrite !tuple3_le_spec. lia.
Qed.

(** The key of a position determines the position, so the sorted sequence
    of a set of positions does not depend on the order of its input. *)
Lemma position_key_le_antisym (p q : Pos) :
  le_key BinPacker.position_key tuple3_le p q →
  le_key BinPacker.position_key tuple3_le q p → p = q.
Proof.
  destruct p as [[x1 y1] z1], q as [[x2 y2] z2].
  unfold le_key, BinPacker.position_key. rewrite !tuple3_le_spec.
  intros H1 H2. repeat f_equal; lia.
Qed.

Lemma position_key_lt (p q : Pos) :
  le_key BinPacker.position_key tuple3_le p q → p ≠ q → position_lt p q.
Proof.
  destruct p as [[x1 y1] z1], q as [[x2 y2] z2].
  unfold le_key, BinPacker.position_key, position_lt.
  rewrite tuple3_le_spec. intros H Hne.
  destruct (decide (x1 = x2 ∧ z1 = z2 ∧ y1 = y2)) as [(-> & -> & ->)|];
    [congruence | lia].
Qed.

Lemma sorted_positions_unique (l1 l2 : list Pos) :
  l1 ≡ₚ l2 →
  sorted BinPacker.position_key tuple3_le l1
  = sorted BinPacker.position_key tuple3_le l2.
Proof.
  intros Hp.
  apply (StronglySorted_unique_strong
           (le_key BinPacker.position_key tuple3_le)).
  - intros p q _ _. apply position_key_le_antisym.
  - apply sorted_sorted; [apply tuple3_le_total | apply tuple3_le_trans].
  - apply sorted_sorted; [apply tuple3_le_total | apply tuple3_le_trans].
  - rewrite !sorted_perm. exact Hp.
Qed.

Lemma sorted_positions_strict (l : list Pos) :
  NoDup l →
  StronglySorted position_lt (sorted BinPacker.position_key tuple3_le l).
Proof.
  intros Hnd.
  assert (NoDup (sorted BinPacker.position_key tuple3_le l)) as Hnd'.
  { rewrite sorted_perm. exact Hnd. }
  pose proof (sorted_sorted BinPacker.position_key tuple3_le
                tuple3_le_total tuple3_le_trans l) as Hs.
  induction Hs as [|p ps Hps IH Hp]; [constructor|].
  apply NoDup_cons in Hnd' as [Hin Hnd'].
  constructor; [apply IH, Hnd'|].
  rewrite Forall_forall in Hp |- *. intros q Hq.
  apply position_key_lt; [apply Hp, Hq|]. intros ->. exact (Hin Hq).
Qed.

Lemma unit_key_le (a b : Item.t) :
  le_key BinPacker.unit_key tuple2_le a b ↔ unit_before a b.
Proof.
  unfold le_key, BinPacker.unit_key, unit_before.
  rewrite tuple2_le_spec. simpl. lia.
Qed.

Lemma same_unit_key (a b : Item.t) :
  same_key BinPacker.unit_key tuple2_le a b ↔
  Item.weight a = Item.weight b ∧ Item.get_volume a = Item.get_volume b.
Proof.
  unfold same_key, BinPacker.unit_key. rewrite !tuple2_le_spec. simpl. lia.
Qed.

(** ** Quantity expansion *)

Lemma elem_of_expand (u : Item.t) (items : list Item.t) :
  u ∈ BinPacker.expand items ↔
  ∃ it i, it ∈ items ∧ 0 ≤ i < Item.quantity it ∧ u = Item.unit_copy it i.
Proof.
  unfold BinPacker.expand. rewrite list_elem_of_bind. split.
  - intros (it & Hu & Hit). apply list_elem_of_fmap in Hu as (i & -> & Hi).
    apply elem_of_seqZ in Hi. exists it, i. split; [exact Hit|].
    split; [lia | reflexivity].
  - intros (it & i & Hit & Hi & ->). exists it. split; [|exact Hit].
    apply list_elem_of_fmap. exists i. split; [reflexivity|].
    apply elem_of_seqZ. lia.
Qed.

Lemma elem_of_expanded_sorted (u : Item.t) (items : list Item.t) :
  u ∈ BinPacker.expanded_sorted items ↔
  ∃ it i, it ∈ items ∧ 0 ≤ i < Item.quantity it ∧ u = Item.unit_copy it i.
Proof.
  unfold BinPacker.expanded_sorted. rewrite elem_of_sorted.
  apply elem_of_expand.
Qed.

(** ** Candidate positions *)

Lemma add_corners_Ok (its : list Item.t) (pos pos' : gset Pos) :
  BinPacker.add_corners its pos = Ok pos' →
  Forall (λ it, is_Some (Item.position it)) its ∧
  ∀ p, p ∈ pos' ↔ p ∈ pos ∨ ∃ it, it ∈ its ∧ corner_of it p.
Proof.
  revert pos. induction its as [|it rest IH]; intros pos; simpl.
  - intros [= <-]. split; [constructor|]. intros p. split; [auto|].
    intros [H|(it & Hit & _)]; [exact H|]. inversion Hit.
  - destruct (Item.position it) as [[[x y] z]|] eqn:Hpos; [|discriminate].
    intros [Hrest Hin]%IH. split.
    + constructor; [rewrite Hpos; eauto | exact Hrest].
    + intros p. rewrite Hin, !elem_of_union, !elem_of_singleton. split.
      * intros [[[[H|H]|H]|H]|(it' & Hit' & Hc)].
        -- auto.
        -- right. exists it. split; [left|]. exists x, y, z. auto.
        -- right. exists it. split; [left|]. exists x, y, z. auto.
        -- right. exists it. split; [left|]. exists x, y, z. auto.
        -- right. exists it'. split; [right; exact Hit' | exact Hc].
      * intros [H|(it' & Hit' & Hc)]; [auto|].
        apply elem_of_cons in Hit' as [->|Hit'].
        -- destruct Hc as (x' & y' & z' & Hp & Hc).
           rewrite Hpos in Hp. injection Hp as <- <- <-.
           destruct Hc as [->|[->| ->]]; auto.
        -- right. eauto.
Qed.

Lemma add_corners_total (its : list Item.t) (pos : gset Pos) :
  Forall (λ it, is_Some (Item.position it)) its →
  ∃ pos', BinPacker.add_corners its pos = Ok pos'.
Proof.
  intros H. revert pos. induction H as [|it rest [[[x y] z] Hp] _ IH];
    intros pos; simpl.
  - eauto.
  - rewrite Hp. apply IH.
Qed.

Lemma generate_positions_by_total (enum : gset Pos → list Pos)
    (self : BinPacker.t) :
  positioned (BinPacker.container self) →
  ∃ ps, BinPacker.generate_positions_by enum self = Ok ps.
Proof.
  intros H. unfold BinPacker.generate_positions_by.
  destruct (add_corners_total _ {[ (0, 0, 0) ]} H) as [pos ->].
  simpl. eauto.
Qed.

Lemma generate_positions_by_Raise (enum : gset Pos → list Pos)
    (self : BinPacker.t) (e : exn) :
  BinPacker.generate_positions_by enum self = Raise e →
  ¬ positioned (BinPacker.container self).
Proof.
  intros He Hp.
  destruct (generate_positions_by_total enum self Hp) as [ps Hps].
  congruence.
Qed.

(** The result does not depend on the order in which the set is iterated. *)
Lemma generate_positions_by_enum (enum : gset Pos → list Pos)
    (self : BinPacker.t) :
  (∀ s, enum s ≡ₚ elements s) →
  BinPacker.generate_positions_by enum self
  = BinPacker.generate_positions self.
Proof.
  intros Henum.
  unfold BinPacker.generate_positions, BinPacker.generate_positions_by.
  destruct (BinPacker.add_corners _ _) as [pos|e]; simpl; [|reflexivity].
  f_equal. apply sorted_positions_unique, Henum.
Qed.

Lemma generate_positions_Ok (self : BinPacker.t) (ps : list Pos) :
  BinPacker.generate_positions self = Ok ps →
  (∀ p, p ∈ ps ↔
     p = (0, 0, 0) ∨
     ∃ it, it ∈ Container.items (BinPacker.container self) ∧ corner_of it p) ∧
  StronglySorted position_lt ps.
Proof.
  unfold BinPacker.generate_positions, BinPacker.generate_positions_by.
  destruct (BinPacker.add_corners _ _) as [pos|e] eqn:Hpos; simpl;
    [|discriminate].
  intros [= <-]. apply add_corners_Ok in Hpos as [_ Hpos]. split.
  - intros p.
    rewrite elem_of_sorted, elem_of_elements, Hpos, elem_of_singleton.
    reflexivity.
  - apply sorted_positions_strict, NoDup_elements.
Qed.

(** ** The search for one unit is a first-fit scan *)

Lemma same_unit_refl (a : Item.t) : same_unit a a.
Proof. split; reflexivity. Qed.

Lemma same_unit_set_orientation (a b : Item.t) (o : string) :
  Item.set_orientation a o = Ok b → same_unit a b.
Proof.
  intros H. split.
  - intros o'. exact (set_orientation_twice _ _ _ _ H).
  - apply set_orientation_frame in H. tauto.
Qed.

Lemma candidate_pairs_cons (p : Pos) (ps : list Pos) (os : list string) :
  candidate_pairs (p :: ps) os = (pair p <$> os) ++ candidate_pairs ps os.
Proof.
  unfold candidate_pairs. simpl. f_equal.
Qed.

Lemma elem_of_candidate_pairs (p : Pos) (o : string) (ps : list Pos)
    (os : list string) :
  (p, o) ∈ candidate_pairs ps os ↔ p ∈ ps ∧ o ∈ os.
Proof.
  unfold candidate_pairs. rewrite list_elem_of_bind. split.
  - intros (p' & H & Hp'). apply list_elem_of_bind in H as (o' & H & Ho').
    apply list_elem_of_singleton in H as [= -> ->]. auto.
  - intros [Hp Ho]. exists p. split; [|exact Hp].
    apply list_elem_of_bind. exists o. split; [|exact Ho].
    apply list_elem_of_singleton. reflexivity.
Qed.

(** The scan chooses the first pair that validates. *)
Lemma first_fit_Some (c : Container.t) (item : Item.t)
    (pairs : list (Pos * string)) (q : Pos * string) :
  first_fit c item pairs = Ok (Some q) ↔
  ∃ before after,
    pairs = before ++ q :: after ∧
    Forall (λ q', validates c item q' = Ok false) before ∧
    validates c item q = Ok true.
Proof.
  induction pairs as [|q0 pairs IH]; simpl.
  - split; [discriminate|]. intros ([] & ? & ? & _); discriminate.
  - destruct (validates c item q0) as [[]|e] eqn:Hv; simpl.
    + split.
      * intros [= <-]. exists [], pairs. split; [reflexivity|].
        split; [constructor | exact Hv].
      * intros (before & after & Heq & Hb & Hq).
        destruct before as [|b before]; simpl in Heq.
        -- congruence.
        -- injection Heq as <- _. apply Forall_cons in Hb as [Hb _].
           congruence.
    + rewrite IH. split.
      * intros (before & after & -> & Hb & Hq).
        exists (q0 :: before), after. split; [reflexivity|].
        split; [constructor; assumption | exact Hq].
      * intros (before & after & Heq & Hb & Hq).
        destruct before as [|b before]; simpl in Heq.
        -- injection Heq as <- _. congruence.
        -- injection Heq as <- ->. apply Forall_cons in Hb as [_ Hb].
           eauto.
    + split; [discriminate|].
      intros (before & after & Heq & Hb & Hq).
      destruct before as [|b before]; simpl in Heq.
      * injection Heq as <- _. congruence.
      * injection Heq as <- _. apply Forall_cons in Hb as [Hb _].
        congruence.
Qed.

Lemma first_fit_None (c : Container.t) (item : Item.t)
    (pairs : list (Pos * string)) :
  first_fit c item pairs = Ok None ↔
  Forall (λ q, validates c item q = Ok false) pairs.
Proof.
  induction pairs as [|q0 pairs IH]; simpl.
  - split; [constructor | reflexivity].
  - rewrite Forall_cons, <- IH.
    destruct (validates c item q0) as [[]|e]; simpl; split;
      try discriminate; try tauto; intros [[=] _].
Qed.

Lemma first_fit_Raise (c : Container.t) (item : Item.t)
    (pairs : list (Pos * string)) (e : exn) :
  first_fit c item pairs = Raise e →
  ∃ q, q ∈ pairs ∧ validates c item q = Raise e.
Proof.
  induction pairs as [|q0 pairs IH]; simpl; [discriminate|].
  destruct (validates c item q0) as [[]|e'] eqn:Hv; simpl.
  - discriminate.
  - intros (q & Hq & He)%IH. exists q. split; [right; exact Hq | exact He].
  - intros [= <-]. exists q0. split; [left | exact Hv].
Qed.

Lemma validates_false_set_orientation (c : Container.t) (item : Item.t)
    (p : Pos) (o : string) (b : bool) :
  validates c item (p, o) = Ok b →
  ∃ item1, Item.set_orientation item o = Ok item1.
Proof.
  unfold validates. destruct p as [[x y] z].
  destruct (Item.set_orientation item o) as [item1|e]; [eauto|discriminate].
Qed.

(** After a scan without success the unit is a re-oriented [item]. *)
Lemma last_tried_None (c : Container.t) (item current : Item.t)
    (pairs : list (Pos * string)) :
  same_unit item current →
  first_fit c item pairs = Ok None →
  ∃ item', last_tried item current pairs = Ok item' ∧ same_unit item item'.
Proof.
  intros Hs Hf%first_fit_None. unfold last_tried.
  destruct (last pairs) as [[p o]|] eqn:Hl; [|eauto].
  apply last_Some in Hl as [l' ->].
  apply Forall_app in Hf as [_ Hf]. apply Forall_cons in Hf as [Hf _].
  apply validates_false_set_orientation in Hf as [item1 H1].
  exists item1. split; [exact H1|].
  exact (same_unit_set_orientation _ _ _ H1).
Qed.

Lemma last_tried_cons (item current item1 : Item.t) (p : Pos) (o : string)
    (rest : list (Pos * string)) :
  Item.set_orientation item o = Ok item1 →
  last_tried item current ((p, o) :: rest) = last_tried item item1 rest.
Proof.
  intros H. unfold last_tried. destruct rest as [|q rest _] using rev_ind.
  - exact H.
  - rewrite app_comm_cons, !last_snoc. reflexivity.
Qed.

(** One step of the scan. *)
Lemma search_from_cons (c : Container.t) (item current : Item.t)
    (x y z : Z) (o : string) (rest : list (Pos * string)) :
  search_from c item current ((x, y, z, o) :: rest) =
    item1 ← Item.set_orientation item o;
    v ← Container.is_valid c item1 x y z;
    if v : bool then
      let '(c', item2) := Container.add_item c item1 x y z in
      Ok (c', item2, true)
    else search_from c item item1 rest.
Proof.
  unfold search_from. cbn [first_fit validates].
  destruct (Item.set_orientation item o) as [item1|e] eqn:H1;
    [|reflexivity].
  rewrite !bind_Ok.
  destruct (Container.is_valid c item1 x y z) as [[]|e]; [| |reflexivity].
  - rewrite !bind_Ok, H1. reflexivity.
  - rewrite !bind_Ok.
    destruct (first_fit c item rest) as [[q|]|e]; [reflexivity| |reflexivity].
    rewrite !bind_Ok, (last_tried_cons _ _ _ _ _ _ H1). reflexivity.
Qed.

Lemma try_orientations_search (c : Container.t) (item current : Item.t)
    (x y z : Z) (os : list string) :
  same_unit item current →
  BinPacker.try_orientations c current x y z os
  = search_from c item current (@pair Pos string (x, y, z) <$> os).
Proof.
  revert current. induction os as [|o os IH]; intros current Hs.
  - reflexivity.
  - rewrite fmap_cons, search_from_cons. cbn [BinPacker.try_orientations].
    destruct Hs as [Hs Hp]. rewrite Hs.
    destruct (Item.set_orientation item o) as [item1|e] eqn:H1;
      [|reflexivity].
    rewrite !bind_Ok.
    destruct (Container.is_valid c item1 x y z) as [[]|e];
      [reflexivity| |reflexivity].
    rewrite !bind_Ok.
    apply IH. exact (same_unit_set_orientation _ _ _ H1).
Qed.

Lemma search_from_app (c : Container.t) (item current : Item.t)
    (l1 l2 : list (Pos * string)) :
  search_from c item current (l1 ++ l2) =
    '(c1, item1, placed) ← search_from c item current l1;
    if placed : bool then Ok (c1, item1, true)
    else search_from c item item1 l2.
Proof.
  revert current. induction l1 as [|[[[x y] z] o] l1 IH]; intros current.
  - reflexivity.
  - rewrite <- app_comm_cons, !search_from_cons.
    destruct (Item.set_orientation item o) as [item1|e]; [|reflexivity].
    rewrite !bind_Ok.
    destruct (Container.is_valid c item1 x y z) as [[]|e];
      [reflexivity| |reflexivity].
    rewrite !bind_Ok. apply IH.
Qed.

(** A scan without success leaves the container as it is. *)
Lemma search_from_unplaced (c c1 : Container.t) (item current item1 : Item.t)
    (pairs : list (Pos * string)) :
  same_unit item current →
  search_from c item current pairs = Ok (c1, item1, false) →
  c1 = c ∧ same_unit item item1 ∧
  last_tried item current pairs = Ok item1 ∧
  Forall (λ q, validates c item q = Ok false) pairs.
Proof.
  intros Hs. unfold search_from.
  destruct (first_fit c item pairs) as [[[[[x y] z] o]|]|e] eqn:Hf;
    [| |discriminate].
  - rewrite bind_Ok.
    destruct (Item.set_orientation item o); [|discriminate].
    rewrite bind_Ok. discriminate.
  - rewrite bind_Ok.
    destruct (last_tried_None c item current pairs Hs Hf) as (i' & Hl & Hs').
    rewrite Hl, bind_Ok. intros [= <- <-].
    apply first_fit_None in Hf. auto.
Qed.

Lemma try_positions_search (c : Container.t) (item current : Item.t)
    (ps : list Pos) :
  same_unit item current →
  BinPacker.try_positions c current ps
  = search_from c item current
      (candidate_pairs ps (Item.orientation_preference item)).
Proof.
  revert current. induction ps as [|[[x y] z] ps IH]; intros current Hs.
  - reflexivity.
  - rewrite candidate_pairs_cons, search_from_app.
    cbn [BinPacker.try_positions].
    rewrite (try_orientations_search c item) by exact Hs.
    destruct Hs as [Hs Hp]. rewrite Hp.
    destruct (search_from c item current
                (@pair Pos string (x, y, z)
                   <$> Item.orientation_preference item))
      as [[[c1 item1] []]|e] eqn:Hf; [reflexivity| |reflexivity].
    rewrite !bind_Ok.
    apply search_from_unplaced in Hf as (-> & Hs' & _); [|split; assumption].
    apply IH, Hs'.
Qed.

(** The nested loops of [pack] compute the first-fit search. *)
Lemma try_positions_first_fit (c : Container.t) (item : Item.t)
    (ps : list Pos) :
  BinPacker.try_positions c item ps = first_fit_place c item ps.
Proof. apply try_positions_search, same_unit_refl. Qed.

Lemma validates_true (c : Container.t) (item : Item.t) (x y z : Z)
    (o : string) :
  validates c item (x, y, z, o) = Ok true ↔
  ∃ item1, Item.set_orientation item o = Ok item1 ∧
           Container.is_valid c item1 x y z = Ok true.
Proof.
  unfold validates.
  destruct (Item.set_orientation item o) as [item1|e]; simpl.
  - split; [eauto|]. intros (? & [= <-] & H). exact H.
  - split; [discriminate|]. intros (? & [=] & _).
Qed.

Lemma validates_Raise (c : Container.t) (item : Item.t) (p : Pos)
    (o : string) (e : exn) :
  validates c item (p, o) = Raise e →
  (e = KeyError o ∧ o ∉ orientation_codes) ∨ (e = TypeError ∧ ¬ positioned c).
Proof.
  unfold validates. destruct p as [[x y] z].
  destruct (Item.set_orientation item o) as [item1|e'] eqn:H1; simpl.
  - intros H%is_valid_Raise. auto.
  - intros [= <-]. apply set_orientation_Raise in H1. auto.
Qed.

(** The unit is committed exactly at the first pair that validates. *)
Lemma first_fit_place_placed (c c' : Container.t) (item item' : Item.t)
    (ps : list Pos) :
  first_fit_place c item ps = Ok (c', item', true) ↔
  ∃ before x y z o after item1,
    candidate_pairs ps (Item.orientation_preference item)
      = before ++ (x, y, z, o) :: after ∧
    Forall (λ q, validates c item q = Ok false) before ∧
    Item.set_orientation item o = Ok item1 ∧
    Container.is_valid c item1 x y z = Ok true ∧
    (c', item') = Container.add_item c item1 x y z.
Proof.
  unfold first_fit_place, search_from. split.
  - destruct (first_fit c item _) as [[[[[x y] z] o]|]|e] eqn:Hf;
      [| |discriminate].
    + apply first_fit_Some in Hf as (before & after & Heq & Hb & Hv).
      apply validates_true in Hv as (item1 & H1 & Hv).
      rewrite bind_Ok, H1, bind_Ok. intros [= <- <-].
      exists before, x, y, z, o, after, item1. auto.
    + rewrite bind_Ok. destruct (last_tried _ _ _); discriminate.
  - intros (before & x & y & z & o & after & item1 & Heq & Hb & H1 & Hv & ->).
    assert (first_fit c item
              (candidate_pairs ps (Item.orientation_preference item))
            = Ok (Some (x, y, z, o))) as ->.
    { apply first_fit_Some. exists before, after. split; [exact Heq|].
      split; [exact Hb|]. apply validates_true. eauto. }
    rewrite bind_Ok, H1. reflexivity.
Qed.

(** Without a pair that validates the container stays as it is. *)
Lemma first_fit_place_unplaced (c c' : Container.t) (item item' : Item.t)
    (ps : list Pos) :
  first_fit_place c item ps = Ok (c', item', false) ↔
    c' = c ∧
    Forall (λ q, validates c item q = Ok false)
      (candidate_pairs ps (Item.orientation_preference item)) ∧
    last_tried item item
      (candidate_pairs ps (Item.orientation_preference item)) = Ok item'.
Proof.
  split.
  - intros H. apply search_from_unplaced in H; [tauto | apply same_unit_refl].
  - intros (-> & Hf & Hl). unfold first_fit_place, search_from.
    apply first_fit_None in Hf. rewrite Hf, bind_Ok, Hl. reflexivity.
Qed.

Lemma first_fit_place_Raise (c : Container.t) (item : Item.t) (ps : list Pos)
    (e : exn) :
  first_fit_place c item ps = Raise e →
  (∃ o, o ∈ Item.orientation_preference item ∧ (o ∉ orientation_codes) ∧
        e = KeyError o) ∨
  (e = TypeError ∧ ¬ positioned c).
Proof.
  unfold first_fit_place, search_from.
  destruct (first_fit c item _) as [[[[[x y] z] o]|]|e'] eqn:Hf.
  - apply first_fit_Some in Hf as (_ & _ & _ & _ & Hv).
    apply validates_true in Hv as (item1 & H1 & _).
    rewrite bind_Ok, H1. discriminate.
  - destruct (last_tried_None c item item _ (same_unit_refl item) Hf)
      as (i' & Hl & _).
    rewrite bind_Ok, Hl. discriminate.
  - intros [= <-]. apply first_fit_Raise in Hf as ([p o] & Hq & Hv).
    apply elem_of_candidate_pairs in Hq as [_ Ho].
    apply validates_Raise in Hv as [[-> Hn]|[-> Hn]]; [left|right]; eauto.
Qed.

(** ** One iteration of the placement loop *)

Lemma pack_item_by_enum (enum : gset Pos → list Pos) (self : BinPacker.t)
    (item : Item.t) :
  (∀ s, enum s ≡ₚ elements s) →
  BinPacker.pack_item_by enum self item = BinPacker.pack_item self item.
Proof.
  intros Henum. unfold BinPacker.pack_item, BinPacker.pack_item_by.
  rewrite (generate_positions_by_enum enum self Henum). reflexivity.
Qed.

Lemma pack_units_by_enum (enum : gset Pos → list Pos) (self : BinPacker.t)
    (units : list Item.t) :
  (∀ s, enum s ≡ₚ elements s) →
  BinPacker.pack_units_by enum self units = BinPacker.pack_units self units.
Proof.
  intros Henum. revert self.
  induction units as [|u units IH]; intros self; [reflexivity|].
  unfold BinPacker.pack_units. cbn [BinPacker.pack_units_by].
  rewrite (pack_item_by_enum enum self u Henum). unfold BinPacker.pack_item.
  destruct (BinPacker.pack_item_by elements self u)
    as [[[self1 u'] placed]|e]; [|reflexivity].
  rewrite !bind_Ok, IH. reflexivity.
Qed.

Lemma pack_item_unfold (self : BinPacker.t) (item : Item.t) :
  BinPacker.pack_item self item =
    ps ← BinPacker.generate_positions self;
    '(c, item', placed) ← first_fit_place (BinPacker.container self) item ps;
    Ok ({| BinPacker.container := c |}, item', placed).
Proof.
  unfold BinPacker.pack_item, BinPacker.pack_item_by.
  fold BinPacker.generate_positions.
  destruct (BinPacker.generate_positions self) as [ps|e]; [|reflexivity].
  rewrite !bind_Ok, try_positions_first_fit. reflexivity.
Qed.

Lemma pack_item_placed (self self' : BinPacker.t) (item item' : Item.t) :
  BinPacker.pack_item self item = Ok (self', item', true) ↔
  ∃ ps before x y z o after item1,
    BinPacker.generate_positions self = Ok ps ∧
    candidate_pairs ps (Item.orientation_preference item)
      = before ++ (x, y, z, o) :: after ∧
    Forall (λ q, validates (BinPacker.container self) item q = Ok false)
      before ∧
    Item.set_orientation item o = Ok item1 ∧
    Container.is_valid (BinPacker.container self) item1 x y z = Ok true ∧
    (BinPacker.container self', item')
      = Container.add_item (BinPacker.container self) item1 x y z.
Proof.
  rewrite pack_item_unfold. split.
  - destruct (BinPacker.generate_positions self) as [ps|e]; [|discriminate].
    rewrite bind_Ok.
    destruct (first_fit_place _ item ps) as [[[c i'] placed]|e] eqn:Hf;
      [|discriminate].
    rewrite bind_Ok. intros [= <- <- ->].
    apply first_fit_place_placed in Hf
      as (before & x & y & z & o & after & item1 & H).
    exists ps, before, x, y, z, o, after, item1. tauto.
  - intros (ps & before & x & y & z & o & after & item1 & -> & H).
    rewrite bind_Ok.
    assert (first_fit_place (BinPacker.container self) item ps
            = Ok (BinPacker.container self', item', true)) as ->.
    { apply first_fit_place_placed.
      exists before, x, y, z, o, after, item1. tauto. }
    rewrite bind_Ok. destruct self'. reflexivity.
Qed.

Lemma pack_item_unplaced (self self' : BinPacker.t) (item item' : Item.t) :
  BinPacker.pack_item self item = Ok (self', item', false) ↔
  ∃ ps,
    BinPacker.generate_positions self = Ok ps ∧
    self' = self ∧
    Forall (λ q, validates (BinPacker.container self) item q = Ok false)
      (candidate_pairs ps (Item.orientation_preference item)) ∧
    last_tried item item
      (candidate_pairs ps (Item.orientation_preference item)) = Ok item'.
Proof.
  rewrite pack_item_unfold. split.
  - destruct (BinPacker.generate_positions self) as [ps|e]; [|discriminate].
    rewrite bind_Ok.
    destruct (first_fit_place _ item ps) as [[[c i'] placed]|e] eqn:Hf;
      [|discriminate].
    rewrite bind_Ok. intros [= <- <- ->].
    apply first_fit_place_unplaced in Hf as (-> & H).
    exists ps. destruct self. tauto.
  - intros (ps & -> & -> & Hf & Hl). rewrite bind_Ok.
    assert (first_fit_place (BinPacker.container self) item ps
            = Ok (BinPacker.container self, item', false)) as ->.
    { apply first_fit_place_unplaced. tauto. }
    rewrite bind_Ok. destruct self. reflexivity.
Qed.

Lemma pack_item_Raise (self : BinPacker.t) (item : Item.t) (e : exn) :
  BinPacker.pack_item self item = Raise e →
  (∃ o, o ∈ Item.orientation_preference item ∧ (o ∉ orientation_codes) ∧
        e = KeyError o) ∨
  ¬ positioned (BinPacker.container self).
Proof.
  rewrite pack_item_unfold.
  destruct (BinPacker.generate_positions self) as [ps|e'] eqn:Hg.
  - rewrite bind_Ok.
    destruct (first_fit_place _ item ps) as [[[c i'] placed]|e'] eqn:Hf;
      [discriminate|].
    intros [= <-]. apply first_fit_place_Raise in Hf. tauto.
  - intros _. right. exact (generate_positions_by_Raise _ _ _ Hg).
Qed.

(** ** Invariants of the container *)

Lemma total_weight_snoc (l : list Item.t) (it : Item.t) :
  total_weight (l ++ [it]) = total_weight l + Item.weight it.
Proof.
  unfold total_weight. induction l as [|a l IH]; simpl; [lia|].
  rewrite IH. lia.
Qed.

Lemma units_disjoint_sym (a b : Item.t) :
  units_disjoint a b → units_disjoint b a.
Proof.
  intros (x & y & z & Ha & px & py & pz & Hb & H).
  exists px, py, pz. split; [exact Hb|].
  exists x, y, z. split; [exact Ha|]. apply boxes_disjoint_sym, H.
Qed.

Lemma units_disjoint_not_overlap (a b : Item.t) :
  units_disjoint a b → ¬ units_overlap a b.
Proof.
  intros (x & y & z & Ha & px & py & pz & Hb & H)
         (x' & y' & z' & px' & py' & pz' & Ha' & Hb' & Ho).
  rewrite Ha in Ha'. rewrite Hb in Hb'.
  injection Ha' as <- <- <-. injection Hb' as <- <- <-.
  apply boxes_disjoint_axes in H. exact (H Ho).
Qed.

Lemma units_disjoint_no_common_point (a b : Item.t) (p : Pos) :
  units_disjoint a b → ¬ (in_box a p ∧ in_box b p).
Proof.
  intros (x & y & z & Ha & px & py & pz & Hb & H)
         [(x' & y' & z' & Ha' & Hx & Hy & Hz)
          (px' & py' & pz' & Hb' & Hpx & Hpy & Hpz)].
  rewrite Ha in Ha'. rewrite Hb in Hb'.
  injection Ha' as <- <- <-. injection Hb' as <- <- <-.
  unfold boxes_disjoint in H. lia.
Qed.

Lemma pairwise_disjoint_snoc (l : list Item.t) (it : Item.t) :
  pairwise_disjoint l →
  Forall (λ other, units_disjoint it other) l →
  pairwise_disjoint (l ++ [it]).
Proof.
  intros Hl Hit i j a b Hij Ha Hb. rewrite Forall_forall in Hit.
  apply lookup_app_Some in Ha as [Ha|[Hi Ha]];
    apply lookup_app_Some in Hb as [Hb|[Hj Hb]].
  - exact (Hl i j a b Hij Ha Hb).
  - apply list_lookup_singleton_Some in Hb as [_ <-].
    apply units_disjoint_sym, Hit. exact (list_elem_of_lookup_2 _ _ _ Ha).
  - apply list_lookup_singleton_Some in Ha as [_ <-].
    apply Hit. exact (list_elem_of_lookup_2 _ _ _ Hb).
  - apply list_lookup_singleton_Some in Ha as [Ha _].
    apply list_lookup_singleton_Some in Hb as [Hb _]. lia.
Qed.

Section commit.
Context (c : Container.t) (item : Item.t) (x y z : Z).
Hypothesis valid : Container.is_valid c item x y z = Ok true.

Local Abbreviation c' := (Container.add_item c item x y z).1.

Lemma commit_positioned : positioned c → positioned c'.
Proof.
  unfold positioned. simpl. intros H.
  apply Forall_app. split; [exact H|]. repeat constructor. simpl. eauto.
Qed.

Lemma commit_within_container :
  Forall (within_container c) (Container.items c) →
  Forall (within_container c') (Container.items c').
Proof.
  apply is_valid_true in valid as [Hb _]. simpl. intros H.
  apply Forall_app. split; [exact H|]. repeat constructor.
  exists x, y, z. simpl. tauto.
Qed.

Lemma commit_pairwise_disjoint :
  pairwise_disjoint (Container.items c) →
  pairwise_disjoint (Container.items c').
Proof.
  apply is_valid_true in valid as (_ & _ & Hd). simpl. intros H.
  apply pairwise_disjoint_snoc; [exact H|].
  eapply Forall_impl; [exact Hd|]. intros other Ho.
  exists x, y, z. split; [reflexivity | exact Ho].
Qed.

Lemma commit_weight_sum :
  Container.current_weight c = total_weight (Container.items c) →
  Container.current_weight c' = total_weight (Container.items c').
Proof. simpl. intros ->. rewrite total_weight_snoc. reflexivity. Qed.

Lemma commit_weight_le :
  Container.current_weight c' ≤ Container.max_weight c'.
Proof. apply is_valid_true in valid as (_ & Hw & _). exact Hw. Qed.

End commit.

(** All placed units have non-negative positions and active dimensions. *)
Lemma generate_positions_nonneg (self : BinPacker.t) (ps : list Pos) :
  placed_nonneg (BinPacker.container self) →
  BinPacker.generate_positions self = Ok ps →
  ∀ x y z, (x, y, z) ∈ ps → 0 ≤ x ∧ 0 ≤ y ∧ 0 ≤ z.
Proof.
  intros Hinv [Hin _]%generate_positions_Ok x y z Hp.
  apply Hin in Hp as [[= -> -> ->]|(it & Hit & Hc)]; [lia|].
  unfold placed_nonneg in Hinv. rewrite Forall_forall in Hinv.
  destruct (Hinv it Hit) as ((x' & y' & z' & Hpos & Hx & Hy & Hz) & Hd).
  destruct Hc as (x'' & y'' & z'' & Hpos' & Hc).
  rewrite Hpos in Hpos'. injection Hpos' as <- <- <-.
  destruct Hc as [[= -> -> ->]|[[= -> -> ->]|[= -> -> ->]]]; lia.
Qed.

Lemma set_orientation_nonneg (item item1 : Item.t) (o : string) :
  dims_nonneg item → Item.set_orientation item o = Ok item1 →
  0 ≤ Item.length item1 ∧ 0 ≤ Item.width item1 ∧ 0 ≤ Item.height item1.
Proof.
  unfold dims_nonneg. intros Hd H%set_orientation_dims%get_dimensions_perm.
  destruct (Item.original_dims item) as [[l w] h]; simpl in H.
  apply perm3_cases in H.
  destruct H as [[= -> -> ->]|[[= -> -> ->]|[[= -> -> ->]|
                [[= -> -> ->]|[[= -> -> ->]|[= -> -> ->]]]]]]; lia.
Qed.

(** ** Invariants along the placement loop

    [P] is a property of the container that every commit of a unit
    satisfying [Q] preserves; it then holds after any number of
    iterations. *)
Section loop_invariant.
Context (P : Container.t → Prop) (Q : Item.t → Prop).
Hypothesis commit_preserves :
  ∀ c item o item1 ps x y z,
    P c → Q item →
    BinPacker.generate_positions {| BinPacker.container := c |} = Ok ps →
    (x, y, z) ∈ ps →
    Item.set_orientation item o = Ok item1 →
    Container.is_valid c item1 x y z = Ok true →
    P (Container.add_item c item1 x y z).1.

Lemma pack_item_preserves (self self' : BinPacker.t) (item item' : Item.t)
    (placed : bool) :
  P (BinPacker.container self) → Q item →
  BinPacker.pack_item self item = Ok (self', item', placed) →
  P (BinPacker.container self').
Proof.
  intros HP HQ H. destruct placed.
  - apply pack_item_placed in H
      as (ps & before & x & y & z & o & after & item1 & Hg & Heq & _ & H1
          & Hv & Hadd).
    assert (BinPacker.container self'
            = (Container.add_item (BinPacker.container self) item1 x y z).1)
      as -> by (rewrite <- Hadd; reflexivity).
    destruct self as [c]. simpl in *.
    apply (commit_preserves c item o item1 ps);
      [exact HP | exact HQ | exact Hg | | exact H1 | exact Hv].
    assert ((x, y, z, o) ∈ candidate_pairs ps
              (Item.orientation_preference item)) as Hin.
    { rewrite Heq. apply elem_of_app. right. left. }
    apply elem_of_candidate_pairs in Hin. tauto.
  - apply pack_item_unplaced in H as (ps & _ & -> & _). exact HP.
Qed.

Lemma pack_units_preserves (units units' : list Item.t)
    (self self' : BinPacker.t) :
  P (BinPacker.container self) → Forall Q units →
  BinPacker.pack_units self units = Ok (self', units') →
  P (BinPacker.container self').
Proof.
  revert self units'. induction units as [|u units IH];
    intros self units' HP HQ.
  - intros [= <- <-]. exact HP.
  - apply Forall_cons in HQ as [Hu HQ].
    unfold BinPacker.pack_units. cbn [BinPacker.pack_units_by].
    fold (BinPacker.pack_item self u).
    destruct (BinPacker.pack_item self u) as [[[self1 u'] placed]|e] eqn:Hi;
      [|discriminate].
    rewrite bind_Ok.
    fold (BinPacker.pack_units self1 units).
    destruct (BinPacker.pack_units self1 units) as [[self2 rest']|e] eqn:Hr;
      [|discriminate].
    rewrite bind_Ok. intros [= <- <-].
    apply (IH self1 rest'); [|exact HQ|exact Hr].
    exact (pack_item_preserves _ _ _ _ _ HP Hu Hi).
Qed.

End loop_invariant.

(** ** The run of the engine *)

Lemma pack_Ok (self : BinPacker.t) (items : list Item.t) (c : Container.t) :
  BinPacker.pack self items = Ok c ↔
  ∃ self' units',
    BinPacker.pack_units self (BinPacker.expanded_sorted items)
      = Ok (self', units') ∧
    c = BinPacker.container self'.
Proof.
  unfold BinPacker.pack, BinPacker.pack_by.
  fold (BinPacker.pack_units self (BinPacker.expanded_sorted items)).
  destruct (BinPacker.pack_units self _) as [[self' units']|e].
  - rewrite bind_Ok. split.
    + intros [= <-]. eauto.
    + intros (? & ? & [= <- <-] & ->). reflexivity.
  - split; [discriminate|]. intros (? & ? & [=] & _).
Qed.

Lemma pack_units_cons (self : BinPacker.t) (u : Item.t)
    (rest : list Item.t) :
  BinPacker.pack_units self (u :: rest) =
    '(self1, u', _) ← BinPacker.pack_item self u;
    '(self2, rest') ← BinPacker.pack_units self1 rest;
    Ok (self2, u' :: rest').
Proof. reflexivity. Qed.

(** The states after the units of a prefix are the intermediate states of
    the run on the whole sequence. *)
Lemma pack_units_app (self : BinPacker.t) (pre suf : list Item.t) :
  BinPacker.pack_units self (pre ++ suf) =
    '(self1, pre') ← BinPacker.pack_units self pre;
    '(self2, suf') ← BinPacker.pack_units self1 suf;
    Ok (self2, pre' ++ suf').
Proof.
  revert self. induction pre as [|u pre IH]; intros self.
  - rewrite app_nil_l. change (BinPacker.pack_units self []) with
      (@Ok (BinPacker.t * list Item.t) (self, [])).
    rewrite bind_Ok.
    destruct (BinPacker.pack_units self suf) as [[s2 suf']|e]; reflexivity.
  - rewrite <- app_comm_cons, !pack_units_cons.
    destruct (BinPacker.pack_item self u) as [[[self1 u'] placed]|e];
      [|reflexivity].
    rewrite !bind_Ok, IH.
    destruct (BinPacker.pack_units self1 pre) as [[s1 pre']|e];
      [|reflexivity].
    rewrite !bind_Ok.
    destruct (BinPacker.pack_units s1 suf) as [[s2 suf']|e]; reflexivity.
Qed.

Lemma init_container_inv (L W H MW : Z) :
  container_inv (BinPacker.container (BinPacker.init L W H MW)).
Proof.
  unfold container_inv, positioned, pairwise_disjoint. simpl.
  repeat split; try constructor.
  intros i j a b _ Ha. rewrite lookup_nil in Ha. discriminate.
Qed.

Lemma pack_units_container_inv (units units' : list Item.t)
    (self self' : BinPacker.t) :
  container_inv (BinPacker.container self) →
  BinPacker.pack_units self units = Ok (self', units') →
  container_inv (BinPacker.container self').
Proof.
  intros Hinv Hrun.
  apply (pack_units_preserves container_inv (λ _, True))
    with (units := units) (units' := units') (self := self);
    [|exact Hinv|apply Forall_true; auto|exact Hrun].
  intros c item o item1 ps x y z (Hp & Hb & Hd & Hw) _ _ _ _ Hv.
  split; [exact (commit_positioned c item1 x y z Hp)|].
  split; [exact (commit_within_container c item1 x y z Hv Hb)|].
  split; [exact (commit_pairwise_disjoint c item1 x y z Hv Hd)|].
  exact (commit_weight_sum c item1 x y z Hw).
Qed.

Lemma pack_units_weight_le (units units' : list Item.t)
    (self self' : BinPacker.t) :
  Container.current_weight (BinPacker.container self)
    ≤ Container.max_weight (BinPacker.container self) →
  BinPacker.pack_units self units = Ok (self', units') →
  Container.current_weight (BinPacker.container self')
    ≤ Container.max_weight (BinPacker.container self').
Proof.
  intros Hinv Hrun.
  apply (pack_units_preserves
           (λ c, Container.current_weight c ≤ Container.max_weight c)
           (λ _, True))
    with (units := units) (units' := units') (self := self);
    [|exact Hinv|apply Forall_true; auto|exact Hrun].
  intros c item o item1 ps x y z _ _ _ _ _ Hv.
  exact (commit_weight_le c item1 x y z Hv).
Qed.

Lemma pack_units_placed_nonneg (units units' : list Item.t)
    (self self' : BinPacker.t) :
  placed_nonneg (BinPacker.container self) →
  Forall dims_nonneg units →
  BinPacker.pack_units self units = Ok (self', units') →
  placed_nonneg (BinPacker.container self').
Proof.
  intros Hinv Hunits Hrun.
  apply (pack_units_preserves placed_nonneg dims_nonneg)
    with (units := units) (units' := units') (self := self);
    [|exact Hinv|exact Hunits|exact Hrun].
  intros c item o item1 ps x y z Hc Hitem Hg Hin H1 _.
  unfold placed_nonneg. simpl. apply Forall_app. split; [exact Hc|].
  repeat constructor; simpl.
  - exists x, y, z. split; [reflexivity|].
    exact (generate_positions_nonneg {| BinPacker.container := c |} ps
             Hc Hg x y z Hin).
  - apply (set_orientation_nonneg item item1 o Hitem H1).
  - apply (set_orientation_nonneg item item1 o Hitem H1).
  - apply (set_orientation_nonneg item item1 o Hitem H1).
Qed.

Lemma expanded_sorted_dims_nonneg (items : list Item.t) :
  Forall dims_nonneg items →
  Forall dims_nonneg (BinPacker.expanded_sorted items).
Proof.
  rewrite !Forall_forall. intros H u Hu.
  apply elem_of_expanded_sorted in Hu as (it & i & Hit & _ & ->).
  exact (H it Hit).
Qed.

Lemma pack_units_fixed_capacity (units units' : list Item.t)
    (self self' : BinPacker.t) :
  BinPacker.pack_units self units = Ok (self', units') →
  Container.length (BinPacker.container self')
    = Container.length (BinPacker.container self) ∧
  Container.width (BinPacker.container self')
    = Container.width (BinPacker.container self) ∧
  Container.height (BinPacker.container self')
    = Container.height (BinPacker.container self) ∧
  Container.max_weight (BinPacker.container self')
    = Container.max_weight (BinPacker.container self).
Proof.
  intros Hrun.
  apply (pack_units_preserves
           (λ c, Container.length c
                   = Container.length (BinPacker.container self) ∧
                 Container.width c
                   = Container.width (BinPacker.container self) ∧
                 Container.height c
                   = Container.height (BinPacker.container self) ∧
                 Container.max_weight c
                   = Container.max_weight (BinPacker.container self))
           (λ _, True))
    with (units := units) (units' := units') (self := self);
    [|tauto|apply Forall_true; auto|exact Hrun].
  intros c item o item1 ps x y z Hc _ _ _ _ _. exact Hc.
Qed.

(** * The claims *)

(** C1.  In the container returned by a run of [pack], any two distinct
    entries of the placed sequence have disjoint bounding boxes (position
    plus active dimensions): the six-way disjointness test holds for
    them, that is, their intervals do not overlap on all three axes at
    once, and no point lies in both boxes. *)
Theorem pack_placed_units_disjoint (L W H MW : Z) (items : list Item.t)
    (c : Container.t) :
  BinPacker.pack (BinPacker.init L W H MW) items = Ok c →
  ∀ (i j : nat) (a b : Item.t),
    i ≠ j → Container.items c !! i = Some a → Container.items c !! j = Some b →
    units_disjoint a b ∧ ¬ units_overlap a b ∧
    ∀ p, ¬ (in_box a p ∧ in_box b p).
Proof.
  intros (self' & units' & Hrun & ->)%pack_Ok i j a b Hij Ha Hb.
  apply pack_units_container_inv in Hrun as (_ & _ & Hd & _);
    [|apply init_container_inv].
  pose proof (Hd i j a b Hij Ha Hb) as Hab.
  split; [exact Hab|].
  split; [exact (units_disjoint_not_overlap a b Hab)|].
  intros p. exact (units_disjoint_no_common_point a b p Hab).
Qed.

Lemma pack_placed_units_disjoint_witness :
  ∃ c a b,
    BinPacker.pack (BinPacker.init 100 50 50 1000) [box "a" 50 50 50 10 3]
      = Ok c ∧
    Container.items c !! 0%nat = Some a ∧
    Container.items c !! 1%nat = Some b ∧
    units_disjoint a b ∧ ¬ units_overlap a b ∧
    ∀ p, ¬ (in_box a p ∧ in_box b p).
Proof.
  eexists _, _, _.
  split; [vm_compute; reflexivity|].
  split; [reflexivity|]. split; [reflexivity|].
  apply (pack_placed_units_disjoint 100 50 50 1000
           [box "a" 50 50 50 10 3] _ ltac:(vm_compute; reflexivity)
           0%nat 1%nat); [lia | reflexivity | reflexivity].
Defined.

(** C2 (as amended).  In the container returned by a run of [pack], whose
    dimensions are the ones the packer was created with, every placed unit
    has a position and [position + active dimensions] is componentwise at
    most the container dimensions; if every nominal dimension of every
    input item is non-negative, every position is non-negative on every
    axis. *)
Theorem pack_placed_units_within_container (L W H MW : Z)
    (items : list Item.t) (c : Container.t) :
  BinPacker.pack (BinPacker.init L W H MW) items = Ok c →
  (Container.length c = L ∧ Container.width c = W ∧
   Container.height c = H) ∧
  Forall (within_container c) (Container.items c) ∧
  (Forall dims_nonneg items → Forall position_nonneg (Container.items c)).
Proof.
  intros (self' & units' & Hrun & ->)%pack_Ok.
  split; [|split].
  - apply pack_units_fixed_capacity in Hrun. simpl in Hrun. tauto.
  - apply pack_units_container_inv in Hrun as (_ & Hb & _);
      [exact Hb | apply init_container_inv].
  - intros Hitems.
    apply pack_units_placed_nonneg in Hrun.
    + eapply Forall_impl; [exact Hrun|]. simpl. tauto.
    + constructor.
    + exact (expanded_sorted_dims_nonneg items Hitems).
Qed.

Lemma pack_placed_units_within_container_witness :
  ∃ c,
    BinPacker.pack (BinPacker.init 100 50 50 1000) [box "a" 50 50 50 10 3]
      = Ok c ∧
    Forall (within_container c) (Container.items c) ∧
    Forall position_nonneg (Container.items c).
Proof.
  eexists. split; [vm_compute; reflexivity|].
  pose proof (pack_placed_units_within_container 100 50 50 1000
                [box "a" 50 50 50 10 3] _ ltac:(vm_compute; reflexivity))
    as (_ & Hb & Hn).
  split; [exact Hb|]. apply Hn.
  repeat constructor; simpl; lia.
Defined.

(** C2, as stated, fails: an item with a negative dimension is accepted,
    its corner becomes a candidate, and the next unit is placed at a
    negative coordinate. *)
Lemma pack_negative_position :
  ∃ c it,
    BinPacker.pack (BinPacker.init 10 10 10 100)
      [box "a" (-5) 1 1 2 1; box "b" 1 1 1 1 1] = Ok c ∧
    it ∈ Container.items c ∧
    Item.name it = "b_1"%string ∧
    Item.position it = Some (-5, 0, 0).
Proof.
  eexists _, _. split; [vm_compute; reflexivity|].
  split; [right; left|]. split; reflexivity.
Defined.

(** C3 (as amended).  On input where every item weight is positive and
    [max_weight] is non-negative, at every state of the run (after each
    prefix of the sorted units, hence also in the returned container)
    [current_weight] is the sum of the weights of the placed units and is
    at most [max_weight]; a run over a sequence of units passes through the
    states of the runs over its prefixes.  The container changes only by
    the commit of an iteration that found a valid pair: that commit appends
    the unit and adds its weight after the weight check has passed; an
    iteration without a valid pair leaves the packer as it is.  (The
    hypothesis on the item weights is not used by the proof.) *)
Theorem pack_weight_invariant (L W H MW : Z) (items : list Item.t) :
  0 ≤ MW →
  Forall (λ it, 0 < Item.weight it) items →
  (∀ pre suf self' done,
     BinPacker.expanded_sorted items = pre ++ suf →
     BinPacker.pack_units (BinPacker.init L W H MW) pre = Ok (self', done) →
     Container.current_weight (BinPacker.container self')
       = total_weight (Container.items (BinPacker.container self')) ∧
     Container.current_weight (BinPacker.container self') ≤ MW ∧
     Container.max_weight (BinPacker.container self') = MW) ∧
  (∀ c, BinPacker.pack (BinPacker.init L W H MW) items = Ok c →
     Container.current_weight c = total_weight (Container.items c) ∧
     Container.current_weight c ≤ MW ∧
     Container.max_weight c = MW) ∧
  (∀ self pre suf,
     BinPacker.pack_units self (pre ++ suf) =
       '(self1, pre') ← BinPacker.pack_units self pre;
       '(self2, suf') ← BinPacker.pack_units self1 suf;
       Ok (self2, pre' ++ suf')) ∧
  (∀ self item self' item',
     (BinPacker.pack_item self item = Ok (self', item', true) →
        Container.current_weight (BinPacker.container self)
          + Item.weight item
          ≤ Container.max_weight (BinPacker.container self) ∧
        Container.current_weight (BinPacker.container self')
          = Container.current_weight (BinPacker.container self)
            + Item.weight item ∧
        Container.items (BinPacker.container self')
          = Container.items (BinPacker.container self) ++ [item'] ∧
        Item.weight item' = Item.weight item) ∧
     (BinPacker.pack_item self item = Ok (self', item', false) →
        self' = self)).
Proof.
  intros HMW _.
  assert (∀ units self' done,
            BinPacker.pack_units (BinPacker.init L W H MW) units
              = Ok (self', done) →
            Container.current_weight (BinPacker.container self')
              = total_weight (Container.items (BinPacker.container self')) ∧
            Container.current_weight (BinPacker.container self') ≤ MW ∧
            Container.max_weight (BinPacker.container self') = MW) as Hstate.
  { intros units self' done Hrun.
    pose proof (pack_units_fixed_capacity _ _ _ _ Hrun) as (_ & _ & _ & Hmw).
    simpl in Hmw. split; [|split; [|exact Hmw]].
    - apply pack_units_container_inv in Hrun as (_ & _ & _ & Hw);
        [exact Hw | apply init_container_inv].
    - rewrite <- Hmw.
      apply (pack_units_weight_le units done (BinPacker.init L W H MW));
        [exact HMW | exact Hrun]. }
  split; [|split; [|split]].
  - intros pre suf self' done _. apply Hstate.
  - intros c (self' & units' & Hrun & ->)%pack_Ok.
    exact (Hstate _ _ _ Hrun).
  - apply pack_units_app.
  - intros self item self' item'. split.
    + intros (ps & before & x & y & z & o & after & item1 & _ & _ & _ & H1
              & Hv & Hadd)%pack_item_placed.
      apply is_valid_true in Hv as (_ & Hw & _).
      apply set_orientation_frame in H1 as (_ & _ & H1 & _).
      injection Hadd as -> ->. simpl. rewrite <- H1. tauto.
    + intros (ps & _ & -> & _)%pack_item_unplaced. reflexivity.
Qed.

Lemma pack_weight_invariant_witness :
  ∃ c,
    BinPacker.pack (BinPacker.init 100 50 50 1000) [box "a" 50 50 50 10 3]
      = Ok c ∧
    Container.current_weight c = total_weight (Container.items c) ∧
    Container.current_weight c ≤ 1000 ∧
    Container.max_weight c = 1000.
Proof.
  eexists. split; [vm_compute; reflexivity|].
  apply (pack_weight_invariant 100 50 50 1000 [box "a" 50 50 50 10 3]).
  - lia.
  - repeat constructor.
  - vm_compute. reflexivity.
Defined.

(** C3, as stated, fails: with a negative [max_weight] nothing is placed
    and the running weight [0] of the returned container exceeds it. *)
Lemma pack_negative_max_weight :
  ∃ c,
    BinPacker.pack (BinPacker.init 10 10 10 (-1)) [box "a" 1 1 1 5 1] = Ok c ∧
    Forall (λ it, 0 < Item.weight it) [box "a" 1 1 1 5 1] ∧
    Container.current_weight c = total_weight (Container.items c) ∧
    Container.max_weight c < Container.current_weight c.
Proof.
  eexists. split; [vm_compute; reflexivity|].
  split; [repeat constructor|]. split; [reflexivity|]. simpl. lia.
Defined.

(** C5.  On a container whose placed units all have a position (every
    container the engine reaches is such), [generate_positions] returns a
    sequence whose elements are exactly [(0,0,0)] and, for every placed
    unit at [(x,y,z)] with active dimensions [(d1,d2,d3)], the corners
    [(x+d1,y,z)], [(x,y+d2,z)] and [(x,y,z+d3)]; it has no duplicates and is
    strictly increasing for the key ([x], then [z], then [y]).  Each
    iteration of the placement loop starts by computing this sequence from
    the container state it is entered with. *)
Theorem generate_positions_extreme_points (self : BinPacker.t) :
  positioned (BinPacker.container self) →
  ∃ ps,
    BinPacker.generate_positions self = Ok ps ∧
    (∀ p, p ∈ ps ↔
       p = (0, 0, 0) ∨
       ∃ it x y z,
         it ∈ Container.items (BinPacker.container self) ∧
         Item.position it = Some (x, y, z) ∧
         (p = (x + Item.length it, y, z) ∨
          p = (x, y + Item.width it, z) ∨
          p = (x, y, z + Item.height it))) ∧
    NoDup ps ∧
    StronglySorted position_lt ps ∧
    (∀ u rest,
       BinPacker.pack_units self (u :: rest) =
         ps' ← BinPacker.generate_positions self;
         '(c, u', _) ← BinPacker.try_positions (BinPacker.container self) u ps';
         '(self2, rest') ←
           BinPacker.pack_units {| BinPacker.container := c |} rest;
         Ok (self2, u' :: rest')).
Proof.
  intros Hpos.
  destruct (generate_positions_by_total elements self Hpos) as [ps Hps].
  fold (BinPacker.generate_positions self) in Hps.
  exists ps. split; [exact Hps|].
  pose proof (generate_positions_Ok self ps Hps) as [Hin Hsorted].
  split; [|split; [|split; [exact Hsorted|]]].
  - intros p. rewrite Hin. unfold corner_of. split.
    + intros [->|(it & Hit & x & y & z & Hp & Hc)]; [auto|].
      right. exists it, x, y, z. auto.
    + intros [->|(it & x & y & z & Hit & Hp & Hc)]; [auto|].
      right. exists it. split; [exact Hit|]. exists x, y, z. auto.
  - revert Hps.
    unfold BinPacker.generate_positions, BinPacker.generate_positions_by.
    destruct (BinPacker.add_corners _ _) as [pos|e]; [|discriminate].
    rewrite bind_Ok. intros [= <-].
    rewrite sorted_perm. apply NoDup_elements.
  - intros u rest. rewrite pack_units_cons.
    unfold BinPacker.pack_item, BinPacker.pack_item_by.
    fold (BinPacker.generate_positions self).
    destruct (BinPacker.generate_positions self) as [ps'|e]; [|reflexivity].
    rewrite !bind_Ok.
    destruct (BinPacker.try_positions _ u ps') as [[[c u'] placed]|e];
      reflexivity.
Qed.

Lemma generate_positions_extreme_points_witness :
  ∃ ps,
    BinPacker.generate_positions
      {| BinPacker.container :=
           (Container.add_item (Container.init 100 50 50 1000)
              (box "a" 50 50 50 10 1) 0 0 0).1 |} = Ok ps ∧
    ps = [(0, 0, 0); (0, 50, 0); (0, 0, 50); (50, 0, 0)] ∧
    NoDup ps ∧ StronglySorted position_lt ps.
Proof.
  destruct (generate_positions_extreme_points
              {| BinPacker.container :=
                   (Container.add_item (Container.init 100 50 50 1000)
                      (box "a" 50 50 50 10 1) 0 0 0).1 |})
    as (ps & Hps & _ & Hnd & Hs & _).
  - repeat constructor. simpl. eauto.
  - exists ps. split; [exact Hps|]. split; [|split; assumption].
    vm_compute in Hps. injection Hps as <-. reflexivity.
Defined.

Lemma candidate_pairs_app (ps1 ps2 : list Pos) (os : list string) :
  candidate_pairs (ps1 ++ ps2) os
  = candidate_pairs ps1 os ++ candidate_pairs ps2 os.
Proof.
  induction ps1 as [|p ps1 IH]; [reflexivity|].
  rewrite <- app_comm_cons, !candidate_pairs_cons, IH, app_assoc.
  reflexivity.
Qed.

Lemma candidate_pairs_last (ps : list Pos) (p : Pos) (os : list string)
    (o : string) :
  last (candidate_pairs (ps ++ [p]) (os ++ [o])) = Some (p, o).
Proof.
  rewrite candidate_pairs_app, candidate_pairs_cons, fmap_app.
  change (candidate_pairs [] (os ++ [o])) with (@nil (Pos * string)).
  rewrite app_nil_r, !app_assoc. apply last_snoc.
Qed.

Lemma generate_positions_nonempty (self : BinPacker.t) (ps : list Pos) :
  BinPacker.generate_positions self = Ok ps → ∃ p ps', ps = p :: ps'.
Proof.
  intros [Hin _]%generate_positions_Ok.
  destruct ps as [|p ps']; [|eauto].
  assert ((0, 0, 0) ∈ @nil Pos) as H by (apply Hin; auto).
  inversion H.
Qed.

Lemma units_order (items : list Item.t) :
  BinPacker.expanded_sorted items ≡ₚ BinPacker.expand items ∧
  StronglySorted unit_before (BinPacker.expanded_sorted items) ∧
  (∀ w,
     filter (λ u, Item.weight w = Item.weight u ∧
                  Item.get_volume w = Item.get_volume u)
       (BinPacker.expanded_sorted items)
     = filter (λ u, Item.weight w = Item.weight u ∧
                    Item.get_volume w = Item.get_volume u)
         (BinPacker.expand items)).
Proof.
  unfold BinPacker.expanded_sorted. split; [apply sorted_perm|]. split.
  - pose proof (sorted_sorted BinPacker.unit_key tuple2_le tuple2_le_total
                  tuple2_le_trans (BinPacker.expand items)) as Hs.
    eapply StronglySorted_weaken; [|exact Hs]. intros a b. apply unit_key_le.
  - intros w.
    etrans;
      [symmetry; apply (list_filter_iff
                          (same_key BinPacker.unit_key tuple2_le w));
       intros u; apply same_unit_key|].
    etrans; [apply sorted_stable; exact tuple2_le_trans|].
    apply list_filter_iff. intros u. apply same_unit_key.
Qed.

(** C6.  The units are processed in the order of the stable sort of the
    expanded sequence, descending by weight and then by volume.  For each
    unit the candidate pairs are scanned position by position (in the order
    of [generate_positions]) and, at each position, orientation by
    orientation (in the order of the preference list); the unit is
    committed at the first pair on which [is_valid] answers [True],
    whatever follows that pair, and nothing placed before is touched.
    When the validity check answers [False] on every pair, the unit is
    left unplaced, the packer is unchanged and the loop goes on with the
    next unit. *)
Theorem pack_is_first_fit (self : BinPacker.t) (items : list Item.t) :
  (BinPacker.expanded_sorted items ≡ₚ BinPacker.expand items ∧
   StronglySorted unit_before (BinPacker.expanded_sorted items) ∧
   (∀ w,
      filter (λ u, Item.weight w = Item.weight u ∧
                   Item.get_volume w = Item.get_volume u)
        (BinPacker.expanded_sorted items)
      = filter (λ u, Item.weight w = Item.weight u ∧
                     Item.get_volume w = Item.get_volume u)
          (BinPacker.expand items))) ∧
  BinPacker.pack self items =
    ('(self', _) ←
       BinPacker.pack_units self (BinPacker.expanded_sorted items);
     Ok (BinPacker.container self')) ∧
  (∀ self0 u rest,
     BinPacker.pack_units self0 (u :: rest) =
       '(self1, u', _) ← BinPacker.pack_item self0 u;
       '(self2, rest') ← BinPacker.pack_units self1 rest;
       Ok (self2, u' :: rest')) ∧
  (∀ self0 u,
     BinPacker.pack_item self0 u =
       ps ← BinPacker.generate_positions self0;
       '(c, u', placed) ←
         first_fit_place (BinPacker.container self0) u ps;
       Ok ({| BinPacker.container := c |}, u', placed)) ∧
  (∀ (p : Pos) ps os,
     candidate_pairs [] os = [] ∧
     candidate_pairs (p :: ps) os = (pair p <$> os) ++ candidate_pairs ps os) ∧
  (∀ c u ps c' u',
     first_fit_place c u ps = Ok (c', u', true) ↔
     ∃ before x y z o after u1,
       candidate_pairs ps (Item.orientation_preference u)
         = before ++ (x, y, z, o) :: after ∧
       Forall (λ q, validates c u q = Ok false) before ∧
       Item.set_orientation u o = Ok u1 ∧
       Container.is_valid c u1 x y z = Ok true ∧
       (c', u') = Container.add_item c u1 x y z) ∧
  (∀ c u1 x y z,
     ∃ placed_unit,
       Container.add_item c u1 x y z
       = ({| Container.length := Container.length c;
             Container.width := Container.width c;
             Container.height := Container.height c;
             Container.max_weight := Container.max_weight c;
             Container.items := Container.items c ++ [placed_unit];
             Container.current_weight :=
               Container.current_weight c + Item.weight u1 |},
          placed_unit)) ∧
  (∀ self0 u ps rest,
     BinPacker.generate_positions self0 = Ok ps →
     Forall (λ q, validates (BinPacker.container self0) u q = Ok false)
       (candidate_pairs ps (Item.orientation_preference u)) →
     ∃ u',
       BinPacker.pack_item self0 u = Ok (self0, u', false) ∧
       BinPacker.pack_units self0 (u :: rest) =
         '(self2, rest') ← BinPacker.pack_units self0 rest;
         Ok (self2, u' :: rest')).
Proof.
  split; [apply units_order|].
  split; [reflexivity|].
  split; [intros; apply pack_units_cons|].
  split; [intros; apply pack_item_unfold|].
  split; [intros; split; [reflexivity | apply candidate_pairs_cons]|].
  split; [intros; apply first_fit_place_placed|].
  split; [intros; eexists; reflexivity|].
  intros self0 u ps rest Hg Hf.
  destruct (last_tried_None (BinPacker.container self0) u u
              (candidate_pairs ps (Item.orientation_preference u))
              (same_unit_refl u)) as (u' & Hl & _).
  { apply first_fit_None, Hf. }
  assert (BinPacker.pack_item self0 u = Ok (self0, u', false)) as Hi.
  { apply pack_item_unplaced. exists ps. auto. }
  exists u'. split; [exact Hi|].
  rewrite pack_units_cons, Hi, bind_Ok. reflexivity.
Qed.

(** C10.  When an iteration of the placement loop ends without placing the
    unit, the packer is unchanged (nothing is appended to the placed
    sequence, [current_weight] is the same) and the loop goes on from that
    same state; the unit object keeps its position (unset for a fresh
    unit) but is left with the last orientation of its preference list
    applied: its active dimensions are the ones of that code and its
    rotation is that code. *)
Theorem pack_item_unplaced_frame (self self' : BinPacker.t)
    (item item' : Item.t) :
  BinPacker.pack_item self item = Ok (self', item', false) →
  self' = self ∧
  Container.items (BinPacker.container self')
    = Container.items (BinPacker.container self) ∧
  Container.current_weight (BinPacker.container self')
    = Container.current_weight (BinPacker.container self) ∧
  Item.position item' = Item.position item ∧
  (Item.position item = None → Item.position item' = None) ∧
  (∀ pre o,
     Item.orientation_preference item = pre ++ [o] →
     Item.set_orientation item o = Ok item' ∧
     Item.get_dimensions item o
       = Ok (Item.length item', Item.width item', Item.height item') ∧
     Item.rotation item' = Some o) ∧
  (∀ rest,
     BinPacker.pack_units self (item :: rest) =
       '(self2, rest') ← BinPacker.pack_units self rest;
       Ok (self2, item' :: rest')).
Proof.
  intros Hi.
  pose proof Hi as (ps & Hg & -> & Hf & Hl)%pack_item_unplaced.
  split; [reflexivity|]. split; [reflexivity|]. split; [reflexivity|].
  assert (∀ pre o, Item.orientation_preference item = pre ++ [o] →
                   Item.set_orientation item o = Ok item') as Hlast.
  { intros pre o Hpre.
    destruct (generate_positions_nonempty self ps Hg) as (p & ps' & ->).
    destruct (exists_last (l := p :: ps') ltac:(discriminate))
      as (ps0 & p0 & Heq).
    rewrite Heq, Hpre in Hl. unfold last_tried in Hl.
    rewrite candidate_pairs_last in Hl. exact Hl. }
  assert (Item.position item' = Item.position item) as Hpos.
  { destruct (Item.orientation_preference item) as [|o os _] eqn:Hp
      using rev_ind.
    - unfold last_tried in Hl.
      assert (candidate_pairs ps [] = []) as Hnil.
      { clear. induction ps as [|p ps IH]; [reflexivity|].
        rewrite candidate_pairs_cons. exact IH. }
      rewrite Hnil in Hl. injection Hl as <-. reflexivity.
    - specialize (Hlast os o eq_refl).
      apply set_orientation_frame in Hlast. tauto. }
  split; [exact Hpos|]. split; [congruence|]. split.
  - intros pre o Hpre. pose proof (Hlast pre o Hpre) as Hs.
    split; [exact Hs|]. split; [exact (set_orientation_dims _ _ _ Hs)|].
    apply set_orientation_frame in Hs. tauto.
  - intros rest. rewrite pack_units_cons, Hi, bind_Ok. reflexivity.
Qed.

Lemma pack_item_unplaced_frame_witness :
  ∃ item',
    BinPacker.pack_item (BinPacker.init 50 50 50 5)
      (box_with "a" 10 20 30 10 1 ["lwh"; "hwl"])
      = Ok (BinPacker.init 50 50 50 5, item', false) ∧
    Item.position item' = None ∧
    (Item.length item', Item.width item', Item.height item') = (30, 20, 10) ∧
    Item.rotation item' = Some "hwl"%string.
Proof.
  eexists. split; [vm_compute; reflexivity|].
  destruct (pack_item_unplaced_frame (BinPacker.init 50 50 50 5) _
              (box_with "a" 10 20 30 10 1 ["lwh"; "hwl"]) _
              ltac:(vm_compute; reflexivity))
    as (_ & _ & _ & _ & Hpos & Hlast & _).
  split; [apply Hpos; reflexivity|].
  destruct (Hlast ["lwh"%string] "hwl"%string eq_refl) as (_ & Hd & Hr).
  split; [|exact Hr].
  enough (∀ t, Item.get_dimensions
                 (box_with "a" 10 20 30 10 1 ["lwh"; "hwl"]) "hwl" = Ok t →
               t = (30, 20, 10)) as Hen by exact (Hen _ Hd).
  intros t Ht. vm_compute in Ht. congruence.
Defined.

Lemma pack_by_enum (enum : gset Pos → list Pos) (self : BinPacker.t)
    (items : list Item.t) :
  (∀ s, enum s ≡ₚ elements s) →
  BinPacker.pack_by enum self items = BinPacker.pack self items.
Proof.
  intros Henum. unfold BinPacker.pack, BinPacker.pack_by.
  rewrite (pack_units_by_enum enum self _ Henum). reflexivity.
Qed.

(** C9.  The result of a run is a function of the packer and of the item
    list alone: it does not depend on the order in which Python iterates
    the set of candidate positions (any two iteration orders give the same
    container and the same final unit states, hence the same positions,
    orientation codes, placed order and placed/unplaced split), and the
    processing order of the units is the only sorted arrangement of the
    expanded sequence that keeps the order of units with equal keys. *)
Theorem pack_deterministic (enum1 enum2 : gset Pos → list Pos)
    (self : BinPacker.t) (items : list Item.t) :
  (∀ s, enum1 s ≡ₚ elements s) →
  (∀ s, enum2 s ≡ₚ elements s) →
  BinPacker.pack_by enum1 self items = BinPacker.pack_by enum2 self items ∧
  BinPacker.pack_units_by enum1 self (BinPacker.expanded_sorted items)
    = BinPacker.pack_units_by enum2 self (BinPacker.expanded_sorted items) ∧
  BinPacker.generate_positions_by enum1 self
    = BinPacker.generate_positions_by enum2 self ∧
  (∀ units,
     StronglySorted unit_before units →
     (∀ w,
        filter (λ u, Item.weight w = Item.weight u ∧
                     Item.get_volume w = Item.get_volume u) units
        = filter (λ u, Item.weight w = Item.weight u ∧
                       Item.get_volume w = Item.get_volume u)
            (BinPacker.expand items)) →
     units = BinPacker.expanded_sorted items).
Proof.
  intros H1 H2.
  split; [rewrite !pack_by_enum by assumption; reflexivity|].
  split; [rewrite !pack_units_by_enum by assumption; reflexivity|].
  split; [rewrite !generate_positions_by_enum by assumption; reflexivity|].
  intros units Hs Hf.
  destruct (units_order items) as (_ & Hs' & Hf').
  apply (stable_sort_unique BinPacker.unit_key tuple2_le tuple2_le_total).
  - eapply StronglySorted_weaken; [|exact Hs]. intros a b. apply unit_key_le.
  - eapply StronglySorted_weaken; [|exact Hs']. intros a b. apply unit_key_le.
  - intros w.
    etrans; [apply (list_filter_iff _
                      (λ u, Item.weight w = Item.weight u ∧
                            Item.get_volume w = Item.get_volume u));
             intros u; apply same_unit_key|].
    rewrite Hf, <- Hf'.
    apply list_filter_iff. intros u. symmetry. apply same_unit_key.
Qed.

Lemma pack_deterministic_witness :
  BinPacker.pack_by elements (BinPacker.init 100 50 50 1000)
    [box "a" 50 50 50 10 3]
  = BinPacker.pack_by (λ s, reverse (elements s))
      (BinPacker.init 100 50 50 1000) [box "a" 50 50 50 10 3].
Proof.
  apply (pack_deterministic elements (λ s, reverse (elements s))).
  - intros s. reflexivity.
  - intros s. apply reverse_Permutation.
Defined.

(** ** Faults of a run *)

Lemma pack_item_container_inv (self self' : BinPacker.t) (item item' : Item.t)
    (placed : bool) :
  container_inv (BinPacker.container self) →
  BinPacker.pack_item self item = Ok (self', item', placed) →
  container_inv (BinPacker.container self').
Proof.
  intros Hinv Hi.
  apply (pack_units_container_inv [item] [item'] self self' Hinv).
  rewrite pack_units_cons, Hi, bind_Ok. reflexivity.
Qed.

Lemma pack_units_Raise (units : list Item.t) (self : BinPacker.t) (e : exn) :
  container_inv (BinPacker.container self) →
  BinPacker.pack_units self units = Raise e →
  ∃ u o, u ∈ units ∧ o ∈ Item.orientation_preference u ∧
         (o ∉ orientation_codes) ∧ e = KeyError o.
Proof.
  revert self. induction units as [|u units IH]; intros self Hinv;
    [discriminate|].
  rewrite pack_units_cons.
  destruct (BinPacker.pack_item self u) as [[[self1 u'] placed]|e'] eqn:Hi.
  - rewrite bind_Ok.
    destruct (BinPacker.pack_units self1 units) as [[self2 rest']|e'] eqn:Hr;
      [discriminate|].
    intros [= <-].
    destruct (IH self1 (pack_item_container_inv _ _ _ _ _ Hinv Hi) Hr)
      as (u0 & o & Hu0 & H).
    exists u0, o. split; [right; exact Hu0 | exact H].
  - intros [= <-].
    apply pack_item_Raise in Hi as [(o & Ho & Hn & ->)|Hn].
    + exists u, o. split; [left | auto].
    + destruct Hinv as [Hp _]. contradiction.
Qed.

(** An invalid first code faults in the iteration that reaches the unit. *)
Lemma pack_item_invalid_first_code (self : BinPacker.t) (u : Item.t)
    (o : string) (os : list string) :
  positioned (BinPacker.container self) →
  Item.orientation_preference u = o :: os →
  o ∉ orientation_codes →
  BinPacker.pack_item self u = Raise (KeyError o).
Proof.
  intros Hp Hu Ho. rewrite pack_item_unfold.
  destruct (generate_positions_by_total elements self Hp) as [ps Hps].
  fold (BinPacker.generate_positions self) in Hps.
  destruct (generate_positions_nonempty self ps Hps) as ([[x y] z] & ps' & ->).
  rewrite Hps, bind_Ok. unfold first_fit_place.
  rewrite Hu, candidate_pairs_cons, fmap_cons, <- app_comm_cons.
  rewrite search_from_cons.
  assert (Item.set_orientation u o = Raise (KeyError o)) as ->.
  { apply set_orientation_Raise. auto. }
  reflexivity.
Qed.

Lemma pack_units_invalid_first_code (units : list Item.t) (self : BinPacker.t)
    (u : Item.t) (o : string) (os : list string) :
  container_inv (BinPacker.container self) →
  u ∈ units →
  Item.orientation_preference u = o :: os →
  o ∉ orientation_codes →
  ∃ o', (o' ∉ orientation_codes) ∧
        BinPacker.pack_units self units = Raise (KeyError o').
Proof.
  intros Hinv Hu Hpref Ho.
  destruct (BinPacker.pack_units self units) as [[self' units']|e] eqn:Hrun.
  - exfalso. revert self self' units' Hinv Hrun.
    induction Hu as [u units|u u0 units Hu IH];
      intros self self' units' Hinv; rewrite pack_units_cons.
    + rewrite (pack_item_invalid_first_code self u o os);
        [discriminate | apply Hinv | exact Hpref | exact Ho].
    + destruct (BinPacker.pack_item self u0) as [[[self1 u'] placed]|e]
        eqn:Hi; [|discriminate].
      rewrite bind_Ok.
      destruct (BinPacker.pack_units self1 units) as [[self2 rest']|e]
        eqn:Hr; [|discriminate].
      intros _.
      exact (IH Hpref self1 self2 rest'
               (pack_item_container_inv _ _ _ _ _ Hinv Hi) Hr).
  - apply pack_units_Raise in Hrun as (u0 & o' & _ & _ & Hn & ->);
      [|exact Hinv].
    exists o'. auto.
Qed.

Lemma pack_Raise (self : BinPacker.t) (items : list Item.t) (e : exn) :
  BinPacker.pack self items = Raise e ↔
  BinPacker.pack_units self (BinPacker.expanded_sorted items) = Raise e.
Proof.
  unfold BinPacker.pack, BinPacker.pack_by.
  fold (BinPacker.pack_units self (BinPacker.expanded_sorted items)).
  destruct (BinPacker.pack_units self _) as [[self' units']|e'].
  - rewrite bind_Ok. split; discriminate.
  - split; intros [= <-]; reflexivity.
Qed.

Lemma expand_cons (it : Item.t) (items : list Item.t) :
  BinPacker.expand (it :: items)
  = (Item.unit_copy it <$> seqZ 0 (Item.quantity it))
      ++ BinPacker.expand items.
Proof. reflexivity. Qed.

(** C7 (as amended).  The engine does not validate its input.  Whatever
    the container dimensions, [max_weight], item dimensions, weights and
    quantities are, [pack] returns a container as soon as every
    orientation code of the items with a positive quantity is one of the
    six; an item with a quantity [≤ 0] expands to no unit; [Item.__init__]
    replaces a missing or empty preference list by [["lwh"]] and keeps any
    other list as it is.  The only fault of a run is the [KeyError] of an
    orientation code outside the six, raised by the iteration of the
    placement loop that applies the code: it is raised whenever the first
    code of a unit is invalid. *)
Theorem pack_performs_no_validation (L W H MW : Z) (items : list Item.t) :
  (∀ e, BinPacker.pack (BinPacker.init L W H MW) items = Raise e →
     ∃ it o, it ∈ items ∧ 0 < Item.quantity it ∧
             o ∈ Item.orientation_preference it ∧
             (o ∉ orientation_codes) ∧ e = KeyError o) ∧
  ((∀ it o, it ∈ items → 0 < Item.quantity it →
            o ∈ Item.orientation_preference it → o ∈ orientation_codes) →
   ∃ c, BinPacker.pack (BinPacker.init L W H MW) items = Ok c) ∧
  (∀ it o os, it ∈ items → 0 < Item.quantity it →
     Item.orientation_preference it = o :: os → o ∉ orientation_codes →
     ∃ o', (o' ∉ orientation_codes) ∧
           BinPacker.pack (BinPacker.init L W H MW) items
           = Raise (KeyError o')) ∧
  (∀ self u o os,
     positioned (BinPacker.container self) →
     Item.orientation_preference u = o :: os → o ∉ orientation_codes →
     BinPacker.pack_item self u = Raise (KeyError o)) ∧
  (∀ it rest, Item.quantity it ≤ 0 →
     BinPacker.expand (it :: rest) = BinPacker.expand rest) ∧
  (∀ name l w h weight quantity fragile can_stack can_stack_same_type
     item_type color,
     Item.orientation_preference
       (Item.init name l w h weight quantity None
          fragile can_stack can_stack_same_type item_type color)
     = ["lwh"%string] ∧
     Item.orientation_preference
       (Item.init name l w h weight quantity (Some [])
          fragile can_stack can_stack_same_type item_type color)
     = ["lwh"%string] ∧
     ∀ o os,
       Item.orientation_preference
         (Item.init name l w h weight quantity (Some (o :: os))
            fragile can_stack can_stack_same_type item_type color)
       = o :: os).
Proof.
  assert (∀ e, BinPacker.pack (BinPacker.init L W H MW) items = Raise e →
            ∃ it o, it ∈ items ∧ 0 < Item.quantity it ∧
                    o ∈ Item.orientation_preference it ∧
                    (o ∉ orientation_codes) ∧ e = KeyError o) as Hfault.
  { intros e Hrun%pack_Raise.
    apply pack_units_Raise in Hrun as (u & o & Hu & Ho & Hn & ->);
      [|apply init_container_inv].
    apply elem_of_expanded_sorted in Hu as (it & i & Hit & Hi & ->).
    exists it, o. split; [exact Hit|]. split; [lia|]. auto. }
  split; [exact Hfault|].
  split; [|split; [|split; [|split]]].
  - intros Hcodes.
    destruct (BinPacker.pack (BinPacker.init L W H MW) items) as [c|e] eqn:Hr;
      [eauto|].
    destruct (Hfault e eq_refl) as (it & o & Hit & Hq & Ho & Hn & _).
    destruct (Hn (Hcodes it o Hit Hq Ho)).
  - intros it o os Hit Hq Hpref Ho.
    destruct (pack_units_invalid_first_code
                (BinPacker.expanded_sorted items) (BinPacker.init L W H MW)
                (Item.unit_copy it 0) o os) as (o' & Hn & Hrun).
    + apply init_container_inv.
    + apply elem_of_expanded_sorted. exists it, 0.
      split; [exact Hit|]. split; [lia | reflexivity].
    + exact Hpref.
    + exact Ho.
    + exists o'. split; [exact Hn|]. apply pack_Raise, Hrun.
  - intros self u o os. apply pack_item_invalid_first_code.
  - intros it rest Hq. rewrite expand_cons, seqZ_nil by exact Hq.
    reflexivity.
  - intros. repeat split; reflexivity.
Qed.

Lemma pack_performs_no_validation_witness :
  ∃ c,
    BinPacker.pack (BinPacker.init 0 (-1) 0 (-5))
      [box "a" 0 (-2) 3 (-1) 1; box "z" 1 1 1 1 0] = Ok c.
Proof.
  apply (pack_performs_no_validation 0 (-1) 0 (-5)
           [box "a" 0 (-2) 3 (-1) 1; box "z" 1 1 1 1 0]).
  intros it o Hit _ Ho.
  apply elem_of_orientation_codes. left.
  repeat (apply elem_of_cons in Hit as [->|Hit];
          [apply list_elem_of_singleton in Ho; exact Ho|]).
  inversion Hit.
Defined.

(** C7, as stated, fails: items with non-positive dimensions, weight or
    quantity are accepted and take part in the search (one of them is
    placed), a container with non-positive dimensions and [max_weight] is
    accepted, an empty preference list silently becomes [["lwh"]], an
    invalid code that the search never reaches goes unnoticed, and an
    invalid code that it reaches faults inside the placement loop, after
    another unit has been placed. *)
Lemma pack_accepts_malformed_input :
  (∃ c it,
     BinPacker.pack (BinPacker.init 10 10 10 100)
       [box "a" 0 (-2) 3 (-1) 1; box "z" 1 1 1 1 0; box "n" 1 1 1 1 (-3)]
       = Ok c ∧
     Container.items c = [it] ∧
     Item.name it = "a_1"%string ∧ Item.position it = Some (0, 0, 0)) ∧
  (∃ c,
     BinPacker.pack (BinPacker.init 0 (-1) 0 (-5)) [box "a" 1 1 1 1 1]
       = Ok c) ∧
  Item.orientation_preference (box_with "e" 1 1 1 1 1 []) = ["lwh"%string] ∧
  (∃ c it,
     BinPacker.pack (BinPacker.init 10 10 10 100)
       [box_with "x" 1 1 1 1 1 ["lwh"; "xyz"]] = Ok c ∧
     Container.items c = [it] ∧ Item.rotation it = Some "lwh"%string) ∧
  (∃ self1 done it,
     BinPacker.pack_units (BinPacker.init 10 10 10 100)
       (take 1 (BinPacker.expanded_sorted
                  [box "a" 1 1 1 2 1; box_with "x" 1 1 1 1 1 ["xyz"]]))
       = Ok (self1, done) ∧
     Container.items (BinPacker.container self1) = [it] ∧
     BinPacker.pack_units self1
       (drop 1 (BinPacker.expanded_sorted
                  [box "a" 1 1 1 2 1; box_with "x" 1 1 1 1 1 ["xyz"]]))
       = Raise (KeyError "xyz") ∧
     BinPacker.pack (BinPacker.init 10 10 10 100)
       [box "a" 1 1 1 2 1; box_with "x" 1 1 1 1 1 ["xyz"]]
       = Raise (KeyError "xyz")).
Proof.
  split; [eexists _, _; split; [vm_compute; reflexivity|];
          repeat split; reflexivity|].
  split; [eexists; vm_compute; reflexivity|].
  split; [reflexivity|].
  split; [eexists _, _; split; [vm_compute; reflexivity|];
          repeat split; reflexivity|].
  eexists _, _, _. split; [vm_compute; reflexivity|].
  split; [reflexivity|]. split; vm_compute; reflexivity.
Defined.

(** ** Instances of the claims on concrete inputs *)

Lemma orientation_codes_permute_nominal_dims_witness :
  Item.get_dimensions (box "a" 1 2 3 10 1) "whl" = Ok (2, 3, 1) ∧
  Item.get_volume (box "a" 1 2 3 10 1) = 6 ∧
  (∀ o, Item.get_dimensions (box "a" 1 2 3 10 1) o = Ok (2, 3, 1) →
        o = "whl"%string).
Proof.
  pose proof (orientation_codes_permute_nominal_dims (box "a" 1 2 3 10 1))
    as (Htable & _ & _ & _ & _ & Hinj & Hvol & _).
  simpl in Htable, Hinj, Hvol.
  split; [apply Htable|]. split; [exact Hvol|].
  intros o Ho.
  apply (Hinj ltac:(lia) ltac:(lia) ltac:(lia) o "whl"%string (2, 3, 1) Ho).
  apply Htable.
Defined.

Lemma is_valid_iff_bounds_weight_disjoint_witness :
  Container.is_valid one_box_container (box "b" 60 60 60 10 1) 60 0 0
    = Ok false ∧
  Container.is_valid one_box_container (box "b" 60 60 60 10 1) 0 0 0
    = Ok false ∧
  Container.is_valid one_box_container (box "b" 40 40 40 10 1) 60 0 0
    = Ok true.
Proof.
  split; [|split].
  - destruct (is_valid_iff_bounds_weight_disjoint one_box_container
                (box "b" 60 60 60 10 1) 60 0 0)
      as (_ & _ & Hbounds & _).
    apply Hbounds. simpl. lia.
  - destruct (is_valid_iff_bounds_weight_disjoint one_box_container
                (box "b" 60 60 60 10 1) 0 0 0)
      as (_ & _ & _ & _ & _ & Hoverlap & _).
    apply (Hoverlap [] (Item.set_position (box "a" 60 60 60 10 1) (0, 0, 0))
             []).
    + reflexivity.
    + constructor.
    + simpl. eauto.
    + intros (px & py & pz & [= <- <- <-] & Hd).
      unfold boxes_disjoint in Hd. simpl in Hd. lia.
  - destruct (is_valid_iff_bounds_weight_disjoint one_box_container
                (box "b" 40 40 40 10 1) 60 0 0)
      as (Htrue & _).
    apply Htrue. simpl. split; [lia|]. split; [lia|].
    intros other Hother. apply list_elem_of_singleton in Hother as ->.
    exists 0, 0, 0. split; [reflexivity|].
    unfold boxes_disjoint. simpl. lia.
Defined.

Lemma pack_is_first_fit_witness :
  ∃ u',
    BinPacker.pack_item {| BinPacker.container := one_box_container |}
      (Item.unit_copy (box "b" 60 60 60 10 1) 0)
    = Ok ({| BinPacker.container := one_box_container |}, u', false).
Proof.
  destruct (pack_is_first_fit
              {| BinPacker.container := one_box_container |} [])
    as (_ & _ & _ & _ & _ & _ & _ & Hunplaced).
  destruct (Hunplaced {| BinPacker.container := one_box_container |}
              (Item.unit_copy (box "b" 60 60 60 10 1) 0)
              [(0, 0, 0); (0, 60, 0); (0, 0, 60); (60, 0, 0)] [])
    as (u' & Hu' & _).
  - vm_compute. reflexivity.
  - repeat constructor.
  - exists u'. exact Hu'.
Defined.

(** * Further properties of the engine *)

(** ** Quantity expansion *)

Lemma unit_copy_name_inj (it : Item.t) (i j : Z) :
  Item.name (Item.unit_copy it i) = Item.name (Item.unit_copy it j) → i = j.
Proof.
  simpl. intros H.
  apply (inj (String.app (Item.name it))) in H.
  apply (inj (String.app "_")) in H.
  apply (inj pretty) in H. lia.
Qed.



(** ** What a run does to the units and to the placed sequence *)

Lemma same_nominal_refl (a : Item.t) : same_nominal a a.
Proof. unfold same_nominal. tauto. Qed.

Lemma set_orientation_same_nominal (u u1 : Item.t) (o : string) :
  Item.set_orientation u o = Ok u1 → same_nominal u u1.
Proof.
  intros (d1 & d2 & d3 & _ & ->)%set_orientation_Ok.
  unfold same_nominal. simpl. tauto.
Qed.

Lemma placed_from_facts (u : Item.t) (o : string) (p : Pos) (it : Item.t) :
  placed_from u o p it →
  same_nominal u it ∧
  Item.position it = Some p ∧
  Item.rotation it = Some o ∧
  o ∈ orientation_codes ∧
  Item.get_dimensions it o
    = Ok (Item.length it, Item.width it, Item.height it).
Proof.
  intros (Ho & u1 & H1 & ->).
  pose proof (set_orientation_same_nominal _ _ _ H1) as Hn.
  pose proof (set_orientation_dims _ _ _ H1) as Hd.
  pose proof (set_orientation_frame _ _ _ H1) as (Hod & _ & _ & _ & _ & Hr).
  split; [exact Hn|]. split; [reflexivity|]. split; [exact Hr|].
  split; [exact (get_dimensions_codes _ _ _ Hd)|].
  unfold Item.get_dimensions in *. simpl. rewrite Hod. exact Hd.
Qed.

Lemma last_tried_same_nominal (item item' : Item.t)
    (pairs : list (Pos * string)) :
  last_tried item item pairs = Ok item' →
  same_nominal item item' ∧ Item.position item' = Item.position item.
Proof.
  unfold last_tried. destruct (last pairs) as [[p o]|].
  - intros H. split; [exact (set_orientation_same_nominal _ _ _ H)|].
    apply set_orientation_frame in H. tauto.
  - intros [= <-]. split; [apply same_nominal_refl | reflexivity].
Qed.

(** One iteration, read as a step of [placement]. *)
Lemma pack_item_step (self self' : BinPacker.t) (item item' : Item.t)
    (placed : bool) :
  BinPacker.pack_item self item = Ok (self', item', placed) →
  if placed then
    ∃ o p,
      placed_from item o p item' ∧
      BinPacker.container self'
        = (Container.add_item (BinPacker.container self)
             (Item.set_position item' p) p.1.1 p.1.2 p.2).1 ∧
      Container.items (BinPacker.container self')
        = Container.items (BinPacker.container self) ++ [item'] ∧
      Container.current_weight (BinPacker.container self')
        = Container.current_weight (BinPacker.container self)
          + Item.weight item'
  else
    self' = self ∧ same_nominal item item' ∧
    Item.position item' = Item.position item.
Proof.
  destruct placed.
  - intros (ps & before & x & y & z & o & after & item1 & _ & Heq & _ & H1
            & _ & Hadd)%pack_item_placed.
    injection Hadd as Hc ->. exists o, (x, y, z).
    split; [|rewrite Hc; simpl; repeat split; reflexivity].
    split; [|eauto].
    assert ((x, y, z, o) ∈ candidate_pairs ps
              (Item.orientation_preference item)) as Hin.
    { rewrite Heq. apply elem_of_app. right. left. }
    apply elem_of_candidate_pairs in Hin. tauto.
  - intros (ps & _ & -> & _ & Hl)%pack_item_unplaced.
    split; [reflexivity|]. exact (last_tried_same_nominal _ _ _ Hl).
Qed.

Lemma pack_units_placement (units units' : list Item.t)
    (self self' : BinPacker.t) :
  BinPacker.pack_units self units = Ok (self', units') →
  ∃ new,
    placement units units' new ∧
    Container.items (BinPacker.container self')
      = Container.items (BinPacker.container self) ++ new ∧
    Container.current_weight (BinPacker.container self')
      = Container.current_weight (BinPacker.container self)
        + total_weight new.
Proof.
  revert self units'. induction units as [|u units IH]; intros self units'.
  - intros [= <- <-]. exists []. split; [constructor|].
    rewrite app_nil_r. simpl. split; [reflexivity | lia].
  - rewrite pack_units_cons.
    destruct (BinPacker.pack_item self u) as [[[self1 u'] placed]|e] eqn:Hi;
      [|discriminate].
    rewrite bind_Ok.
    destruct (BinPacker.pack_units self1 units) as [[self2 rest']|e] eqn:Hr;
      [|discriminate].
    rewrite bind_Ok. intros [= <- <-].
    destruct (IH self1 rest' Hr) as (new & Hpl & Hitems & Hw).
    apply pack_item_step in Hi. destruct placed.
    + destruct Hi as (o & p & Hfrom & _ & Hi & Hwi).
      exists (u' :: new). split; [econstructor; eassumption|].
      rewrite Hitems, Hi, Hw, Hwi, <- app_assoc. simpl.
      split; [reflexivity | lia].
    + destruct Hi as (-> & Hn & Hp).
      exists new. split; [constructor; assumption|]. auto.
Qed.

Lemma placement_same_nominal (units units' new : list Item.t) :
  placement units units' new → Forall2 same_nominal units units'.
Proof.
  induction 1 as [|u u' us us' new Hn Hp _ IH|u u' o p us us' new Hf _ IH];
    constructor; try assumption.
  apply placed_from_facts in Hf. tauto.
Qed.

Lemma placement_new (units units' new : list Item.t) :
  placement units units' new →
  new `sublist_of` units' ∧
  Forall (λ it, ∃ u o p, u ∈ units ∧ placed_from u o p it) new.
Proof.
  induction 1 as [|u u' us us' new Hn Hp _ [IHs IHf]
                 |u u' o p us us' new Hf _ [IHs IHf]].
  - split; constructor.
  - split; [apply sublist_cons; exact IHs|].
    eapply Forall_impl; [exact IHf|].
    intros it (u0 & o & p & Hu0 & H). exists u0, o, p.
    split; [right; exact Hu0 | exact H].
  - split; [apply sublist_skip; exact IHs|].
    constructor.
    + exists u, o, p. split; [left | exact Hf].
    + eapply Forall_impl; [exact IHf|].
      intros it (u0 & o0 & p0 & Hu0 & H). exists u0, o0, p0.
      split; [right; exact Hu0 | exact H].
Qed.

Lemma placement_filter (units units' new : list Item.t) :
  Forall (λ u, Item.position u = None) units →
  placement units units' new →
  new = filter is_placed units'.
Proof.
  intros Hnone Hpl.
  induction Hpl as [|u u' us us' new Hn Hp _ IH|u u' o p us us' new Hf _ IH];
    [reflexivity|..]; apply Forall_cons in Hnone as [Hu Hus].
  - rewrite filter_cons_False; [exact (IH Hus)|].
    unfold is_placed. rewrite Hp, Hu. intros [? [=]].
  - rewrite filter_cons_True; [f_equal; exact (IH Hus)|].
    apply placed_from_facts in Hf as (_ & Hp & _).
    unfold is_placed. rewrite Hp. eauto.
Qed.

Lemma filter_split_length {A : Type} (P : A → Prop) `{!∀ x, Decision (P x)}
    (l : list A) :
  (length (filter P l) + length (filter (λ x, ¬ P x) l) = length l)%nat.
Proof.
  induction l as [|a l IH]; [reflexivity|].
  rewrite !filter_cons. destruct (decide (P a)), (decide (¬ P a));
    simpl; try tauto; lia.
Qed.

(** X2.  Every unit of the container returned by a run is one of the
    expanded units, unchanged except that one code of its own preference
    list has been applied and a position has been set: its rotation is
    that code, one of the six, and its active dimensions are the
    dimensions of that code. *)
Theorem pack_placed_units_provenance (L W H MW : Z) (items : list Item.t)
    (c : Container.t) :
  BinPacker.pack (BinPacker.init L W H MW) items = Ok c →
  ∀ it, it ∈ Container.items c →
    ∃ u o p,
      u ∈ BinPacker.expand items ∧
      placed_from u o p it ∧
      same_nominal u it ∧
      Item.position it = Some p ∧
      Item.rotation it = Some o ∧
      o ∈ orientation_codes ∧
      Item.get_dimensions it o
        = Ok (Item.length it, Item.width it, Item.height it).
Proof.
  intros (self' & units' & Hrun & ->)%pack_Ok it Hit.
  apply pack_units_placement in Hrun as (new & Hpl & Hitems & _).
  simpl in Hitems. rewrite Hitems in Hit.
  apply placement_new in Hpl as [_ Hnew].
  rewrite Forall_forall in Hnew.
  destruct (Hnew it Hit) as (u & o & p & Hu & Hfrom).
  exists u, o, p.
  split; [unfold BinPacker.expanded_sorted in Hu;
          rewrite elem_of_sorted in Hu; exact Hu|].
  split; [exact Hfrom|]. exact (placed_from_facts u o p it Hfrom).
Qed.

Lemma pack_placed_units_provenance_witness :
  ∃ c it,
    BinPacker.pack (BinPacker.init 10 50 50 1000)
      [box_with "a" 50 10 50 10 1 ["lwh"; "wlh"]] = Ok c ∧
    Container.items c = [it] ∧
    Item.rotation it = Some "wlh"%string ∧
    Item.get_dimensions it "wlh"
      = Ok (Item.length it, Item.width it, Item.height it).
Proof.
  eexists _, _. split; [vm_compute; reflexivity|].
  split; [reflexivity|]. split; [reflexivity|].
  destruct (pack_placed_units_provenance 10 50 50 1000
              [box_with "a" 50 10 50 10 1 ["lwh"; "wlh"]] _
              ltac:(vm_compute; reflexivity) _ ltac:(left))
    as (u & o & p & _ & _ & _ & _ & Hr & _ & Hd).
  injection Hr as <-. exact Hd.
Defined.

(** X3.  A run of [pack] only appends: the placed sequence of the returned
    container is the one the packer had, followed by the newly placed
    units (at most one per expanded unit); the running weight grows by the
    sum of their weights, and the capacity of the container is the same. *)
Theorem pack_appends_only (self : BinPacker.t) (items : list Item.t)
    (c : Container.t) :
  BinPacker.pack self items = Ok c →
  ∃ new,
    Container.items c = Container.items (BinPacker.container self) ++ new ∧
    (length new ≤ length (BinPacker.expand items))%nat ∧
    Container.current_weight c
      = Container.current_weight (BinPacker.container self)
        + total_weight new ∧
    Container.length c = Container.length (BinPacker.container self) ∧
    Container.width c = Container.width (BinPacker.container self) ∧
    Container.height c = Container.height (BinPacker.container self) ∧
    Container.max_weight c = Container.max_weight (BinPacker.container self).
Proof.
  intros (self' & units' & Hrun & ->)%pack_Ok.
  pose proof (pack_units_fixed_capacity _ _ _ _ Hrun) as Hcap.
  apply pack_units_placement in Hrun as (new & Hpl & Hitems & Hw).
  exists new. split; [exact Hitems|]. split; [|split; [exact Hw | exact Hcap]].
  pose proof (placement_new _ _ _ Hpl) as [Hsub _].
  apply sublist_length in Hsub.
  apply placement_same_nominal, Forall2_length in Hpl.
  unfold BinPacker.expanded_sorted in Hpl.
  rewrite (Permutation_length (sorted_perm _ _ _)) in Hpl. lia.
Qed.

Lemma pack_appends_only_witness :
  ∃ c1 c2 new,
    BinPacker.pack (BinPacker.init 100 50 50 1000) [box "a" 50 50 50 10 1]
      = Ok c1 ∧
    BinPacker.pack {| BinPacker.container := c1 |} [box "b" 50 50 50 10 3]
      = Ok c2 ∧
    Container.items c2 = Container.items c1 ++ new ∧
    length new = 1%nat.
Proof.
  eexists _, _, _. split; [vm_compute; reflexivity|].
  match goal with
  | |- BinPacker.pack ?s ?i = _ ∧ _ =>
      destruct (BinPacker.pack s i) as [c2|e] eqn:Hrun;
        [|vm_compute in Hrun; discriminate]
  end.
  destruct (pack_appends_only _ _ _ Hrun) as (new & Hitems & _).
  vm_compute in Hrun. injection Hrun as <-.
  split; [reflexivity|]. split; reflexivity.
Defined.

(** X4.  The loop over the units returns one final unit object per unit,
    equal to it in everything the engine never writes; when the units
    start without a position, the placed sequence is extended by exactly
    the final unit objects that have a position, in processing order, and
    the others are the unplaced ones. *)
Theorem pack_units_split (self self' : BinPacker.t)
    (units units' : list Item.t) :
  Forall (λ u, Item.position u = None) units →
  BinPacker.pack_units self units = Ok (self', units') →
  Forall2 same_nominal units units' ∧
  Container.items (BinPacker.container self')
    = Container.items (BinPacker.container self) ++ filter is_placed units' ∧
  (length (filter is_placed units')
   + length (filter (λ u, ¬ is_placed u) units') = length units)%nat.
Proof.
  intros Hnone (new & Hpl & Hitems & _)%pack_units_placement.
  pose proof (placement_same_nominal _ _ _ Hpl) as Hsame.
  split; [exact Hsame|]. split.
  - rewrite Hitems. f_equal. exact (placement_filter _ _ _ Hnone Hpl).
  - rewrite filter_split_length. symmetry. exact (Forall2_length _ _ _ Hsame).
Qed.

Lemma pack_units_split_witness :
  ∃ self' units',
    BinPacker.pack_units (BinPacker.init 100 100 100 1000)
      (BinPacker.expanded_sorted [box "a" 60 60 60 10 2]) = Ok (self', units') ∧
    Item.name <$> filter is_placed units' = ["a_1"%string] ∧
    Item.name <$> filter (λ u, ¬ is_placed u) units' = ["a_2"%string] ∧
    Container.items (BinPacker.container self') = filter is_placed units'.
Proof.
  eexists _, _. split; [vm_compute; reflexivity|].
  split; [vm_compute; reflexivity|]. split; [vm_compute; reflexivity|].
  match goal with
  | |- Container.items (BinPacker.container ?s) = filter is_placed ?us =>
      destruct (pack_units_split (BinPacker.init 100 100 100 1000) s
                  (BinPacker.expanded_sorted [box "a" 60 60 60 10 2]) us)
        as (_ & Hitems & _)
  end.
  - repeat constructor.
  - vm_compute. reflexivity.
  - exact Hitems.
Defined.

(** ** The first unit of an empty container *)

Lemma generate_positions_empty (self : BinPacker.t) :
  Container.items (BinPacker.container self) = [] →
  BinPacker.generate_positions self = Ok [(0, 0, 0)].
Proof.
  intros Hitems.
  unfold BinPacker.generate_positions, BinPacker.generate_positions_by.
  rewrite Hitems. simpl. rewrite elements_singleton. reflexivity.
Qed.

Lemma is_valid_empty (c : Container.t) (u : Item.t) :
  Container.items c = [] →
  (Container.is_valid c u 0 0 0 = Ok true ↔ fits_empty c u) ∧
  (Container.is_valid c u 0 0 0 = Ok false ↔ ¬ fits_empty c u).
Proof.
  intros Hitems. rewrite is_valid_unfold, Hitems. simpl.
  unfold fits_empty. case_decide as Hd; split; split;
    first [discriminate | reflexivity | tauto | idtac]; intros; lia.
Qed.

Lemma validates_empty_false (c : Container.t) (u : Item.t) (o : string) :
  Container.items c = [] →
  validates c u (0, 0, 0, o) = Ok false ↔
  ∃ u0, Item.set_orientation u o = Ok u0 ∧ ¬ fits_empty c u0.
Proof.
  intros Hitems. unfold validates.
  destruct (Item.set_orientation u o) as [u0|e]; simpl.
  - rewrite (proj2 (is_valid_empty c u0 Hitems)). split; [eauto|].
    intros (? & [= <-] & H). exact H.
  - split; [discriminate|]. intros (? & [=] & _).
Qed.

(** X5.  In a container without placed units the only candidate position
    is the origin: a unit is placed exactly when one of its orientations
    fits the container (dimensions and weight limit), it takes the first
    such orientation of its list and sits at [(0,0,0)]. *)
Theorem first_unit_at_origin (self self' : BinPacker.t) (u u' : Item.t) :
  Container.items (BinPacker.container self) = [] →
  BinPacker.generate_positions self = Ok [(0, 0, 0)] ∧
  (BinPacker.pack_item self u = Ok (self', u', true) ↔
   ∃ before o after u1,
     Item.orientation_preference u = before ++ o :: after ∧
     Forall (λ o', ∃ u0, Item.set_orientation u o' = Ok u0 ∧
                         ¬ fits_empty (BinPacker.container self) u0) before ∧
     Item.set_orientation u o = Ok u1 ∧
     fits_empty (BinPacker.container self) u1 ∧
     u' = Item.set_position u1 (0, 0, 0) ∧
     BinPacker.container self'
       = (Container.add_item (BinPacker.container self) u1 0 0 0).1).
Proof.
  intros Hitems.
  pose proof (generate_positions_empty self Hitems) as Hg.
  split; [exact Hg|].
  assert (candidate_pairs [(0, 0, 0)] (Item.orientation_preference u)
          = pair (0, 0, 0) <$> Item.orientation_preference u) as Hpairs.
  { rewrite candidate_pairs_cons. apply app_nil_r. }
  rewrite pack_item_placed. split.
  - intros (ps & before & x & y & z & o & after & u1 & Hps & Heq & Hb & H1
            & Hv & Hadd).
    rewrite Hg in Hps. injection Hps as <-. rewrite Hpairs in Heq.
    apply fmap_app_inv in Heq as (os1 & os2 & -> & Heq & Hos).
    symmetry in Heq. apply fmap_cons_inv in Heq as (o' & os3 & Ho' & -> & ->).
    injection Ho' as -> -> -> ->.
    exists os1, o', os3, u1. split; [exact Hos|]. split.
    + apply Forall_fmap in Hb. eapply Forall_impl; [exact Hb|].
      intros o0 Ho0. apply (validates_empty_false _ _ _ Hitems), Ho0.
    + split; [exact H1|].
      split; [apply (is_valid_empty _ _ Hitems), Hv|].
      injection Hadd as -> ->. split; reflexivity.
  - intros (before & o & after & u1 & Hos & Hb & H1 & Hfit & -> & Hc).
    exists [(0, 0, 0)], (pair (0, 0, 0) <$> before), 0, 0, 0, o,
      (pair (0, 0, 0) <$> after), u1.
    split; [exact Hg|]. split; [rewrite Hpairs, Hos, fmap_app; reflexivity|].
    split.
    + apply Forall_fmap. eapply Forall_impl; [exact Hb|].
      intros o0 Ho0. apply (validates_empty_false _ _ _ Hitems), Ho0.
    + split; [exact H1|].
      split; [apply (is_valid_empty _ _ Hitems), Hfit|].
      rewrite Hc. reflexivity.
Qed.

Lemma first_unit_at_origin_witness :
  ∃ u1,
    BinPacker.pack_item (BinPacker.init 10 50 50 1000)
      (box_with "a" 50 10 50 10 1 ["lwh"; "wlh"; "hwl"])
      = Ok ({| BinPacker.container :=
                 (Container.add_item (Container.init 10 50 50 1000)
                    u1 0 0 0).1 |},
            Item.set_position u1 (0, 0, 0), true) ∧
    Item.rotation u1 = Some "wlh"%string.
Proof.
  eexists. split.
  - apply (first_unit_at_origin (BinPacker.init 10 50 50 1000));
      [reflexivity|].
    exists ["lwh"%string], "wlh"%string, ["hwl"%string]. eexists.
    split; [reflexivity|]. split.
    { repeat constructor. eexists. split; [vm_compute; reflexivity|].
      unfold fits_empty. simpl. lia. }
    split; [vm_compute; reflexivity|].
    split; [unfold fits_empty; simpl; lia|].
    split; reflexivity.
  - reflexivity.
Defined.

(** ** Size and first element of the candidate sequence *)

Lemma add_corners_size (its : list Item.t) (pos pos' : gset Pos) :
  BinPacker.add_corners its pos = Ok pos' →
  (size pos' ≤ size pos + 3 * length its)%nat.
Proof.
  revert pos. induction its as [|it rest IH]; intros pos; simpl.
  - intros [= <-]. lia.
  - destruct (Item.position it) as [[[x y] z]|]; [|discriminate].
    intros H%IH.
    assert (∀ (s : gset Pos) p, (size (s ∪ {[p]}) ≤ size s + 1)%nat) as Hs.
    { intros s p. rewrite size_union_alt.
      assert ({[p]} ∖ s ⊆ ({[p]} : gset Pos)) as Hsub
        by apply subseteq_difference_l, reflexivity.
      apply subseteq_size in Hsub. rewrite size_singleton in Hsub. lia. }
    eapply Nat.le_trans; [exact H|].
    eapply Nat.le_trans; [apply Nat.add_le_mono_r, Hs|].
    eapply Nat.le_trans;
      [apply Nat.add_le_mono_r, Nat.add_le_mono_r, Hs|].
    eapply Nat.le_trans;
      [apply Nat.add_le_mono_r, Nat.add_le_mono_r, Nat.add_le_mono_r, Hs|].
    lia.
Qed.

(** X7.  The candidate sequence is never empty and holds at most
    [1 + 3k] positions for [k] placed units; when the placed units have
    non-negative positions and active dimensions, every candidate is
    non-negative on every axis and the origin is the first candidate. *)
Theorem generate_positions_size_and_head (self : BinPacker.t)
    (ps : list Pos) :
  BinPacker.generate_positions self = Ok ps →
  (0, 0, 0) ∈ ps ∧
  (1 ≤ length ps
   ≤ 1 + 3 * length (Container.items (BinPacker.container self)))%nat ∧
  (placed_nonneg (BinPacker.container self) →
   (∀ x y z, (x, y, z) ∈ ps → 0 ≤ x ∧ 0 ≤ y ∧ 0 ≤ z) ∧
   head ps = Some (0, 0, 0)).
Proof.
  intros Hg.
  pose proof (generate_positions_Ok self ps Hg) as [Hin Hsorted].
  assert ((0, 0, 0) ∈ ps) as H0 by (apply Hin; auto).
  split; [exact H0|]. split; [split|].
  - destruct ps; [inversion H0 | simpl; lia].
  - revert Hg.
    unfold BinPacker.generate_positions, BinPacker.generate_positions_by.
    destruct (BinPacker.add_corners _ _) as [pos|e] eqn:Hpos; [|discriminate].
    rewrite bind_Ok. intros [= <-].
    rewrite (Permutation_length (sorted_perm _ _ _)).
    apply add_corners_size in Hpos. rewrite size_singleton in Hpos.
    exact Hpos.
  - intros Hnn.
    pose proof (generate_positions_nonneg self ps Hnn Hg) as Hpos.
    split; [exact Hpos|].
    destruct ps as [|[[x y] z] ps']; [inversion H0|]. simpl. f_equal.
    apply elem_of_cons in H0 as [H0|H0]; [congruence|].
    apply StronglySorted_cons in Hsorted as [Hlt _].
    rewrite Forall_forall in Hlt. specialize (Hlt _ H0).
    destruct (Hpos x y z ltac:(left)) as (Hx & Hy & Hz).
    unfold position_lt in Hlt. lia.
Qed.

Lemma generate_positions_size_and_head_witness :
  ∃ ps,
    BinPacker.generate_positions {| BinPacker.container := one_box_container |}
      = Ok ps ∧
    (length ps ≤ 4)%nat ∧ head ps = Some (0, 0, 0).
Proof.
  eexists. split; [vm_compute; reflexivity|].
  destruct (generate_positions_size_and_head
              {| BinPacker.container := one_box_container |} _
              ltac:(vm_compute; reflexivity)) as (_ & [_ Hlen] & Hhead).
  split; [exact Hlen|]. apply Hhead.
  repeat constructor; simpl; try lia.
  exists 0, 0, 0. split; [reflexivity | lia].
Defined.

(** ** The overlap test *)

(** X8.  [check_overlap] is symmetric in the two boxes and does not depend
    on the container it is called on; two boxes at the same position
    overlap exactly when all their six dimensions are positive, so a unit
    with a non-positive active dimension can share its position with
    another unit. *)
Theorem check_overlap_symmetric (c c' : Container.t) (a b : Item.t)
    (x y z px py pz : Z) :
  Item.position a = Some (x, y, z) →
  Item.position b = Some (px, py, pz) →
  Container.check_overlap c a x y z b
    = Container.check_overlap c' b px py pz a ∧
  (Container.check_overlap c a px py pz b = Ok true ↔
     0 < Item.length a ∧ 0 < Item.width a ∧ 0 < Item.height a ∧
     0 < Item.length b ∧ 0 < Item.width b ∧ 0 < Item.height b).
Proof.
  intros Ha Hb. unfold Container.check_overlap. rewrite Ha, Hb. split.
  - f_equal. f_equal. rewrite !Z.geb_leb.
    repeat match goal with
    | |- context [?u <=? ?v] => destruct (u <=? v)
    end; reflexivity.
  - split.
    + intros [= H]. apply negb_true_iff in H.
      repeat (apply orb_false_iff in H as [H ?]).
      repeat match goal with
      | H : (_ <=? _) = false |- _ => apply Z.leb_gt in H
      | H : (_ >=? _) = false |- _ => rewrite Z.geb_leb in H; apply Z.leb_gt in H
      end. lia.
    + intros Hpos. f_equal. apply negb_true_iff.
      repeat (apply orb_false_iff; split);
        first [apply Z.leb_gt | rewrite Z.geb_leb; apply Z.leb_gt]; lia.
Qed.

Lemma check_overlap_symmetric_witness :
  Container.check_overlap (Container.init 1 1 1 1)
    (Item.set_position (box "flat" 10 10 0 1 1) (0, 0, 0)) 0 0 0
    (Item.set_position (box "a" 10 10 10 1 1) (0, 0, 0))
  = Ok false.
Proof.
  destruct (check_overlap_symmetric (Container.init 1 1 1 1)
              (Container.init 1 1 1 1)
              (Item.set_position (box "flat" 10 10 0 1 1) (0, 0, 0))
              (Item.set_position (box "a" 10 10 10 1 1) (0, 0, 0))
              0 0 0 0 0 0 eq_refl eq_refl) as [_ Hsame].
  destruct Hsame as [Hsame _].
  destruct (Container.check_overlap _ _ 0 0 0 _) as [[]|e] eqn:Hc.
  - specialize (Hsame eq_refl). simpl in Hsame. lia.
  - reflexivity.
  - vm_compute in Hc. discriminate.
Defined.

(** ** Validity along a run *)

Lemma total_weight_nonneg (l : list Item.t) :
  Forall (λ u, 0 ≤ Item.weight u) l → 0 ≤ total_weight l.
Proof.
  induction 1 as [|u l Hu _ IH]; simpl; [lia|].
  unfold total_weight in *. simpl. lia.
Qed.

Lemma pack_units_positioned (units units' : list Item.t)
    (self self' : BinPacker.t) :
  positioned (BinPacker.container self) →
  BinPacker.pack_units self units = Ok (self', units') →
  positioned (BinPacker.container self').
Proof.
  intros Hinv Hrun.
  apply (pack_units_preserves positioned (λ _, True))
    with (units := units) (units' := units') (self := self);
    [|exact Hinv|apply Forall_true; auto|exact Hrun].
  intros c item o item1 ps x y z Hc _ _ _ _ _.
  exact (commit_positioned c item1 x y z Hc).
Qed.

(** X9.  Placing units with non-negative weights never makes a rejected
    placement acceptable: a unit and a position that [is_valid] accepts
    after a run of the loop were already accepted before it, and (on a
    container whose units have positions) what is rejected before the run
    is rejected after it. *)
Theorem is_valid_antimonotone (self self' : BinPacker.t)
    (units units' : list Item.t) (item : Item.t) (x y z : Z) :
  Forall (λ u, 0 ≤ Item.weight u) units →
  BinPacker.pack_units self units = Ok (self', units') →
  (Container.is_valid (BinPacker.container self') item x y z = Ok true →
   Container.is_valid (BinPacker.container self) item x y z = Ok true) ∧
  (positioned (BinPacker.container self) →
   Container.is_valid (BinPacker.container self) item x y z = Ok false →
   Container.is_valid (BinPacker.container self') item x y z = Ok false).
Proof.
  intros Hw Hrun.
  assert (Container.is_valid (BinPacker.container self') item x y z = Ok true →
          Container.is_valid (BinPacker.container self) item x y z = Ok true)
    as Hanti.
  { pose proof (pack_units_fixed_capacity _ _ _ _ Hrun)
      as (HL & HW & HH & HM).
    pose proof (pack_units_placement _ _ _ _ Hrun)
      as (new & Hpl & Hitems & Hcw).
    assert (0 ≤ total_weight new) as Hnew.
    { apply total_weight_nonneg.
      apply placement_new in Hpl as [_ Hfrom].
      eapply Forall_impl; [exact Hfrom|].
      intros it (u & o & p & Hu & Hf).
      apply placed_from_facts in Hf as ((_ & _ & _ & -> & _) & _).
      rewrite Forall_forall in Hw. exact (Hw u Hu). }
    rewrite !is_valid_true, HL, HW, HH, HM, Hitems, Hcw.
    intros (Hb & Hwt & Hd). split; [exact Hb|]. split; [lia|].
    apply Forall_app in Hd. tauto. }
  split; [exact Hanti|].
  intros Hpos Hfalse.
  destruct (is_valid_total (BinPacker.container self') item x y z
              (pack_units_positioned _ _ _ _ Hpos Hrun)) as [[] Hb];
    [|exact Hb].
  rewrite (Hanti Hb) in Hfalse. discriminate.
Qed.

Lemma is_valid_antimonotone_witness :
  Container.is_valid (Container.init 100 100 100 1000)
    (box "b" 60 60 60 10 1) 10 0 0 = Ok true.
Proof.
  refine (proj1 (is_valid_antimonotone (BinPacker.init 100 100 100 1000) _
                   [box_with "a" 10 10 10 5 1 ["lwh"]] _
                   (box "b" 60 60 60 10 1) 10 0 0 _ _) _).
  - repeat constructor. simpl. lia.
  - vm_compute. reflexivity.
  - vm_compute. reflexivity.
Defined.

(** ** Where units are placed *)

(** X10.  Every unit of the container returned by a run sits at the origin
    or at one of the three extreme corners of a unit placed before it. *)
Theorem pack_positions_are_corners (L W H MW : Z) (items : list Item.t)
    (c : Container.t) :
  BinPacker.pack (BinPacker.init L W H MW) items = Ok c →
  ∀ (n : nat) it, Container.items c !! n = Some it →
    ∃ p, Item.position it = Some p ∧
         (p = (0, 0, 0) ∨
          ∃ (m : nat) e, (m < n)%nat ∧ Container.items c !! m = Some e ∧
                         corner_of e p).
Proof.
  intros (self' & units' & Hrun & ->)%pack_Ok.
  apply (pack_units_preserves
           (λ c, ∀ (n : nat) it, Container.items c !! n = Some it →
              ∃ p, Item.position it = Some p ∧
                   (p = (0, 0, 0) ∨
                    ∃ (m : nat) e, (m < n)%nat ∧
                       Container.items c !! m = Some e ∧ corner_of e p))
           (λ _, True))
    with (units := BinPacker.expanded_sorted items) (units' := units')
         (self := BinPacker.init L W H MW);
    [| |apply Forall_true; auto|exact Hrun].
  - intros c item o item1 ps x y z IH _ Hg Hin _ _ n it. simpl.
    intros [Hn|[Hlen Hn]]%lookup_app_Some.
    + destruct (IH n it Hn) as (p & Hp & Hor). exists p. split; [exact Hp|].
      destruct Hor as [->|(m & e & Hm & He & Hc)]; [auto|].
      right. exists m, e. split; [exact Hm|]. split; [|exact Hc].
      apply lookup_app_l_Some, He.
    + apply list_lookup_singleton_Some in Hn as [Hn <-].
      exists (x, y, z). split; [reflexivity|].
      apply generate_positions_Ok in Hg as [Hg _].
      apply Hg in Hin as [Hin|(e & He & Hc)]; [auto|]. simpl in He.
      apply list_elem_of_lookup in He as [m He]. right. exists m, e.
      split; [apply lookup_lt_Some in He; lia|].
      split; [apply lookup_app_l_Some, He | exact Hc].
  - intros n it Hn. simpl in Hn. rewrite lookup_nil in Hn. discriminate.
Qed.

Lemma pack_positions_are_corners_witness :
  ∃ c it e,
    BinPacker.pack (BinPacker.init 100 50 50 1000) [box "a" 50 50 50 10 3]
      = Ok c ∧
    Container.items c !! 1%nat = Some it ∧
    Container.items c !! 0%nat = Some e ∧
    Item.position it = Some (50, 0, 0) ∧ corner_of e (50, 0, 0).
Proof.
  eexists _, _, _. split; [vm_compute; reflexivity|].
  split; [reflexivity|]. split; [reflexivity|]. split; [reflexivity|].
  destruct (pack_positions_are_corners 100 50 50 1000
              [box "a" 50 50 50 10 3] _ ltac:(vm_compute; reflexivity)
              1%nat _ eq_refl) as (p & Hp & Hor).
  injection Hp as <-. destruct Hor as [[=]|(m & e & Hm & He & Hc)].
  assert (m = 0%nat) as -> by lia.
  injection He as <-. exact Hc.
Defined.

(** X12.  An iteration of the loop never places a unit whose weight does
    not fit the remaining capacity, nor (when the placed units have
    non-negative positions and active dimensions) a unit that exceeds the
    container in each orientation of its list. *)
Theorem misfit_never_placed (self self' : BinPacker.t) (u u' : Item.t)
    (placed : bool) :
  BinPacker.pack_item self u = Ok (self', u', placed) →
  (Container.max_weight (BinPacker.container self)
     < Container.current_weight (BinPacker.container self) + Item.weight u →
   placed = false) ∧
  (placed_nonneg (BinPacker.container self) →
   (∀ o d1 d2 d3,
      o ∈ Item.orientation_preference u →
      Item.get_dimensions u o = Ok (d1, d2, d3) →
      Container.length (BinPacker.container self) < d1 ∨
      Container.width (BinPacker.container self) < d2 ∨
      Container.height (BinPacker.container self) < d3) →
   placed = false).
Proof.
  intros Hrun. destruct placed; [|split; reflexivity].
  apply pack_item_placed in Hrun
    as (ps & before & x & y & z & o & after & u1 & Hg & Heq & _ & H1 & Hv & _).
  apply is_valid_true in Hv as ((Hx & Hy & Hz) & Hw & _).
  split.
  - intros Hheavy. apply set_orientation_frame in H1 as (_ & _ & H1 & _).
    lia.
  - intros Hnn Hbig. exfalso.
    assert ((x, y, z, o) ∈ candidate_pairs ps (Item.orientation_preference u))
      as [Hp Ho]%elem_of_candidate_pairs.
    { rewrite Heq. apply elem_of_app. right. left. }
    pose proof (generate_positions_nonneg self ps Hnn Hg x y z Hp).
    pose proof (Hbig o _ _ _ Ho (set_orientation_dims _ _ _ H1)). lia.
Qed.

Lemma misfit_never_placed_witness :
  ∃ u',
    BinPacker.pack_item {| BinPacker.container := one_box_container |}
      (box_with "big" 120 10 10 5 1 ["lwh"; "lhw"])
    = Ok ({| BinPacker.container := one_box_container |}, u', false).
Proof.
  destruct (BinPacker.pack_item {| BinPacker.container := one_box_container |}
              (box_with "big" 120 10 10 5 1 ["lwh"; "lhw"]))
    as [[[self' u'] placed]|e] eqn:Hrun; [|vm_compute in Hrun; discriminate].
  destruct (misfit_never_placed _ _ _ _ _ Hrun) as [_ Hsize].
  assert (placed = false) as ->.
  { apply Hsize.
    - repeat constructor; simpl; try lia.
      exists 0, 0, 0. split; [reflexivity | lia].
    - intros o d1 d2 d3 Ho Hd.
      apply elem_of_cons in Ho as [->|Ho];
        [|apply list_elem_of_singleton in Ho as ->];
        vm_compute in Hd; injection Hd as <- <- <-; simpl; lia. }
  exists u'. apply pack_item_unplaced in Hrun as (_ & _ & -> & _).
  reflexivity.
Defined.

(** ** Running the engine again on the same packer *)

(** X13.  The invariants of the container do not depend on the packer
    being fresh: from a container whose placed units have positions, lie
    inside it, are pairwise disjoint and whose running weight is their
    total weight, a run of [pack] returns a container with the same
    properties, keeps the weight within [max_weight] if it was, and can
    only fail with the [KeyError] of an invalid orientation code. *)
Theorem pack_again_keeps_invariants (self : BinPacker.t)
    (items : list Item.t) :
  container_inv (BinPacker.container self) →
  (∀ c, BinPacker.pack self items = Ok c →
     container_inv c ∧
     (Container.current_weight (BinPacker.container self)
        ≤ Container.max_weight (BinPacker.container self) →
      Container.current_weight c ≤ Container.max_weight c) ∧
     (placed_nonneg (BinPacker.container self) → Forall dims_nonneg items →
      placed_nonneg c)) ∧
  (∀ e, BinPacker.pack self items = Raise e →
     ∃ o, (o ∉ orientation_codes) ∧ e = KeyError o).
Proof.
  intros Hinv. split.
  - intros c (self' & units' & Hrun & ->)%pack_Ok.
    split; [exact (pack_units_container_inv _ _ _ _ Hinv Hrun)|]. split.
    + intros Hw. exact (pack_units_weight_le _ _ _ _ Hw Hrun).
    + intros Hnn Hdims.
      exact (pack_units_placed_nonneg _ _ _ _ Hnn
               (expanded_sorted_dims_nonneg items Hdims) Hrun).
  - intros e Hrun%pack_Raise.
    apply pack_units_Raise in Hrun as (u & o & _ & _ & Hn & ->);
      [|exact Hinv].
    exists o. auto.
Qed.

Lemma pack_again_keeps_invariants_witness :
  ∃ c1 c2,
    BinPacker.pack (BinPacker.init 100 50 50 1000) [box "a" 50 50 50 10 1]
      = Ok c1 ∧
    BinPacker.pack {| BinPacker.container := c1 |} [box "b" 50 50 50 10 3]
      = Ok c2 ∧
    length (Container.items c2) = 2%nat ∧
    container_inv c2.
Proof.
  eexists _, _. split; [vm_compute; reflexivity|].
  match goal with
  | |- BinPacker.pack ?s ?i = _ ∧ _ =>
      pose proof (pack_again_keeps_invariants s i) as Hagain
  end.
  split; [vm_compute; reflexivity|]. split; [reflexivity|].
  apply Hagain; [|vm_compute; reflexivity].
  eapply (pack_units_container_inv
            (BinPacker.expanded_sorted [box "a" 50 50 50 10 1]) _
            (BinPacker.init 100 50 50 1000));
    [apply init_container_inv|].
  vm_compute. reflexivity.
Defined.

(** ** Orientations do not accumulate *)

Lemma apply_orientations_valid (u : Item.t) (os : list string) (o : string) :
  Forall (λ o', o' ∈ orientation_codes) os →
  apply_orientations u (os ++ [o]) = Item.set_orientation u o.
Proof.
  intros Hos. revert u. induction Hos as [|o1 os Ho1 _ IH]; intros u; simpl.
  - destruct (Item.set_orientation u o); reflexivity.
  - destruct (set_orientation_valid u o1 Ho1) as [u1 H1].
    rewrite H1, bind_Ok, IH. exact (set_orientation_twice _ _ _ _ H1).
Qed.

(** X11.  [set_orientation] always permutes the nominal dimensions, never
    the active ones: after any sequence of valid codes the unit is in the
    state that the last code alone gives, ["lwh"] gives back the nominal
    triple, and the first invalid code of a sequence raises its
    [KeyError]. *)
Theorem set_orientation_history_free (u : Item.t) (os : list string)
    (o : string) :
  Forall (λ o', o' ∈ orientation_codes) os →
  apply_orientations u (os ++ [o]) = Item.set_orientation u o ∧
  (∀ u', apply_orientations u (os ++ ["lwh"%string]) = Ok u' →
     (Item.length u', Item.width u', Item.height u') = Item.original_dims u ∧
     Item.rotation u' = Some "lwh"%string ∧
     Item.position u' = Item.position u) ∧
  (o ∉ orientation_codes →
   ∀ rest, apply_orientations u (os ++ o :: rest) = Raise (KeyError o)).
Proof.
  intros Hos. split; [exact (apply_orientations_valid u os o Hos)|]. split.
  - intros u'. rewrite (apply_orientations_valid u os _ Hos). intros H.
    pose proof (set_orientation_dims _ _ _ H) as Hd.
    apply set_orientation_frame in H as (_ & _ & _ & Hp & _ & Hr).
    split; [|tauto].
    unfold Item.get_dimensions in Hd.
    destruct (Item.original_dims u) as [[l w] h].
    change (Item.orientation_table l w h !! "lwh"%string) with
      (Some (l, w, h)) in Hd.
    congruence.
  - intros Ho rest. revert u.
    induction Hos as [|o1 os Ho1 _ IH]; intros u; simpl.
    + rewrite (proj2 (set_orientation_Raise u o (KeyError o)));
        [reflexivity | auto].
    + destruct (set_orientation_valid u o1 Ho1) as [u1 H1].
      rewrite H1, bind_Ok. apply IH.
Qed.

Lemma set_orientation_history_free_witness :
  ∃ u',
    apply_orientations (box "a" 1 2 3 10 1) ["hwl"; "whl"; "lwh"]%string
      = Ok u' ∧
    (Item.length u', Item.width u', Item.height u') = (1, 2, 3).
Proof.
  destruct (set_orientation_history_free (box "a" 1 2 3 10 1)
              ["hwl"; "whl"]%string "lwh"%string) as (_ & Hlwh & _).
  { repeat constructor; apply elem_of_orientation_codes; auto 10. }
  eexists. split; [vm_compute; reflexivity|].
  apply (Hlwh _ ltac:(vm_compute; reflexivity)).
Defined.

(** ** The placed volume *)

Lemma elem_of_cells (x y z l w h : Z) (p : Pos) :
  p ∈ cells x y z l w h ↔
  x ≤ p.1.1 < x + l ∧ y ≤ p.1.2 < y + w ∧ z ≤ p.2 < z + h.
Proof.
  unfold cells. destruct p as [[a b] c]. simpl.
  rewrite list_elem_of_bind. setoid_rewrite list_elem_of_bind.
  setoid_rewrite list_elem_of_bind. setoid_rewrite elem_of_seqZ.
  setoid_rewrite list_elem_of_singleton. split.
  - intros (a' & (b' & (c' & [= -> -> ->] & Hc) & Hb) & Ha). lia.
  - intros (Ha & Hb & Hc). exists a. split; [|lia].
    exists b. split; [|lia]. exists c. split; [reflexivity | lia].
Qed.

Lemma length_bind_const {A B : Type} (f : A → list B) (l : list A)
    (n : nat) :
  (∀ a, length (f a) = n) → length (l ≫= f) = (length l * n)%nat.
Proof.
  intros Hf. induction l as [|a l IH]; [reflexivity|].
  rewrite bind_cons, length_app, IH, Hf. simpl. lia.
Qed.

Lemma length_cells (x y z l w h : Z) :
  length (cells x y z l w h) = (Z.to_nat l * (Z.to_nat w * Z.to_nat h))%nat.
Proof.
  unfold cells.
  rewrite (length_bind_const _ _ (Z.to_nat w * Z.to_nat h)), length_seqZ;
    [reflexivity|].
  intros a.
  rewrite (length_bind_const _ _ (Z.to_nat h)), length_seqZ; [reflexivity|].
  intros b.
  rewrite (length_bind_const _ _ 1%nat), length_seqZ; [lia|]. reflexivity.
Qed.

Lemma NoDup_cells (x y z l w h : Z) : NoDup (cells x y z l w h).
Proof.
  unfold cells. apply NoDup_bind; [| |apply NoDup_seqZ].
  - intros a1 a2 p _ _ H1 H2.
    apply list_elem_of_bind in H1 as (b1 & H1 & _).
    apply list_elem_of_bind in H1 as (c1 & H1 & _).
    apply list_elem_of_bind in H2 as (b2 & H2 & _).
    apply list_elem_of_bind in H2 as (c2 & H2 & _).
    apply list_elem_of_singleton in H1. apply list_elem_of_singleton in H2.
    congruence.
  - intros a _. apply NoDup_bind; [| |apply NoDup_seqZ].
    + intros b1 b2 p _ _ H1 H2.
      apply list_elem_of_bind in H1 as (c1 & H1 & _).
      apply list_elem_of_bind in H2 as (c2 & H2 & _).
      apply list_elem_of_singleton in H1. apply list_elem_of_singleton in H2.
      congruence.
    + intros b _. apply NoDup_bind; [| |apply NoDup_seqZ].
      * intros c1 c2 p _ _ H1 H2.
        apply list_elem_of_singleton in H1.
        apply list_elem_of_singleton in H2. congruence.
      * intros c _. apply NoDup_singleton.
Qed.

Lemma elem_of_unit_cells (it : Item.t) (p : Pos) :
  p ∈ unit_cells it ↔ in_box it p.
Proof.
  unfold unit_cells, in_box.
  destruct (Item.position it) as [[[x y] z]|].
  - rewrite elem_of_cells. split; [eauto 10|].
    intros (? & ? & ? & [= <- <- <-] & H). exact H.
  - split; [intros H; inversion H|]. intros (? & ? & ? & [=] & _).
Qed.

Lemma NoDup_unit_cells (it : Item.t) : NoDup (unit_cells it).
Proof.
  unfold unit_cells. destruct (Item.position it) as [[[x y] z]|];
    [apply NoDup_cells | constructor].
Qed.

Lemma pairwise_disjoint_cons (a : Item.t) (l : list Item.t) :
  pairwise_disjoint (a :: l) →
  pairwise_disjoint l ∧ Forall (units_disjoint a) l.
Proof.
  intros H. split.
  - intros i j b1 b2 Hij H1 H2. apply (H (S i) (S j)); [lia|exact H1|exact H2].
  - apply Forall_forall. intros b Hb.
    apply list_elem_of_lookup in Hb as [j Hj].
    apply (H 0%nat (S j)); [lia|reflexivity|exact Hj].
Qed.

(** The cells of pairwise disjoint units are pairwise different. *)
Lemma NoDup_cells_of_units (l : list Item.t) :
  pairwise_disjoint l → NoDup (l ≫= unit_cells).
Proof.
  induction l as [|a l IH]; [constructor|].
  intros [Hl Ha]%pairwise_disjoint_cons.
  rewrite bind_cons. apply NoDup_app.
  split; [apply NoDup_unit_cells|]. split; [|exact (IH Hl)].
  intros p Hpa Hpl. apply list_elem_of_bind in Hpl as (b & Hpb & Hb).
  rewrite Forall_forall in Ha.
  apply (units_disjoint_no_common_point a b p (Ha b Hb)).
  split; apply elem_of_unit_cells; assumption.
Qed.

Lemma length_cells_of_units (l : list Item.t) :
  Forall (λ it, is_Some (Item.position it) ∧ 0 ≤ Item.length it ∧
                0 ≤ Item.width it ∧ 0 ≤ Item.height it ∧
                Item.length it * Item.width it * Item.height it
                  = Item.get_volume it) l →
  Z.of_nat (length (l ≫= unit_cells)) = total_volume l.
Proof.
  induction 1 as [|it l ([[[x y] z] Hp] & Hl & Hw & Hh & Hv) _ IH];
    [reflexivity|].
  rewrite bind_cons, length_app, Nat2Z.inj_add, IH.
  unfold total_volume at 2. simpl. fold (total_volume l).
  unfold unit_cells. rewrite Hp, length_cells, !Nat2Z.inj_mul, !Z2Nat.id
    by assumption.
  rewrite <- Hv. ring.
Qed.

Lemma get_volume_active (u it : Item.t) (o : string) (p : Pos) :
  placed_from u o p it →
  Item.length it * Item.width it * Item.height it = Item.get_volume it.
Proof.
  intros (_ & _ & _ & _ & Hd)%placed_from_facts.
  apply get_dimensions_perm, perm3_cases in Hd.
  unfold Item.get_volume.
  destruct (Item.original_dims it) as [[l w] h]. simpl in Hd.
  destruct Hd as [[= -> -> ->]|[[= -> -> ->]|[[= -> -> ->]|
                 [[= -> -> ->]|[[= -> -> ->]|[= -> -> ->]]]]]]; ring.
Qed.

Lemma pack_placed_units_within_container_aux (L W H MW : Z)
    (items : list Item.t) (c : Container.t) :
  BinPacker.pack (BinPacker.init L W H MW) items = Ok c →
  Forall dims_nonneg items →
  (L = Container.length c ∧ W = Container.width c ∧
   H = Container.height c) ∧
  Forall (within_container c) (Container.items c) ∧
  placed_nonneg c ∧
  pairwise_disjoint (Container.items c) ∧
  Forall (λ it, ∃ u o p, placed_from u o p it) (Container.items c).
Proof.
  intros (self' & units' & Hrun & ->)%pack_Ok Hdims.
  pose proof (pack_units_fixed_capacity _ _ _ _ Hrun) as (HL & HW & HH & _).
  pose proof (pack_units_container_inv _ _ _ _
                (init_container_inv L W H MW) Hrun) as (_ & Hin & Hdis & _).
  split; [simpl in *; auto|]. split; [exact Hin|]. split; [|split].
  - apply (pack_units_placed_nonneg (BinPacker.expanded_sorted items) units'
             (BinPacker.init L W H MW));
      [unfold placed_nonneg; simpl; constructor
      |exact (expanded_sorted_dims_nonneg items Hdims)|exact Hrun].
  - exact Hdis.
  - apply pack_units_placement in Hrun as (new & Hpl & Hitems & _).
    simpl in Hitems. rewrite Hitems.
    apply placement_new in Hpl as [_ Hnew].
    eapply Forall_impl; [exact Hnew|].
    intros it (u & o & p & _ & Hf). eauto.
Qed.

(** X6.  When the container dimensions and the nominal dimensions of the
    items are non-negative, the volumes of the units placed by a run add
    up to at most the volume of the container. *)
Theorem pack_volume_bound (L W H MW : Z) (items : list Item.t)
    (c : Container.t) :
  0 ≤ L → 0 ≤ W → 0 ≤ H →
  Forall dims_nonneg items →
  BinPacker.pack (BinPacker.init L W H MW) items = Ok c →
  total_volume (Container.items c) ≤ L * W * H.
Proof.
  intros HL HW HH Hdims Hpack.
  pose proof (pack_placed_units_within_container_aux L W H MW items c Hpack
                Hdims) as (Hcap & Hin & Hnn & Hdis & Hfrom).
  rewrite <- (length_cells_of_units (Container.items c)).
  - replace (L * W * H) with (Z.of_nat (length (cells 0 0 0 L W H)))
      by (rewrite length_cells, !Nat2Z.inj_mul, !Z2Nat.id by assumption; ring).
    apply inj_le, submseteq_length, NoDup_submseteq;
      [exact (NoDup_cells_of_units _ Hdis)|].
    intros p (it & Hp & Hit)%list_elem_of_bind.
    apply elem_of_unit_cells in Hp as (x & y & z & Hpos & Hx & Hy & Hz).
    unfold placed_nonneg in Hnn. rewrite Forall_forall in Hin, Hnn.
    destruct (Hin it Hit) as (x' & y' & z' & Hpos' & Hbx & Hby & Hbz).
    destruct (Hnn it Hit) as ((x'' & y'' & z'' & Hpos'' & Hnx & Hny & Hnz) & _).
    rewrite Hpos in Hpos', Hpos''.
    injection Hpos' as <- <- <-. injection Hpos'' as <- <- <-.
    destruct Hcap as (-> & -> & ->).
    apply elem_of_cells. lia.
  - unfold placed_nonneg in Hnn.
    rewrite Forall_forall in Hnn, Hfrom |- *. intros it Hit.
    destruct (Hnn it Hit) as ((x & y & z & Hpos & _) & Hl & Hw & Hh).
    destruct (Hfrom it Hit) as (u & o & p & Hf).
    split; [rewrite Hpos; eauto|].
    split; [exact Hl|]. split; [exact Hw|]. split; [exact Hh|].
    exact (get_volume_active u it o p Hf).
Qed.

Lemma pack_volume_bound_witness :
  ∃ c,
    BinPacker.pack (BinPacker.init 100 50 50 1000) [box "a" 50 50 50 10 3]
      = Ok c ∧
    total_volume (Container.items c) ≤ 100 * 50 * 50.
Proof.
  eexists. split; [vm_compute; reflexivity|].
  apply (pack_volume_bound 100 50 50 1000 [box "a" 50 50 50 10 3]);
    [lia | lia | lia | | vm_compute; reflexivity].
  repeat constructor; simpl; lia.
Defined.

(** * Properties of the visualization *)

Lemma elem_of_box_corners (x y z l w h : Z) (p : Pos) :
  p ∈ box_corners x y z l w h ↔
  (p.1.1 = x ∨ p.1.1 = x + l) ∧ (p.1.2 = y ∨ p.1.2 = y + w) ∧
  (p.2 = z ∨ p.2 = z + h).
Proof.
  destruct p as [[a b] c]. unfold box_corners. simpl.
  rewrite !elem_of_cons, elem_of_nil. split.
  - intros H. repeat destruct H as [H|H]; try (injection H as -> -> ->);
      try tauto; auto.
  - intros ([->| ->] & [->| ->] & [->| ->]); auto 10.
Qed.

(** X14.  The mesh of [draw_box] has the eight corners of the box as its
    vertices and twelve triangles; every triangle joins three different
    vertices of the mesh that lie in one face plane of the box; name,
    color and legend flag are the arguments. *)
Theorem draw_box_mesh (x y z l w h : Z) (color name : string) (sl : bool) :
  let m := Plot.draw_box x y z l w h color name sl in
  (∀ n : nat, (n < 8)%nat ↔ is_Some (vertex m n)) ∧
  (∀ p, p ∈ box_corners x y z l w h ↔ ∃ n, vertex m n = Some p) ∧
  (∀ n : nat, (n < 12)%nat ↔ is_Some (triangle m n)) ∧
  (∀ n a b c, triangle m n = Some (a, b, c) →
     a ≠ b ∧ b ≠ c ∧ a ≠ c ∧
     ∃ pa pb pc,
       vertex m a = Some pa ∧ vertex m b = Some pb ∧ vertex m c = Some pc ∧
       ((pa.1.1 = pb.1.1 ∧ pb.1.1 = pc.1.1) ∨
        (pa.1.2 = pb.1.2 ∧ pb.1.2 = pc.1.2) ∨
        (pa.2 = pb.2 ∧ pb.2 = pc.2))) ∧
  Plot.name m = name ∧ Plot.color m = color ∧ Plot.showlegend m = sl.
Proof.
  intros m. split; [|split; [|split; [|split]]].
  - intros n. split.
    + intros Hn. do 8 (destruct n as [|n]; [simpl; eauto|]). lia.
    + intros [p Hp]. do 8 (destruct n as [|n]; [lia|]). discriminate.
  - intros p. rewrite elem_of_box_corners. split.
    + destruct p as [[a b] c]. simpl.
      intros ([->| ->] & [->| ->] & [->| ->]);
        [exists 0%nat | exists 4%nat | exists 3%nat | exists 7%nat
        | exists 1%nat | exists 5%nat | exists 2%nat | exists 6%nat];
        reflexivity.
    + intros [n Hn].
      do 8 (destruct n as [|n]; [injection Hn as <-; simpl; tauto|]).
      discriminate.
  - intros n. split.
    + intros Hn. do 12 (destruct n as [|n]; [simpl; eauto|]). lia.
    + intros [p Hp]. do 12 (destruct n as [|n]; [lia|]). discriminate.
  - intros n a b c Hn.
    do 12 (destruct n as [|n];
           [injection Hn as <- <- <-;
            (split; [lia|]); (split; [lia|]); (split; [lia|]);
            eexists _, _, _;
            (split; [reflexivity|]); (split; [reflexivity|]);
            (split; [reflexivity|]); simpl; tauto|]).
    discriminate.
  - repeat split.
Qed.

(** X15.  The twelve triangles of [draw_box] do not cover the six faces:
    when the length of the box is not zero, no triangle lies in the face
    [x = x0] through the position of the box, and the triangles of rank 2
    and 8 are the same one. *)
Theorem draw_box_uncovered_face (x y z l w h : Z) (color name : string)
    (sl : bool) :
  let m := Plot.draw_box x y z l w h color name sl in
  (l ≠ 0 →
   ∀ n a b c pa pb pc,
     triangle m n = Some (a, b, c) →
     vertex m a = Some pa → vertex m b = Some pb → vertex m c = Some pc →
     pa.1.1 ≠ x ∨ pb.1.1 ≠ x ∨ pc.1.1 ≠ x) ∧
  triangle m 2 = triangle m 8.
Proof.
  intros m. split; [|reflexivity].
  intros Hl n a b c pa pb pc Hn Ha Hb Hc.
  do 12 (destruct n as [|n];
         [injection Hn as <- <- <-;
          injection Ha as <-; injection Hb as <-; injection Hc as <-;
          simpl; lia|]).
  discriminate.
Qed.

Lemma draw_box_uncovered_face_witness :
  ∃ pa pb pc,
    triangle (Plot.draw_box 0 0 0 2 3 4 "red" "b" true) 7
      = Some (6, 7, 3)%nat ∧
    vertex (Plot.draw_box 0 0 0 2 3 4 "red" "b" true) 6 = Some pa ∧
    vertex (Plot.draw_box 0 0 0 2 3 4 "red" "b" true) 7 = Some pb ∧
    vertex (Plot.draw_box 0 0 0 2 3 4 "red" "b" true) 3 = Some pc ∧
    (pa.1.1 ≠ 0 ∨ pb.1.1 ≠ 0 ∨ pc.1.1 ≠ 0).
Proof.
  eexists _, _, _. split; [reflexivity|].
  split; [reflexivity|]. split; [reflexivity|]. split; [reflexivity|].
  destruct (draw_box_uncovered_face 0 0 0 2 3 4 "red" "b" true) as [Hx _].
  apply (Hx ltac:(lia) 7%nat 6%nat 7%nat 3%nat); reflexivity.
Defined.

(** ** [draw_container] *)

Lemma item_traces_Ok (items : list Item.t) (traces : list Plot.Trace) :
  Plot.item_traces items = Ok traces →
  length traces = length items ∧
  ∀ (n : nat) it, items !! n = Some it →
    ∃ x y z,
      Item.position it = Some (x, y, z) ∧
      traces !! n
      = Some (Plot.Mesh (Plot.draw_box x y z (Item.length it)
                           (Item.width it) (Item.height it) (Item.color it)
                           (Item.name it) true)).
Proof.
  revert traces. induction items as [|it items IH]; intros traces; simpl.
  - intros [= <-]. split; [reflexivity|]. intros n it Hn.
    rewrite lookup_nil in Hn. discriminate.
  - destruct (Item.position it) as [[[x y] z]|] eqn:Hp; [|discriminate].
    destruct (Plot.item_traces items) as [rest|e]; [|discriminate].
    rewrite bind_Ok. intros [= <-].
    destruct (IH rest eq_refl) as [Hlen Hn]. split; [simpl; lia|].
    intros [|n] it' Hit; simpl in Hit.
    + injection Hit as <-. exists x, y, z. split; [exact Hp | reflexivity].
    + exact (Hn n it' Hit).
Qed.

Lemma item_traces_total (items : list Item.t) :
  Forall (λ it, is_Some (Item.position it)) items →
  ∃ traces, Plot.item_traces items = Ok traces.
Proof.
  induction 1 as [|it items [[[x y] z] Hp] _ [rest IH]]; simpl; [eauto|].
  rewrite Hp, IH, bind_Ok. eauto.
Qed.

Lemma item_traces_Raise (items : list Item.t) (e : exn) :
  Plot.item_traces items = Raise e →
  e = TypeError ∧ ∃ it, it ∈ items ∧ Item.position it = None.
Proof.
  induction items as [|it items IH]; simpl; [discriminate|].
  destruct (Item.position it) as [[[x y] z]|] eqn:Hp.
  - destruct (Plot.item_traces items) as [rest|e']; [discriminate|].
    intros [= <-]. destruct (IH eq_refl) as (-> & it' & Hit' & Hn).
    split; [reflexivity|]. exists it'. split; [right; exact Hit' | exact Hn].
  - intros [= <-]. split; [reflexivity|]. exists it. split; [left | exact Hp].
Qed.

(** X16.  [draw_container] draws, in this order, the mesh of the container
    box at the origin, twelve line segments and one mesh per placed unit,
    in placed order, built from the position, active dimensions, color and
    name of the unit.  It raises [TypeError] exactly when a unit of the
    placed sequence has no position, and otherwise returns
    [13 + len(items)] traces. *)
Theorem draw_container_traces (c : Container.t) :
  (∀ traces, Plot.draw_container c = Ok traces →
     length traces = (13 + length (Container.items c))%nat ∧
     traces !! 0%nat
     = Some (Plot.Mesh (Plot.draw_box 0 0 0 (Container.length c)
                          (Container.width c) (Container.height c)
                          "rgba(200, 200, 200, 0.2)" "Container" false)) ∧
     (∀ n : nat, (1 ≤ n ≤ 12)%nat →
        ∃ s, traces !! n = Some (Plot.Line s)) ∧
     (∀ (n : nat) it, Container.items c !! n = Some it →
        ∃ x y z,
          Item.position it = Some (x, y, z) ∧
          traces !! (13 + n)%nat
          = Some (Plot.Mesh (Plot.draw_box x y z (Item.length it)
                               (Item.width it) (Item.height it)
                               (Item.color it) (Item.name it) true)))) ∧
  (positioned c ↔ ∃ traces, Plot.draw_container c = Ok traces) ∧
  (∀ e, Plot.draw_container c = Raise e → e = TypeError).
Proof.
  unfold Plot.draw_container. split; [|split].
  - intros traces.
    destruct (Plot.item_traces (Container.items c)) as [its|e] eqn:Hits;
      [|discriminate].
    rewrite bind_Ok. intros [= <-].
    apply item_traces_Ok in Hits as [Hlen Hn].
    split; [simpl; rewrite Hlen; reflexivity|]. split; [reflexivity|]. split.
    + intros n Hle.
      do 13 (destruct n as [|n]; [first [lia | simpl; eauto]|]). lia.
    + intros n it Hit. destruct (Hn n it Hit) as (x & y & z & Hp & Ht).
      exists x, y, z. split; [exact Hp|]. exact Ht.
  - split.
    + intros [its ->]%item_traces_total. rewrite bind_Ok. eauto.
    + intros [traces Ht].
      destruct (Plot.item_traces (Container.items c)) as [its|e] eqn:Hits;
        [|discriminate].
      apply item_traces_Ok in Hits as [_ Hn].
      apply Forall_forall. intros it [n Hit]%list_elem_of_lookup.
      destruct (Hn n it Hit) as (x & y & z & Hp & _). rewrite Hp. eauto.
  - intros e.
    destruct (Plot.item_traces (Container.items c)) as [its|e'] eqn:Hits;
      [discriminate|].
    intros [= <-]. apply item_traces_Raise in Hits. tauto.
Qed.

Lemma draw_container_traces_witness :
  ∃ traces,
    Plot.draw_container one_box_container = Ok traces ∧
    length traces = 14%nat.
Proof.
  destruct (draw_container_traces one_box_container) as (Hok & Hpos & _).
  destruct (proj1 Hpos) as [traces Ht].
  - repeat constructor. simpl. eauto.
  - exists traces. split; [exact Ht|]. apply (Hok traces Ht).
Defined.

Lemma draw_box_vertex_corner (x y z l w h : Z) (color name : string)
    (sl : bool) (n : nat) (p : Pos) :
  vertex (Plot.draw_box x y z l w h color name sl) n = Some p →
  p ∈ box_corners x y z l w h.
Proof.
  intros Hn. apply elem_of_box_corners.
  do 8 (destruct n as [|n]; [injection Hn as <-; simpl; tauto|]).
  discriminate.
Qed.

(** Look for the edge of rank [k] in [edges_lines]. *)
Ltac find_edge k :=
  eexists; split;
  [apply list_elem_of_lookup; exists k; reflexivity
  |first [left; reflexivity | right; reflexivity]].

(** X17.  The twelve line segments of [draw_container] are the twelve
    edges of the container box: each joins two corners of the box
    [0,L] x [0,W] x [0,H] and, when no container dimension is zero, the
    two corners differ on exactly one axis and every such pair of corners
    is joined by a segment. *)
Theorem edges_lines_are_box_edges (c : Container.t) :
  let corners :=
    box_corners 0 0 0 (Container.length c) (Container.width c)
      (Container.height c) in
  length (Plot.edges_lines c) = 12%nat ∧
  (∀ e, e ∈ Plot.edges_lines c →
     ∃ p q, segment_of e = Some (p, q) ∧ p ∈ corners ∧ q ∈ corners ∧
            (Container.length c ≠ 0 → Container.width c ≠ 0 →
             Container.height c ≠ 0 → differ_on_one_axis p q)) ∧
  (Container.length c ≠ 0 → Container.width c ≠ 0 →
   Container.height c ≠ 0 →
   ∀ p q, p ∈ corners → q ∈ corners → differ_on_one_axis p q →
     ∃ e, e ∈ Plot.edges_lines c ∧
          (segment_of e = Some (p, q) ∨ segment_of e = Some (q, p))) ∧
  (∀ traces (n : nat), Plot.draw_container c = Ok traces →
     (n < 12)%nat →
     ∃ e, Plot.edges_lines c !! n = Some e ∧
          traces !! (S n) = Some (Plot.edge_trace e)).
Proof.
  intros corners. subst corners.
  split; [reflexivity|]. split; [|split].
  - intros e He. unfold Plot.edges_lines in He.
    rewrite !elem_of_cons, elem_of_nil in He.
    repeat destruct He as [He|He]; try contradiction; subst e;
      eexists _, _; (split; [reflexivity|]);
      rewrite !elem_of_box_corners; unfold differ_on_one_axis; simpl;
      (split; [lia|]); (split; [lia|]); intros; lia.
  - intros HL HW HH [[px py] pz] [[qx qy] qz].
    rewrite !elem_of_box_corners. unfold differ_on_one_axis. simpl.
    rewrite !Z.add_0_l.
    intros ([->| ->] & [->| ->] & [->| ->]) ([->| ->] & [->| ->] & [->| ->])
      Hd;
      first [ exfalso; lia
            | find_edge 0%nat | find_edge 1%nat | find_edge 2%nat
            | find_edge 3%nat | find_edge 4%nat | find_edge 5%nat
            | find_edge 6%nat | find_edge 7%nat | find_edge 8%nat
            | find_edge 9%nat | find_edge 10%nat | find_edge 11%nat ].
  - intros traces n. unfold Plot.draw_container.
    destruct (Plot.item_traces (Container.items c)) as [its|e]; [|discriminate].
    rewrite bind_Ok. intros [= <-] Hn.
    do 12 (destruct n as [|n]; [eexists; split; reflexivity|]). lia.
Qed.

Lemma edges_lines_are_box_edges_witness :
  ∃ e,
    e ∈ Plot.edges_lines (Container.init 590 235 239 28000) ∧
    segment_of e = Some ((590, 0, 0), (590, 0, 239)).
Proof.
  destruct (edges_lines_are_box_edges (Container.init 590 235 239 28000))
    as (_ & _ & Hall & _).
  destruct (Hall ltac:(simpl; lia) ltac:(simpl; lia) ltac:(simpl; lia)
              (590, 0, 0) (590, 0, 239)) as (e & He & [Hs|Hs]).
  - apply elem_of_box_corners. simpl. lia.
  - apply elem_of_box_corners. simpl. lia.
  - unfold differ_on_one_axis. simpl. lia.
  - exists e. auto.
  - exfalso. unfold Plot.edges_lines in He.
    rewrite !elem_of_cons, elem_of_nil in He.
    repeat destruct He as [He|He]; try contradiction; subst e; discriminate.
Defined.

(** X18.  A container returned by a run of [pack] can always be drawn:
    [draw_container] returns [13 + len(items)] traces and, when the
    nominal dimensions of the items are non-negative, every vertex of the
    mesh of every placed unit lies in the box [0,L] x [0,W] x [0,H] of the
    container. *)
Theorem draw_container_of_pack (L W H MW : Z) (items : list Item.t)
    (c : Container.t) :
  BinPacker.pack (BinPacker.init L W H MW) items = Ok c →
  ∃ traces,
    Plot.draw_container c = Ok traces ∧
    length traces = (13 + length (Container.items c))%nat ∧
    (Forall dims_nonneg items →
     ∀ (n k : nat) m p,
       traces !! (13 + n)%nat = Some (Plot.Mesh m) →
       vertex m k = Some p → in_container_box c p).
Proof.
  intros Hpack.
  pose proof Hpack as (self' & units' & Hrun & ->)%pack_Ok.
  pose proof (pack_units_container_inv _ _ _ _
                (init_container_inv L W H MW) Hrun) as (Hpos & Hin & _).
  destruct (item_traces_total _ Hpos) as [its Hits].
  exists (Plot.Mesh (Plot.draw_box 0 0 0
                       (Container.length (BinPacker.container self'))
                       (Container.width (BinPacker.container self'))
                       (Container.height (BinPacker.container self'))
                       "rgba(200, 200, 200, 0.2)" "Container" false)
          :: (Plot.edge_trace
                <$> Plot.edges_lines (BinPacker.container self')) ++ its).
  split; [unfold Plot.draw_container; rewrite Hits; reflexivity|].
  apply item_traces_Ok in Hits as [Hlen Hn].
  split; [simpl; rewrite Hlen; reflexivity|].
  intros Hdims n k m p Ht Hv.
  assert (placed_nonneg (BinPacker.container self')) as Hnn.
  { apply (pack_units_placed_nonneg (BinPacker.expanded_sorted items) units'
             (BinPacker.init L W H MW));
      [unfold placed_nonneg; simpl; constructor
      |exact (expanded_sorted_dims_nonneg items Hdims)|exact Hrun]. }
  change (its !! n = Some (Plot.Mesh m)) in Ht.
  assert (is_Some (Container.items (BinPacker.container self') !! n))
    as [it Hit].
  { apply lookup_lt_is_Some. rewrite <- Hlen.
    apply lookup_lt_is_Some. eauto. }
  destruct (Hn n it Hit) as (x & y & z & Hp & Ht').
  rewrite Ht in Ht'. injection Ht' as ->.
  apply draw_box_vertex_corner, elem_of_box_corners in Hv.
  unfold placed_nonneg in Hnn. rewrite Forall_forall in Hin, Hnn.
  apply list_elem_of_lookup_2 in Hit.
  destruct (Hin it Hit) as (x' & y' & z' & Hp' & Hbx & Hby & Hbz).
  destruct (Hnn it Hit) as ((x'' & y'' & z'' & Hp'' & Hx & Hy & Hz)
                            & Hl & Hw & Hh).
  rewrite Hp in Hp', Hp''.
  injection Hp' as <- <- <-. injection Hp'' as <- <- <-.
  unfold in_container_box. lia.
Qed.

Lemma draw_container_of_pack_witness :
  ∃ c traces,
    BinPacker.pack (BinPacker.init 100 50 50 1000) [box "a" 50 50 50 10 3]
      = Ok c ∧
    Plot.draw_container c = Ok traces ∧
    length traces = 15%nat.
Proof.
  destruct (draw_container_of_pack 100 50 50 1000 [box "a" 50 50 50 10 3] _
              ltac:(vm_compute; reflexivity)) as (traces & Ht & Hlen & _).
  eexists _, traces. split; [vm_compute; reflexivity|].
  split; [exact Ht | exact Hlen].
Defined.

(** ** Names of the units *)

Lemma underscore_string : String underscore "" = "_"%string.
Proof. reflexivity. Qed.

Lemma occurs_app (c : Ascii.ascii) (s t : string) :
  occurs c (s +:+ String c t) = true.
Proof.
  induction s as [|a s IH]; simpl.
  - case_decide; [reflexivity | congruence].
  - case_decide; [reflexivity | exact IH].
Qed.

Lemma pretty_N_go_no_underscore (x : N) (s : string) :
  occurs underscore s = false → occurs underscore (pretty_N_go x s) = false.
Proof.
  revert s. induction (N.lt_wf_0 x) as [x _ IH]; intros s Hs.
  assert (x = 0 ∨ 0 < x)%N as [->|Hx] by lia.
  - rewrite pretty_N_go_0. exact Hs.
  - rewrite pretty_N_go_step by exact Hx. apply IH.
    + apply N.div_lt; [exact Hx | reflexivity].
    + simpl. rewrite Hs. unfold pretty_N_char, underscore.
      repeat case_match; first [reflexivity | discriminate].
Qed.

Lemma pretty_no_underscore (i : Z) : 0 < i → occurs underscore (pretty i) = false.
Proof.
  destruct i as [|p|p]; [lia| |lia]. intros _.
  unfold pretty, pretty_Z, pretty, pretty_positive, pretty, pretty_N.
  case_decide; [reflexivity|].
  apply pretty_N_go_no_underscore. reflexivity.
Qed.

(** The part of a unit name before its last underscore is the item name. *)
Lemma name_suffix_inj (s1 s2 d1 d2 : string) :
  occurs underscore d1 = false → occurs underscore d2 = false →
  s1 +:+ "_" +:+ d1 = s2 +:+ "_" +:+ d2 → s1 = s2 ∧ d1 = d2.
Proof.
  intros H1 H2.
  change (s1 +:+ String underscore d1 = s2 +:+ String underscore d2 →
          s1 = s2 ∧ d1 = d2).
  revert s2. induction s1 as [|a s1 IH]; intros [|b s2] Heq.
  - change (String underscore d1 = String underscore d2) in Heq.
    injection Heq as ->. auto.
  - change (String underscore d1
            = String b (s2 +:+ String underscore d2)) in Heq.
    injection Heq as <- ->.
    rewrite (occurs_app underscore s2 d2) in H1. discriminate.
  - change (String a (s1 +:+ String underscore d1)
            = String underscore d2) in Heq.
    injection Heq as -> <-.
    rewrite (occurs_app underscore s1 d1) in H2. discriminate.
  - change (String a (s1 +:+ String underscore d1)
            = String b (s2 +:+ String underscore d2)) in Heq.
    injection Heq as -> Heq. destruct (IH s2 Heq) as [-> ->]. auto.
Qed.

Lemma expand_names_NoDup (items : list Item.t) :
  NoDup (Item.name <$> items) → NoDup (Item.name <$> BinPacker.expand items).
Proof.
  induction items as [|it items IH]; [constructor|].
  rewrite fmap_cons. intros [Hit Hitems]%NoDup_cons.
  rewrite expand_cons, fmap_app. apply NoDup_app. split; [|split].
  - rewrite <- list_fmap_compose.
    apply NoDup_fmap_2_strong; [|apply NoDup_seqZ].
    intros i j _ _. apply unit_copy_name_inj.
  - intros n (u & -> & Hu)%list_elem_of_fmap (u' & Hn & Hu')%list_elem_of_fmap.
    apply list_elem_of_fmap in Hu as (i & -> & Hi%elem_of_seqZ).
    apply elem_of_expand in Hu' as (it' & j & Hit' & Hj & ->).
    simpl in Hn. apply name_suffix_inj in Hn as [Hn _];
      [|apply pretty_no_underscore; lia..].
    apply Hit. rewrite Hn. apply list_elem_of_fmap. eauto.
  - exact (IH Hitems).
Qed.

(** X19.  When the items have pairwise different names, so have the
    expanded units, hence the units of the container returned by a run:
    a name identifies a placed unit. *)
Theorem pack_unit_names_distinct (L W H MW : Z) (items : list Item.t) :
  NoDup (Item.name <$> items) →
  NoDup (Item.name <$> BinPacker.expand items) ∧
  (∀ c, BinPacker.pack (BinPacker.init L W H MW) items = Ok c →
     NoDup (Item.name <$> Container.items c)).
Proof.
  intros Hnames. pose proof (expand_names_NoDup items Hnames) as Hexp.
  split; [exact Hexp|].
  intros c (self' & units' & Hrun & ->)%pack_Ok.
  apply pack_units_placement in Hrun as (new & Hpl & Hitems & _).
  simpl in Hitems. rewrite Hitems.
  pose proof (placement_new _ _ _ Hpl) as [Hsub _].
  apply placement_same_nominal in Hpl.
  assert (Item.name <$> units'
          = Item.name <$> BinPacker.expanded_sorted items) as Heq.
  { clear -Hpl. induction Hpl as [|u u' us us' Hn _ IH]; [reflexivity|].
    rewrite !fmap_cons, IH. destruct Hn as [-> _]. reflexivity. }
  apply (sublist_NoDup (Item.name <$> new) (Item.name <$> units')).
  - rewrite Heq. unfold BinPacker.expanded_sorted.
    rewrite (sorted_perm _ _ _). exact Hexp.
  - apply fmap_sublist, Hsub.
Qed.

Lemma pack_unit_names_distinct_witness :
  ∃ c,
    BinPacker.pack (BinPacker.init 100 50 50 1000)
      [box "a" 50 50 50 10 1; box "a_1" 50 50 50 10 1] = Ok c ∧
    NoDup (Item.name <$> Container.items c).
Proof.
  eexists. split; [vm_compute; reflexivity|].
  apply (pack_unit_names_distinct 100 50 50 1000
           [box "a" 50 50 50 10 1; box "a_1" 50 50 50 10 1]).
  - simpl. apply NoDup_cons. split; [|apply NoDup_singleton].
    intros H%list_elem_of_singleton. discriminate.
  - vm_compute. reflexivity.
Defined.

(** * The application *)

Lemma form_item_orientation (name color : string) (l w h weight qty : Z) :
  Item.orientation_preference (form_item name l w h weight qty color)
  = ["lwh"%string].
Proof. reflexivity. Qed.

(** X20.  Items built by the application (form or dummy data) carry the
    single orientation code ["lwh"].  For such an item list the run button
    never fails, whatever numbers were entered: the list is packed, the
    container is drawn, the reported count and weight are the number and
    the total weight of the placed units, and no placed unit is rotated
    (its active dimensions are its nominal ones). *)
Theorem run_packing_of_form_items (L W H MW : Z) (item_list : list Item.t) :
  Forall (λ it, ∃ name l w h weight qty color,
            it = form_item name l w h weight qty color) item_list →
  ∃ c traces,
    BinPacker.pack (BinPacker.init L W H MW) item_list = Ok c ∧
    Plot.draw_container c = Ok traces ∧
    run_packing L W H MW item_list
      = Ok (length (Container.items c), total_weight (Container.items c),
            traces) ∧
    Forall (λ it, Item.rotation it = Some "lwh"%string ∧
                  (Item.length it, Item.width it, Item.height it)
                    = Item.original_dims it)
      (Container.items c).
Proof.
  intros Hform.
  assert (Forall (λ it, Item.orientation_preference it = ["lwh"%string])
            item_list) as Hpref.
  { eapply Forall_impl; [exact Hform|].
    intros it (name & l & w & h & weight & qty & color & ->). reflexivity. }
  rewrite Forall_forall in Hpref.
  destruct (BinPacker.pack (BinPacker.init L W H MW) item_list) as [c|e]
    eqn:Hpack.
  - pose proof Hpack as (self' & units' & Hrun & ->)%pack_Ok.
    pose proof (pack_units_container_inv _ _ _ _
                  (init_container_inv L W H MW) Hrun) as (Hpos & _ & _ & Hw).
    destruct (item_traces_total _ Hpos) as [its Hits].
    eexists _, _. split; [reflexivity|].
    split; [unfold Plot.draw_container; rewrite Hits; reflexivity|]. split.
    + unfold run_packing, Plot.draw_container.
      rewrite Hpack, bind_Ok, Hits, !bind_Ok, Hw. reflexivity.
    + apply pack_units_placement in Hrun as (new & Hpl & Hitems & _).
      simpl in Hitems. rewrite Hitems.
      apply placement_new in Hpl as [_ Hnew].
      eapply Forall_impl; [exact Hnew|].
      intros it (u & o & p & Hu & Hfrom).
      apply elem_of_expanded_sorted in Hu as (it0 & i & Hit0 & _ & ->).
      pose proof (placed_from_facts _ _ _ _ Hfrom)
        as ((_ & _ & Hod & _) & _ & Hr & _ & Hd).
      destruct Hfrom as (Ho & _). simpl in Ho. rewrite (Hpref it0 Hit0) in Ho.
      apply list_elem_of_singleton in Ho as ->.
      split; [exact Hr|].
      unfold Item.get_dimensions in Hd.
      destruct (Item.original_dims it) as [[l w] h].
      change (Item.orientation_table l w h !! "lwh"%string)
        with (Some (l, w, h)) in Hd.
      congruence.
  - exfalso.
    apply pack_Raise, pack_units_Raise in Hpack
      as (u & o & Hu & Ho & Hn & _); [|apply init_container_inv].
    apply elem_of_expanded_sorted in Hu as (it0 & i & Hit0 & _ & ->).
    simpl in Ho. rewrite (Hpref it0 Hit0) in Ho.
    apply list_elem_of_singleton in Ho as ->.
    apply Hn, elem_of_orientation_codes. auto.
Qed.

Lemma run_packing_of_form_items_witness :
  ∃ traces,
    run_packing 590 235 239 28000 dummy_data = Ok (11%nat, 295, traces).
Proof.
  destruct (run_packing_of_form_items 590 235 239 28000 dummy_data)
    as (c & traces & Hpack & _ & Hrun & _).
  { repeat constructor; eexists _, _, _, _, _, _, _; reflexivity. }
  exists traces. rewrite Hrun.
  vm_compute in Hpack. injection Hpack as <-. reflexivity.
Defined.
